(** * fetch_tables.py: tidy records from ACS Subject tables

    A shallow embedding of [src/fetch_tables.py] and the properties of its
    value normaliser, header decoder, schema registry, record assembler,
    label merger, sort and retry loop.

    Conventions of the embedding.
    - A Python [str] is a [string] whose characters are the code points
      0..255 (Latin-1).  In that range the decimal digits are exactly
      ['0'..'9'] and the white space characters are exactly 9..13, 28..31,
      32, 133 and 160, so [str.strip], [float] and [\d] are modelled without
      loss.
    - A Python [float] is an IEEE 754 binary64 value, [spec_float] with
      [prec = 53] and [emax = 1024]; arithmetic on it is the standard
      library's specification ([SFsub], [SFmul], [SFcompare], ...).
    - A Python [int] is a [Z].
    - An exception is a value of [exn]; code that can raise returns [res A].
    - A [dict] with string keys is a [gmap string _].
    - The world outside is a set of oracles: the answers of the network,
      the label files, what the file system does with a file to write and
      what the standard output does with a line to print.
    - A response is any JSON value up to the end of [fetch_group_subject].
      [main] is followed on the responses of its declared type, lists of
      lists of strings and nulls; on others the run is [None], which says
      nothing about the code. *)

From Stdlib Require Import ZArith Bool Ascii String SpecFloat Lia.
From stdpp Require Import base option list gmap strings sorting.

Set Warnings "-register-all".

(** ** Exceptions and the error monad *)

(** What can go wrong in one attempt of a fetch. *)
Inductive fetch_failure : Type :=
  | ConnectionError
  | HTTPError (status : Z)
  | JSONDecodeError
  | UnexpectedFormat.

Inductive exn : Type :=
  | ValueError
  | OverflowError
  | IndexError
  | AttributeError
  | TypeError
  | OSError
  | UnicodeEncodeError
  | FetchError (f : fetch_failure)
  | RuntimeError (table tract : string) (last_err : option fetch_failure).

Inductive res (A : Type) : Type :=
  | Ok (a : A)
  | Raise (e : exn).
Arguments Ok {A} a.
Arguments Raise {A} e.

#[export] Instance res_ret : MRet res := fun A a => Ok a.
#[export] Instance res_bind : MBind res := fun A B k m =>
  match m with
  | Ok a => k a
  | Raise e => Raise e
  end.

(** [try: m except Exception: h] *)
Definition try_except {A : Type} (m : res A) (h : exn -> res A) : res A :=
  match m with
  | Ok a => Ok a
  | Raise e => h e
  end.

(** ** Strings *)

Definition code (c : ascii) : N := N_of_ascii c.

(** [str.isspace] on one character. *)
Definition isspace (c : ascii) : bool :=
  let n := code c in
  ((9 <=? n) && (n <=? 13) || (28 <=? n) && (n <=? 32)
   || (n =? 133) || (n =? 160))%N.

Definition is_digit (c : ascii) : bool :=
  let n := code c in ((48 <=? n) && (n <=? 57))%N.

Definition digit_val (c : ascii) : N := (code c - 48)%N.

Definition is_empty (s : string) : bool :=
  match s with EmptyString => true | String _ _ => false end.

Fixpoint lstrip_with (sp : ascii -> bool) (s : string) : string :=
  match s with
  | EmptyString => EmptyString
  | String c s' => if sp c then lstrip_with sp s' else s
  end.

Fixpoint rstrip_with (sp : ascii -> bool) (s : string) : string :=
  match s with
  | EmptyString => EmptyString
  | String c s' =>
      let r := rstrip_with sp s' in
      if sp c && is_empty r then EmptyString else String c r
  end.

(** [s.strip()] *)
Definition strip (s : string) : string := rstrip_with isspace (lstrip_with isspace s).

Definition str_eqb (a b : string) : bool := bool_decide (a = b).

Fixpoint str_in (s : string) (l : list string) : bool :=
  match l with
  | [] => false
  | x :: l' => str_eqb s x || str_in s l'
  end.

(** Lower-casing of the ASCII letters, enough for [inf] and [nan]. *)
Definition lower (c : ascii) : ascii :=
  let n := code c in
  if ((65 <=? n) && (n <=? 90))%N then ascii_of_N (n + 32) else c.

Fixpoint lower_str (s : string) : string :=
  match s with
  | EmptyString => EmptyString
  | String c s' => String (lower c) (lower_str s')
  end.

(** Comparison of [str] values: lexicographic on code points. *)
Definition str_le (a b : string) : Prop := String.leb a b = true.
Definition str_lt (a b : string) : Prop := String.ltb a b = true.

(** ** Floats *)

Definition prec : Z := 53.
Definition emax : Z := 1024.

Definition float_of_Z (z : Z) : spec_float := binary_normalize prec emax z 0 false.

(** The binary64 value nearest to [(-1)^neg * m * 10^e10], ties to even,
    which is what [float] and a float literal yield for a decimal numeral. *)
Definition float_of_decimal (neg : bool) (m : N) (e10 : Z) : spec_float :=
  match m with
  | N0 => S754_zero neg
  | Npos p =>
      if (0 <=? e10)%Z
      then binary_normalize prec emax (cond_Zopp neg (Zpos p * 10 ^ e10)) 0 false
      else SFdiv prec emax (S754_finite neg p 0)
                           (S754_finite false (Z.to_pos (10 ^ (- e10))) 0)
  end.

(** [digitpart ::= digit (["_"] digit)*]: the digits read (underscores
    dropped) and the rest of the input. *)
Fixpoint digitpart_tail (s : string) : string * string :=
  match s with
  | EmptyString => (EmptyString, EmptyString)
  | String c s' =>
      if is_digit c then
        let '(d, r) := digitpart_tail s' in (String c d, r)
      else if Ascii.eqb c "_" then
        match s' with
        | String c' s'' =>
            if is_digit c' then
              let '(d, r) := digitpart_tail s'' in (String c' d, r)
            else (EmptyString, s)
        | EmptyString => (EmptyString, s)
        end
      else (EmptyString, s)
  end.

Definition digitpart (s : string) : option (string * string) :=
  match s with
  | String c s' =>
      if is_digit c then
        let '(d, r) := digitpart_tail s' in Some (String c d, r)
      else None
  | EmptyString => None
  end.

Fixpoint digits_value (acc : N) (s : string) : N :=
  match s with
  | EmptyString => acc
  | String c s' => digits_value (10 * acc + digit_val c) s'
  end.

(** [sign ::= "+" | "-"], optional: whether it is negative, and the rest. *)
Definition opt_sign (s : string) : bool * string :=
  match s with
  | String c s' =>
      if Ascii.eqb c "-" then (true, s')
      else if Ascii.eqb c "+" then (false, s')
      else (false, s)
  | EmptyString => (false, s)
  end.

(** [number ::= [digitpart] "." digitpart | digitpart ["."]]: integer
    digits, fraction digits and the rest. *)
Definition number (s : string) : option (string * string * string) :=
  match digitpart s with
  | Some (ip, r) =>
      match r with
      | String c r' =>
          if Ascii.eqb c "." then
            match digitpart r' with
            | Some (fp, r'') => Some (ip, fp, r'')
            | None => Some (ip, EmptyString, r')
            end
          else Some (ip, EmptyString, r)
      | EmptyString => Some (ip, EmptyString, r)
      end
  | None =>
      match s with
      | String c r' =>
          if Ascii.eqb c "." then
            match digitpart r' with
            | Some (fp, r'') => Some (EmptyString, fp, r'')
            | None => None
            end
          else None
      | EmptyString => None
      end
  end.

(** [exponent ::= ("e" | "E") [sign] digitpart], optional; the whole input
    must be consumed. *)
Definition exponent (s : string) : option Z :=
  match s with
  | EmptyString => Some 0%Z
  | String c s' =>
      if Ascii.eqb c "e" || Ascii.eqb c "E" then
        let '(neg, r) := opt_sign s' in
        match digitpart r with
        | Some (d, EmptyString) =>
            Some (cond_Zopp neg (Z.of_N (digits_value 0 d)))
        | _ => None
        end
      else None
  end.

Definition floatnumber (neg : bool) (s : string) : option spec_float :=
  match number s with
  | Some (ip, fp, r) =>
      match exponent r with
      | Some e =>
          Some (float_of_decimal neg (digits_value 0 (ip +:+ fp))
                  (e - Z.of_nat (String.length fp)))
      | None => None
      end
  | None => None
  end.

(** [floatvalue ::= [sign] (floatnumber | infinity | nan)] *)
Definition floatvalue (s : string) : option spec_float :=
  let '(neg, r) := opt_sign s in
  let l := lower_str r in
  if str_eqb l "inf" || str_eqb l "infinity" then Some (S754_infinity neg)
  else if str_eqb l "nan" then Some S754_nan
  else floatnumber neg r.

(** White space that [float] removes around its argument. *)
Definition float_space (c : ascii) : bool :=
  let n := code c in
  ((9 <=? n) && (n <=? 13) || (n =? 32) || (n =? 133) || (n =? 160))%N.

(** [float(s)] for a string [s] *)
Definition py_float (s : string) : res spec_float :=
  match floatvalue (rstrip_with float_space (lstrip_with float_space s)) with
  | Some v => Ok v
  | None => Raise ValueError
  end.

(** [int(v)] for a float [v]: truncation towards zero. *)
Definition py_int (v : spec_float) : res Z :=
  match v with
  | S754_nan => Raise ValueError
  | S754_infinity _ => Raise OverflowError
  | S754_zero _ => Ok 0%Z
  | S754_finite s m e =>
      Ok (cond_Zopp s (match e with
                       | Zneg k => Z.shiftr (Zpos m) (Zpos k)
                       | _ => Z.shiftl (Zpos m) e
                       end))
  end.

(** The conversion of an [int] operand in [float - int]. *)
Definition py_float_of_int (z : Z) : res spec_float :=
  match float_of_Z z with
  | S754_infinity _ => Raise OverflowError
  | v => Ok v
  end.

(** ** Values *)

Inductive pyval : Type :=
  | PyNone
  | PyInt (z : Z)
  | PyFloat (v : spec_float)
  | PyStr (s : string).

#[export] Instance spec_float_eq_dec : EqDecision spec_float.
Proof. solve_decision. Defined.

#[export] Instance pyval_eq_dec : EqDecision pyval.
Proof. solve_decision. Defined.

Definition is_none (v : pyval) : bool :=
  match v with PyNone => true | _ => false end.

Definition of_opt_str (o : option string) : pyval :=
  match o with Some s => PyStr s | None => PyNone end.

(** ** Value normaliser *)

Definition SUPPRESS_CODES : list string :=
  [ "-555555555"; "-555555555.0";
    "-888888888"; "-888888888.0";
    "-666666666"; "-666666666.0";
    "-222222222"; "-222222222.0" ].

Definition ANNOTATION_TOKENS : list string := [ ""; "(X)"; "*****"; "-"; "**" ].

(** The literal [1e-9]. *)
Definition eps : spec_float := float_of_decimal false 1 (-9).

(** The body of the [try] block of [clean_num]. *)
Definition clean_num_try (s : string) : res pyval :=
  v ← py_float s;
  i ← py_int v;
  fi ← py_float_of_int i;
  if SFltb (SFabs (SFsub prec emax v fi)) eps then Ok (PyInt i) else Ok (PyFloat v).

Definition clean_num (x : option string) : res pyval :=
  match x with
  | None => Ok PyNone
  | Some x =>
      let s := strip x in
      if str_in s SUPPRESS_CODES || str_in s ANNOTATION_TOKENS then Ok PyNone
      else try_except (clean_num_try s) (fun _ => Ok PyNone)
  end.

(** ** Header decoder *)

(** The fragment of regular expressions that the header pattern uses: a
    sequence of fixed-width pieces, each in a capturing group or not,
    anchored by [^] and [$]. *)
Inductive atom : Type :=
  | Lit (s : string)          (* re.escape(s) *)
  | Digits (n : nat)          (* \d{n} *)
  | OneOf (cs : list ascii).  (* [cs] *)

Record piece : Type := { capture : bool; body : atom }.

Definition grp (a : atom) : piece := {| capture := true; body := a |}.
Definition raw (a : atom) : piece := {| capture := false; body := a |}.

Fixpoint match_lit (l s : string) : option string :=
  match l with
  | EmptyString => Some s
  | String c l' =>
      match s with
      | String d s' => if Ascii.eqb c d then match_lit l' s' else None
      | EmptyString => None
      end
  end.

Fixpoint match_digits (n : nat) (s : string) : option (string * string) :=
  match n with
  | O => Some (EmptyString, s)
  | S n' =>
      match s with
      | String c s' =>
          if is_digit c then
            match match_digits n' s' with
            | Some (d, r) => Some (String c d, r)
            | None => None
            end
          else None
      | EmptyString => None
      end
  end.

(** What an atom consumes at the head of [s], and what is left. *)
Definition match_atom (a : atom) (s : string) : option (string * string) :=
  match a with
  | Lit l => match match_lit l s with Some r => Some (l, r) | None => None end
  | Digits n => match_digits n s
  | OneOf cs =>
      match s with
      | String c s' =>
          if existsb (Ascii.eqb c) cs then Some (String c EmptyString, s') else None
      | EmptyString => None
      end
  end.

(** The groups captured by a sequence of pieces, and what is left. *)
Fixpoint match_pieces (ps : list piece) (s : string) : option (list string * string) :=
  match ps with
  | [] => Some ([], s)
  | p :: ps' =>
      match match_atom (body p) s with
      | Some (m, r) =>
          match match_pieces ps' r with
          | Some (gs, r') => Some (if capture p then m :: gs else gs, r')
          | None => None
          end
      | None => None
      end
  end.

(** [$] without [re.MULTILINE]: at the end of the string, or just before a
    line feed that ends the string. *)
Definition at_dollar (s : string) : bool :=
  str_eqb s "" || str_eqb s (String (ascii_of_N 10) EmptyString).

(** [re.compile('^' + ps + '$').match(s)], and [m.groups()] when it matches. *)
Definition re_match (ps : list piece) (s : string) : option (list string) :=
  match match_pieces ps s with
  | Some (gs, r) => if at_dollar r then Some gs else None
  | None => None
  end.

(** [^(<table>)_C(\d{2})_(\d{3})([EM])$] *)
Definition header_pattern (table : string) : list piece :=
  [ grp (Lit table); raw (Lit "_C"); grp (Digits 2); raw (Lit "_");
    grp (Digits 3); grp (OneOf ["E"%char; "M"%char]) ].

(** A field coordinate: (group, line, kind). *)
Abbreviation coord := (string * string * string)%type.

Fixpoint parse_headers_from (pat : list piece) (idx : nat) (headers : list string)
    (fieldmap : gmap coord nat) : gmap coord nat :=
  match headers with
  | [] => fieldmap
  | h :: hs =>
      parse_headers_from pat (S idx) hs
        match re_match pat h with
        | Some [_; group; line_no; kind] => <[(group, line_no, kind) := idx]> fieldmap
        | _ => fieldmap
        end
  end.

Definition parse_headers_for_table (table : string) (headers : list string)
    : gmap coord nat :=
  parse_headers_from (header_pattern table) 0 headers ∅.

(** ** Row identifiers *)

(** [l[i]] *)
Definition getitem {A : Type} (l : list A) (i : nat) : res A :=
  match l !! i with
  | Some x => Ok x
  | None => Raise IndexError
  end.

(** [headers.index(colname)], [None] on [ValueError]. *)
Fixpoint safe_idx (headers : list string) (colname : string) : option nat :=
  match headers with
  | [] => None
  | h :: hs => if str_eqb h colname then Some 0 else S <$> safe_idx hs colname
  end.

(** A cell of a row is a string or null. *)
Abbreviation cell := (option string).

Definition row_ids (headers : list string) (row : list cell) : res (cell * cell) :=
  geo_id ← match safe_idx headers "GEO_ID" with
           | Some gi => getitem row gi
           | None => Ok None
           end;
  name ← match safe_idx headers "NAME" with
         | Some ni => getitem row ni
         | None => Ok None
         end;
  Ok (geo_id, name).

(** ** Sorting *)

(** [sorted(l, key=key)] and [l.sort(key=key)]: ascending and stable.  [lt]
    is the strict order of the keys. *)
Section Sorting.
Context {A K : Type} (key : A -> K) (lt : K -> K -> bool).

(** [x] goes in front of the first element whose key is not below its own. *)
Fixpoint insert_sorted (x : A) (l : list A) : list A :=
  match l with
  | [] => [x]
  | y :: l' => if lt (key y) (key x) then y :: insert_sorted x l' else x :: y :: l'
  end.

Definition sorted_by (l : list A) : list A := foldr insert_sorted [] l.
End Sorting.

(** [<] on a pair of strings, as Python compares tuples. *)
Definition pair_ltb (a b : string * string) : bool :=
  String.ltb a.1 b.1 || str_eqb a.1 b.1 && String.ltb a.2 b.2.

(** ** Tidy records and schemas *)

(** A tidy record: a [dict] from field name to value. *)
Abbreviation record := (gmap string pyval).

(** [{k1: e1, k2: e2, ...}]: the items are evaluated in order, the first
    exception ends the evaluation, a repeated key keeps its last value. *)
Fixpoint dict_literal (items : list (string * res pyval)) (d : record) : res record :=
  match items with
  | [] => Ok d
  | (k, e) :: items' => v ← e; dict_literal items' (<[k := v]> d)
  end.

(** The value getter handed to a builder: [getv group kind ln]. *)
Abbreviation getter := (string -> string -> string -> res pyval).

Abbreviation builder_t := (cell -> cell -> string -> getter -> res record).

Record schema : Type := { fieldnames : list string; builder : builder_t }.

Definition DEFAULT_FIELDNAMES : list string :=
  [ "GEO_ID"; "NAME"; "line_no"; "label";
    "total"; "total_moe"; "total_pct"; "total_pct_moe";
    "male"; "male_moe"; "male_pct"; "male_pct_moe";
    "female"; "female_moe"; "female_pct"; "female_pct_moe" ].

Definition default_builder : builder_t := fun geo_id name ln getv =>
  dict_literal
    [ ("GEO_ID", Ok (of_opt_str geo_id));
      ("NAME", Ok (of_opt_str name));
      ("line_no", Ok (PyStr ln));
      ("total", getv "01" "E" ln);
      ("total_moe", getv "01" "M" ln);
      ("total_pct", getv "02" "E" ln);
      ("total_pct_moe", getv "02" "M" ln);
      ("male", getv "03" "E" ln);
      ("male_moe", getv "03" "M" ln);
      ("male_pct", getv "04" "E" ln);
      ("male_pct_moe", getv "04" "M" ln);
      ("female", getv "05" "E" ln);
      ("female_moe", getv "05" "M" ln);
      ("female_pct", getv "06" "E" ln);
      ("female_pct_moe", getv "06" "M" ln) ] ∅.

Definition S1701 : schema :=
  {| fieldnames :=
       [ "GEO_ID"; "NAME"; "line_no"; "label";
         "total"; "total_moe";
         "below_pl"; "below_pl_moe";
         "below_pl_pct"; "below_pl_pct_moe" ];
     builder := fun geo_id name ln getv =>
       dict_literal
         [ ("GEO_ID", Ok (of_opt_str geo_id));
           ("NAME", Ok (of_opt_str name));
           ("line_no", Ok (PyStr ln));
           ("total", getv "01" "E" ln);
           ("total_moe", getv "01" "M" ln);
           ("below_pl", getv "02" "E" ln);
           ("below_pl_moe", getv "02" "M" ln);
           ("below_pl_pct", getv "03" "E" ln);
           ("below_pl_pct_moe", getv "03" "M" ln) ] ∅ |}.

Definition S1901 : schema :=
  {| fieldnames :=
       [ "GEO_ID"; "NAME"; "line_no"; "label";
         "households"; "households_moe";
         "families"; "families_moe";
         "mc_families"; "mc_families_moe";
         "nf_households"; "nf_households_moe" ];
     builder := fun geo_id name ln getv =>
       dict_literal
         [ ("GEO_ID", Ok (of_opt_str geo_id));
           ("NAME", Ok (of_opt_str name));
           ("line_no", Ok (PyStr ln));
           ("households", getv "01" "E" ln);
           ("households_moe", getv "01" "M" ln);
           ("families", getv "02" "E" ln);
           ("families_moe", getv "02" "M" ln);
           ("mc_families", getv "03" "E" ln);
           ("mc_families_moe", getv "03" "M" ln);
           ("nf_households", getv "04" "E" ln);
           ("nf_households_moe", getv "04" "M" ln) ] ∅ |}.

Definition S2301 : schema :=
  {| fieldnames :=
       [ "GEO_ID"; "NAME"; "line_no"; "label";
         "total"; "total_moe";
         "lfp_rate"; "lfp_rate_moe";
         "ep_ratio"; "ep_ratio_moe";
         "unemployment_rate"; "unemployment_rate_moe" ];
     builder := fun geo_id name ln getv =>
       dict_literal
         [ ("GEO_ID", Ok (of_opt_str geo_id));
           ("NAME", Ok (of_opt_str name));
           ("line_no", Ok (PyStr ln));
           ("total", getv "01" "E" ln);
           ("total_moe", getv "01" "M" ln);
           ("lfp_rate", getv "02" "E" ln);
           ("lfp_rate_moe", getv "02" "M" ln);
           ("ep_ratio", getv "03" "E" ln);
           ("ep_ratio_moe", getv "03" "M" ln);
           ("unemployment_rate", getv "04" "E" ln);
           ("unemployment_rate_moe", getv "04" "M" ln) ] ∅ |}.

Definition S2502 : schema :=
  {| fieldnames :=
       [ "GEO_ID"; "NAME"; "line_no"; "label";
         "oc_units"; "oc_units_moe";
         "oc_units_pct"; "oc_units_pct_moe";
         "ooh_units"; "ooh_units_moe";
         "ooh_units_pct"; "ooh_units_pct_moe";
         "roh_units"; "roh_units_moe";
         "roh_units_pct"; "roh_units_pct_moe" ];
     builder := fun geo_id name ln getv =>
       dict_literal
         [ ("GEO_ID", Ok (of_opt_str geo_id));
           ("NAME", Ok (of_opt_str name));
           ("line_no", Ok (PyStr ln));
           ("oc_units", getv "01" "E" ln);
           ("oc_units_moe", getv "01" "M" ln);
           ("oc_units_pct", getv "02" "E" ln);
           ("oc_units_pct_moe", getv "02" "M" ln);
           ("ooh_units", getv "03" "E" ln);
           ("ooh_units_moe", getv "03" "M" ln);
           ("ooh_units_pct", getv "04" "E" ln);
           ("ooh_units_pct_moe", getv "04" "M" ln);
           ("roh_units", getv "05" "E" ln);
           ("roh_units_moe", getv "05" "M" ln);
           ("roh_units_pct", getv "06" "E" ln);
           ("roh_units_pct_moe", getv "06" "M" ln) ] ∅ |}.

Definition S2701 : schema :=
  {| fieldnames :=
       [ "GEO_ID"; "NAME"; "line_no"; "label"; "total"; "total_moe";
         "insured"; "insured_moe"; "insured_pct"; "insured_pct_moe";
         "uninsured"; "uninsured_moe"; "uninsured_pct"; "uninsured_pct_moe" ];
     builder := fun geo_id name ln getv =>
       dict_literal
         [ ("GEO_ID", Ok (of_opt_str geo_id));
           ("NAME", Ok (of_opt_str name));
           ("line_no", Ok (PyStr ln));
           ("total", getv "01" "E" ln);
           ("total_moe", getv "01" "M" ln);
           ("insured", getv "02" "E" ln);
           ("insured_moe", getv "02" "M" ln);
           ("insured_pct", getv "03" "E" ln);
           ("insured_pct_moe", getv "03" "M" ln);
           ("uninsured", getv "04" "E" ln);
           ("uninsured_moe", getv "04" "M" ln);
           ("uninsured_pct", getv "05" "E" ln);
           ("uninsured_pct_moe", getv "05" "M" ln) ] ∅ |}.

Definition S2801 : schema :=
  {| fieldnames :=
       [ "GEO_ID"; "NAME"; "line_no"; "label";
         "total"; "total_moe";
         "total_pct"; "total_pct_moe" ];
     builder := fun geo_id name ln getv =>
       dict_literal
         [ ("GEO_ID", Ok (of_opt_str geo_id));
           ("NAME", Ok (of_opt_str name));
           ("line_no", Ok (PyStr ln));
           ("total", getv "01" "E" ln);
           ("total_moe", getv "01" "M" ln);
           ("total_pct", getv "02" "E" ln);
           ("total_pct_moe", getv "02" "M" ln) ] ∅ |}.

Definition TABLE_SCHEMAS : gmap string schema :=
  <["S2801" := S2801]> (<["S2701" := S2701]> (<["S2502" := S2502]>
  (<["S2301" := S2301]> (<["S1901" := S1901]> (<["S1701" := S1701]> ∅))))).

Definition default_schema : schema :=
  {| fieldnames := DEFAULT_FIELDNAMES; builder := default_builder |}.

(** [TABLE_SCHEMAS.get(table)], with the fallback of [build_records_for_row]. *)
Definition pick_schema (table : string) : schema :=
  match TABLE_SCHEMAS !! table with
  | Some sch => sch
  | None => default_schema
  end.

(** ** Record assembly *)

Definition ID_FIELDS : list string := [ "GEO_ID"; "NAME"; "line_no"; "label" ].

(** [any(k in rec and rec[k] is not None for k in rec.keys() if k not in ID_FIELDS)] *)
Definition keep (rec : record) : bool :=
  existsb (fun kv => negb (str_in kv.1 ID_FIELDS) && negb (is_none kv.2))
          (map_to_list rec).

(** [sorted({ln for (_, ln, _) in fieldmap.keys()})] *)
Definition discover_line_nos (fieldmap : gmap coord nat) : list string :=
  sorted_by id String.ltb
    (elements (set_map (fun k : coord => k.1.2) (dom fieldmap) : gset string)).

Definition getv_of (fieldmap : gmap coord nat) (row : list cell) : getter :=
  fun group kind ln =>
    match fieldmap !! (group, ln, kind) with
    | Some col => x ← getitem row col; clean_num x
    | None => Ok PyNone
    end.

(** The loop over the line numbers. *)
Fixpoint build_loop (build : string -> res record) (line_nos : list string)
    (records : list record) : res (list record) :=
  match line_nos with
  | [] => Ok records
  | ln :: rest =>
      rec ← build ln;
      build_loop build rest (if keep rec then records ++ [rec] else records)
  end.

Definition build_records_for_row (table : string) (headers : list string)
    (row : list cell) : res (list record * list string) :=
  ids ← row_ids headers row;
  let fieldmap := parse_headers_for_table table headers in
  let line_nos := discover_line_nos fieldmap in
  let getv := getv_of fieldmap row in
  let sch := pick_schema table in
  records ← build_loop (fun ln => builder sch ids.1 ids.2 ln getv) line_nos [];
  Ok (records, fieldnames sch).

(** ** Labels *)

Fixpoint zeros (n : nat) : string :=
  match n with
  | O => EmptyString
  | S n' => String "0" (zeros n')
  end.

(** [s.zfill(width)]: zeros on the left up to [width], after a leading sign. *)
Definition zfill (width : nat) (s : string) : string :=
  let n := String.length s in
  if (width <=? n)%nat then s
  else
    match s with
    | String c s' =>
        if Ascii.eqb c "+" || Ascii.eqb c "-"
        then String c (zeros (width - n) +:+ s')
        else zeros (width - n) +:+ s
    | EmptyString => zeros (width - n)
    end.

(** [bool(v)] *)
Definition truthy (v : pyval) : bool :=
  match v with
  | PyNone => false
  | PyInt z => negb (z =? 0)%Z
  | PyFloat f => negb (SFeqb f (S754_zero false))
  | PyStr s => negb (is_empty s)
  end.

(** [d.get(k) or ""] *)
Definition get_or_empty (d : record) (k : string) : pyval :=
  match d !! k with
  | Some v => if truthy v then v else PyStr ""
  | None => PyStr ""
  end.

(** [(row.get(col) or "").strip()] on a row of the label file *)
Definition field_or_empty (c : cell) : string :=
  match c with
  | Some s => strip s
  | None => strip ""
  end.

(** The rows that [csv.DictReader] yields, as [(row.get("line_no"),
    row.get("label"))]. *)
Abbreviation label_row := (cell * cell)%type.

Fixpoint load_rows (rows : list label_row) (mapping : gmap string string)
    : gmap string string :=
  match rows with
  | [] => mapping
  | (c_ln, c_label) :: rest =>
      let ln := field_or_empty c_ln in
      if is_empty ln then load_rows rest mapping
      else load_rows rest (<[zfill 3 ln := field_or_empty c_label]> mapping)
  end.

(** [load_label_map_for_table]; [None] stands for [FileNotFoundError]. *)
Definition load_label_map_for_table (file : option (list label_row)) : gmap string string :=
  match file with
  | Some rows => load_rows rows ∅
  | None => ∅
  end.

(** ** The records of one unit as mutable objects

    [main] keeps the dicts that [build_records_for_row] returns and writes
    to them in place.  A store holds the objects by reference and logs every
    [rec[k] = v] executed on an object after its creation. *)

Abbreviation ref := nat.

Record store : Type := { objs : list record; writes : list (ref * string) }.

Definition empty_store : store := {| objs := []; writes := [] |}.

Definition alloc (r : record) (σ : store) : ref * store :=
  (length (objs σ), {| objs := objs σ ++ [r]; writes := writes σ |}).

Fixpoint alloc_all (rs : list record) (σ : store) : list ref * store :=
  match rs with
  | [] => ([], σ)
  | r :: rs' =>
      let '(p, σ1) := alloc r σ in
      let '(ps, σ2) := alloc_all rs' σ1 in
      (p :: ps, σ2)
  end.

Definition deref (σ : store) (p : ref) : record := default ∅ (objs σ !! p).

(** [rec[k] = v] *)
Definition setitem (p : ref) (k : string) (v : pyval) (σ : store) : store :=
  {| objs := alter (fun d : record => <[k := v]> d) p (objs σ);
     writes := writes σ ++ [(p, k)] |}.

(** ** Label merger *)

(** [(rec.get("line_no") or "").zfill(3)]; only a [str] has [zfill]. *)
Definition label_key (d : record) : res string :=
  match get_or_empty d "line_no" with
  | PyStr s => Ok (zfill 3 s)
  | _ => Raise AttributeError
  end.

(** The two statements of the loop body [for rec in recs]. *)
Definition attach_label (label_map : gmap string string) (p : ref) (σ : store)
    : res store :=
  ln ← label_key (deref σ p);
  Ok (setitem p "label" (PyStr (default "" (label_map !! ln))) σ).

Fixpoint attach_labels (label_map : gmap string string) (recs : list ref)
    (σ : store) : res store :=
  match recs with
  | [] => Ok σ
  | p :: rest => σ1 ← attach_label label_map p σ; attach_labels label_map rest σ1
  end.

(** ** Pipeline driver: one (table, tract) unit *)

(** [(d.get("GEO_ID") or "", d.get("line_no") or "")] when both are strings.
    The builders store a string or [None] in these fields, so no other key
    arises; the model gives [TypeError] for one, which is what Python raises
    when it compares a string with a number. *)
Definition sort_key (d : record) : option (string * string) :=
  match get_or_empty d "GEO_ID", get_or_empty d "line_no" with
  | PyStr g, PyStr l => Some (g, l)
  | _, _ => None
  end.

Definition key_of (σ : store) (p : ref) : string * string :=
  default (EmptyString, EmptyString) (sort_key (deref σ p)).

(** [all_records.sort(key=lambda d: (d.get("GEO_ID") or "", d.get("line_no") or ""))] *)
Definition sort_records (σ : store) (all_records : list ref) : res (list ref) :=
  if forallb (fun p => bool_decide (is_Some (sort_key (deref σ p)))) all_records
  then Ok (sorted_by (key_of σ) pair_ltb all_records)
  else Raise TypeError.

(** The loop [for r in rows] of [main]. *)
Fixpoint rows_loop (table : string) (label_map : gmap string string)
    (headers : list string) (rows : list (list cell))
    (all_records : list ref) (out_fieldnames : option (list string)) (σ : store)
    : res (list ref * option (list string) * store) :=
  match rows with
  | [] => Ok (all_records, out_fieldnames, σ)
  | r :: rows' =>
      built ← build_records_for_row table headers r;
      let '(recs, σ1) := alloc_all built.1 σ in
      σ2 ← attach_labels label_map recs σ1;
      rows_loop table label_map headers rows' (all_records ++ recs)
        (match out_fieldnames with None => Some built.2 | Some f => Some f end) σ2
  end.

(** What [write_tidy_csv] writes: the header and one row of values per
    record, [rec.get(k)] for each [k] of the header. *)
Record csv : Type := { csv_header : list string; csv_rows : list (list pyval) }.

Definition write_tidy_csv (σ : store) (records : list ref) (fields : list string) : csv :=
  {| csv_header := fields;
     csv_rows := map (fun p => map (fun k => default PyNone (deref σ p !! k)) fields) records |}.

Record unit_result : Type :=
  { final_store : store; ordered : list ref; written : csv }.

(** The body of the loop [for tract in args.tracts], after the fetch. *)
Definition process_unit (table : string) (label_map : gmap string string)
    (headers : list string) (rows : list (list cell)) : res unit_result :=
  acc ← rows_loop table label_map headers rows [] None empty_store;
  let '(all_records, out_fieldnames, σ) := acc in
  let out_fieldnames :=
    match out_fieldnames with
    | Some f => f
    | None => fieldnames (pick_schema table)
    end in
  sorted ← sort_records σ all_records;
  Ok {| final_store := σ; ordered := sorted;
        written := write_tidy_csv σ sorted out_fieldnames |}.

(** ** Fetching, with retries *)

(** A JSON document, as [resp.json()] returns it. *)
Inductive json : Type :=
  | JNull
  | JBool (b : bool)
  | JInt (z : Z)
  | JFloat (v : spec_float)
  | JStr (s : string)
  | JList (l : list json)
  | JObj (o : list (string * json)).

(** What [session.get] does: it raises, or returns a response with a status
    code and a body, which is a JSON document or not. *)
Inductive get_outcome : Type :=
  | NetworkError
  | Response (status : Z) (body : option json).

(** What the program does to the world.  [WriteCsv] is a file written to
    the end; [BrokenCsv] is a file that [open] created or emptied and that a
    failed write left as it was at that moment. *)
Inductive event : Type :=
  | Get (url get ucgid : string)
  | Sleep (seconds : spec_float)
  | WriteCsv (path : string) (content : csv)
  | BrokenCsv (path : string)
  | Print (table tract path : string) (rows : nat).

(** The world outside: how many requests were sent, and what happened. *)
Record world : Type := { requests : nat; trace : list event }.

Definition start : world := {| requests := 0; trace := [] |}.

(** The moment of a world: the number of things that have happened. *)
Definition clock (w : world) : nat := length (trace w).

Definition log (e : event) (w : world) : world :=
  {| requests := requests w; trace := trace w ++ [e] |}.

(** The network answers the [n]-th request with [net n]. *)
Definition session_get (net : nat -> get_outcome) (url get ucgid : string)
    (w : world) : get_outcome * world :=
  (net (requests w),
   {| requests := S (requests w); trace := trace w ++ [Get url get ucgid] |}).

(** Lines 97-102, the [try] block of one attempt: [raise_for_status] raises
    on the status codes 400 to 599, [resp.json()] on a body that is not
    JSON, and the shape test on anything but a non-empty list whose first
    element is a list. *)
Definition check_response (o : get_outcome) : fetch_failure + list json :=
  match o with
  | NetworkError => inl ConnectionError
  | Response status body =>
      if ((400 <=? status) && (status <? 600))%Z then inl (HTTPError status)
      else
        match body with
        | None => inl JSONDecodeError
        | Some (JList (JList h :: rest)) => inr (JList h :: rest)
        | Some _ => inl UnexpectedFormat
        end
  end.

(** [time.sleep(d)] refuses a negative or undefined duration.  (It also
    refuses durations beyond the range of the system timer, centuries long;
    the model stops at infinity.) *)
Definition sleep (d : spec_float) (w : world) : res world :=
  match d with
  | S754_nan => Raise ValueError
  | S754_infinity true => Raise ValueError
  | S754_finite true _ _ => Raise ValueError
  | S754_infinity false => Raise OverflowError
  | _ => Ok (log (Sleep d) w)
  end.

(** [backoff * (attempt + 1)] *)
Definition delay (backoff : spec_float) (attempt : Z) : res spec_float :=
  n ← py_float_of_int (attempt + 1);
  Ok (SFmul prec emax backoff n).

Definition API_BASE : string := "https://api.census.gov/data".

Section Fetch.
Context (net : nat -> get_outcome).
Context (year product table tract : string).

Definition url : string := API_BASE +:+ "/" +:+ year +:+ "/acs/" +:+ product +:+ "/subject".
Definition param_get : string := "group(" +:+ table +:+ ")".
Definition param_ucgid : string := "1400000US" +:+ tract.

(** [for attempt in range(retries)], with [left] iterations to go. *)
Fixpoint fetch_attempts (backoff : spec_float) (left : nat) (attempt : Z)
    (last_err : option fetch_failure) (w : world) : res (list json) * world :=
  match left with
  | O => (Raise (RuntimeError table tract last_err), w)
  | S left' =>
      let '(o, w1) := session_get net url param_get param_ucgid w in
      match check_response o with
      | inr data => (Ok data, w1)
      | inl e =>
          match d ← delay backoff attempt; sleep d w1 with
          | Ok w2 => fetch_attempts backoff left' (attempt + 1) (Some e) w2
          | Raise x => (Raise x, w1)
          end
      end
  end.

Definition fetch_group_subject (retries : Z) (backoff : spec_float) (w : world)
    : res (list json) * world :=
  fetch_attempts backoff (Z.to_nat retries) 0 None w.
End Fetch.

(** The defaults [retries: int = 3] and [backoff: float = 0.8]. *)
Definition default_retries : Z := 3.
Definition default_backoff : spec_float := float_of_decimal false 8 (-1).

(** ** Main *)

(** [main] declares the response a [List[List[str]]] and checks nothing
    more than [fetch_group_subject] did.  The model follows it on the
    responses of that type, with null for a cell, which is what the API
    sends, and with null for a header, which the code reads as [h or ""]
    and which, like [""], is neither ["GEO_ID"] nor ["NAME"].  On any other
    JSON value [as_table] is [None]: the code goes on with it ([str(x)] in
    [clean_num], the comparison of mixed keys in the sort, [str] again in
    the writer) and the model does not say how. *)
Definition as_header (j : json) : option string :=
  match j with JStr s => Some s | JNull => Some EmptyString | _ => None end.

Definition as_cell (j : json) : option cell :=
  match j with JStr s => Some (Some s) | JNull => Some None | _ => None end.

Definition as_headers (j : json) : option (list string) :=
  match j with JList l => mapM as_header l | _ => None end.

Definition as_row (j : json) : option (list cell) :=
  match j with JList l => mapM as_cell l | _ => None end.

(** [headers = data[0]; rows = data[1:]] at the declared type. *)
Definition as_table (data : list json) : option (list string * list (list cell)) :=
  match data with
  | h :: rs => hs ← as_headers h; rows ← mapM as_row rs; Some (hs, rows)
  | [] => None
  end.

(** What [open(path, "w")] and the writes that follow it do.  The program
    does not create the directory [output]: where it is missing [open]
    raises [FileNotFoundError], an [OSError], and there is no file.  Once
    the file is open a write can still fail, with [OSError] (in UTF-8 every
    character of the model can be written). *)
Inductive write_outcome : Type :=
  | Written
  | OpenFails
  | WriteFails.

(** What [print] does with the line that ends a unit, which starts with a
    check mark: a standard output whose encoding lacks that character
    raises [UnicodeEncodeError], one that is closed raises [OSError]. *)
Inductive print_outcome : Type :=
  | Printed
  | CannotEncode
  | StdoutClosed.

Record args : Type :=
  { year : string; product : string; tables : list string; tracts : list string }.

Section Main.
Context (net : nat -> get_outcome).
(** The label file of a table, if there is one. *)
Context (label_file : string -> option (list label_row)).
(** The file system and the standard output, asked at the moment of the
    call. *)
Context (disk : nat -> write_outcome) (stdout : nat -> print_outcome).
Context (a : args).

(** The body of [for tract in args.tracts]; [None] on a response outside
    the declared type. *)
Definition do_unit (table : string) (label_map : gmap string string)
    (tract : string) (w : world) : option (res unit * world) :=
  let '(fetched, w1) :=
    fetch_group_subject net (year a) (product a) table tract
      default_retries default_backoff w in
  match fetched with
  | Raise e => Some (Raise e, w1)
  | Ok data =>
      match as_table data with
      | None => None
      | Some (headers, rows) =>
          match process_unit table label_map headers rows with
          | Raise e => Some (Raise e, w1)
          | Ok u =>
              let out_path := "output/" +:+ tract +:+ "_" +:+ table +:+ ".csv" in
              match disk (clock w1) with
              | OpenFails => Some (Raise OSError, w1)
              | WriteFails => Some (Raise OSError, log (BrokenCsv out_path) w1)
              | Written =>
                  let w2 := log (WriteCsv out_path (written u)) w1 in
                  match stdout (clock w2) with
                  | Printed =>
                      Some (Ok (),
                            log (Print table tract out_path (length (ordered u))) w2)
                  | CannotEncode => Some (Raise UnicodeEncodeError, w2)
                  | StdoutClosed => Some (Raise OSError, w2)
                  end
              end
          end
      end
  end.

Fixpoint tracts_loop (table : string) (label_map : gmap string string)
    (ts : list string) (w : world) : option (res unit * world) :=
  match ts with
  | [] => Some (Ok (), w)
  | tract :: ts' =>
      match do_unit table label_map tract w with
      | Some (Ok _, w1) => tracts_loop table label_map ts' w1
      | Some (Raise e, w1) => Some (Raise e, w1)
      | None => None
      end
  end.

Fixpoint tables_loop (tbls : list string) (w : world) : option (res unit * world) :=
  match tbls with
  | [] => Some (Ok (), w)
  | table :: tbls' =>
      let label_map := load_label_map_for_table (label_file table) in
      match tracts_loop table label_map (tracts a) w with
      | Some (Ok _, w1) => tables_loop tbls' w1
      | Some (Raise e, w1) => Some (Raise e, w1)
      | None => None
      end
  end.

Definition main : option (res unit * world) := tables_loop (tables a) start.
End Main.

(** ** Vocabulary of the statements *)

(** A float that is a number: neither infinite nor NaN. *)
Definition is_number (v : spec_float) : bool :=
  match v with
  | S754_zero _ | S754_finite _ _ _ => true
  | S754_infinity _ | S754_nan => false
  end.

(** The integer part of a float that is a number. *)
Definition trunc (v : spec_float) : Z :=
  match py_int v with
  | Ok i => i
  | Raise _ => 0
  end.

(** The test [abs(v - int(v)) < 1e-9] on a float that is a number. *)
Definition near_integer (v : spec_float) : bool :=
  SFltb (SFabs (SFsub prec emax v (float_of_Z (trunc v)))) eps.

(** The numbers that the suppression codes spell. *)
Definition SENTINELS : list Z := [ -555555555; -888888888; -666666666; -222222222 ]%Z.

Fixpoint all_digits (s : string) : bool :=
  match s with
  | EmptyString => true
  | String c s' => is_digit c && all_digits s'
  end.

(** A coordinate of the naming convention: two digits, three digits and a
    kind letter. *)
Definition is_coord (c : coord) : Prop :=
  String.length c.1.1 = 2 ∧ all_digits c.1.1 = true ∧
  String.length c.1.2 = 3 ∧ all_digits c.1.2 = true ∧
  (c.2 = "E" ∨ c.2 = "M").

(** The header [<table>_C<group>_<line><kind>]. *)
Definition header_name (table : string) (c : coord) : string :=
  table +:+ "_C" +:+ c.1.1 +:+ "_" +:+ c.1.2 +:+ c.2.

Definition LF : string := String (ascii_of_N 10) EmptyString.

(** The coordinate that [parse_headers_for_table] reads off one header. *)
Definition header_coord (table h : string) : option coord :=
  match re_match (header_pattern table) h with
  | Some [_; group; line_no; kind] => Some (group, line_no, kind)
  | _ => None
  end.

Definition ends_with_lf (h : string) : Prop := ∃ p, h = p +:+ LF.

(** The numeric fields of a schema with the coordinates they are read from:
    [(field, (group, kind))], in the order of the builder. *)
Abbreviation columns := (list (string * (string * string))).

Definition DEFAULT_COLUMNS : columns :=
  [ ("total", ("01", "E")); ("total_moe", ("01", "M"));
    ("total_pct", ("02", "E")); ("total_pct_moe", ("02", "M"));
    ("male", ("03", "E")); ("male_moe", ("03", "M"));
    ("male_pct", ("04", "E")); ("male_pct_moe", ("04", "M"));
    ("female", ("05", "E")); ("female_moe", ("05", "M"));
    ("female_pct", ("06", "E")); ("female_pct_moe", ("06", "M")) ].

Definition columns_of (table : string) : columns :=
  if str_eqb table "S1701" then
    [ ("total", ("01", "E")); ("total_moe", ("01", "M"));
      ("below_pl", ("02", "E")); ("below_pl_moe", ("02", "M"));
      ("below_pl_pct", ("03", "E")); ("below_pl_pct_moe", ("03", "M")) ]
  else if str_eqb table "S1901" then
    [ ("households", ("01", "E")); ("households_moe", ("01", "M"));
      ("families", ("02", "E")); ("families_moe", ("02", "M"));
      ("mc_families", ("03", "E")); ("mc_families_moe", ("03", "M"));
      ("nf_households", ("04", "E")); ("nf_households_moe", ("04", "M")) ]
  else if str_eqb table "S2301" then
    [ ("total", ("01", "E")); ("total_moe", ("01", "M"));
      ("lfp_rate", ("02", "E")); ("lfp_rate_moe", ("02", "M"));
      ("ep_ratio", ("03", "E")); ("ep_ratio_moe", ("03", "M"));
      ("unemployment_rate", ("04", "E")); ("unemployment_rate_moe", ("04", "M")) ]
  else if str_eqb table "S2502" then
    [ ("oc_units", ("01", "E")); ("oc_units_moe", ("01", "M"));
      ("oc_units_pct", ("02", "E")); ("oc_units_pct_moe", ("02", "M"));
      ("ooh_units", ("03", "E")); ("ooh_units_moe", ("03", "M"));
      ("ooh_units_pct", ("04", "E")); ("ooh_units_pct_moe", ("04", "M"));
      ("roh_units", ("05", "E")); ("roh_units_moe", ("05", "M"));
      ("roh_units_pct", ("06", "E")); ("roh_units_pct_moe", ("06", "M")) ]
  else if str_eqb table "S2701" then
    [ ("total", ("01", "E")); ("total_moe", ("01", "M"));
      ("insured", ("02", "E")); ("insured_moe", ("02", "M"));
      ("insured_pct", ("03", "E")); ("insured_pct_moe", ("03", "M"));
      ("uninsured", ("04", "E")); ("uninsured_moe", ("04", "M"));
      ("uninsured_pct", ("05", "E")); ("uninsured_pct_moe", ("05", "M")) ]
  else if str_eqb table "S2801" then
    [ ("total", ("01", "E")); ("total_moe", ("01", "M"));
      ("total_pct", ("02", "E")); ("total_pct_moe", ("02", "M")) ]
  else DEFAULT_COLUMNS.

(** The items of the dict literal of a builder. *)
Definition items_of (geo_id name : cell) (ln : string) (getv : getter)
    (cols : columns) : list (string * res pyval) :=
  [ ("GEO_ID", Ok (of_opt_str geo_id));
    ("NAME", Ok (of_opt_str name));
    ("line_no", Ok (PyStr ln)) ]
  ++ map (fun c => (c.1, getv c.2.1 c.2.2 ln)) cols.

(** A record holds a value that is not [None] in a field that is not an
    identifier. *)
Definition has_value (rec : record) : Prop :=
  ∃ k v, rec !! k = Some v ∧ (k ∉ ID_FIELDS) ∧ v ≠ PyNone.

(** The candidate records of a row: one per discovered line number. *)
Definition candidates (table : string) (headers : list string) (row : list cell)
    (ids : cell * cell) (cands : list record) : Prop :=
  let fieldmap := parse_headers_for_table table headers in
  Forall2
    (fun ln rec =>
       builder (pick_schema table) ids.1 ids.2 ln (getv_of fieldmap row) = Ok rec)
    (discover_line_nos fieldmap) cands.

(** The record of the default schema at line [ln] whose only value is
    [total]. *)
Definition only_total (rec : record) (ln : string) (v : pyval) : Prop :=
  rec !! "line_no" = Some (PyStr ln) ∧
  rec !! "total" = Some v ∧
  ∀ f, f ∈ (DEFAULT_COLUMNS.*1) → f ≠ "total" → rec !! f = Some PyNone.

Definition at_line (ln : string) (rec : record) : Prop :=
  rec !! "line_no" = Some (PyStr ln).

#[export] Instance at_line_dec (ln : string) (rec : record) : Decision (at_line ln rec).
Proof. unfold at_line. apply _. Defined.

(** The record with the label that the merger gives it. *)
Definition with_label (label_map : gmap string string) (rec : record) : record :=
  match label_key rec with
  | Ok ln => <["label" := PyStr (default "" (label_map !! ln))]> rec
  | Raise _ => rec
  end.

(** The log of a store in which each of the first [n] objects was written
    once, at its label. *)
Definition label_writes (from n : nat) : list (ref * string) :=
  map (fun p => (p, "label")) (seq from n).

(** The order of the sort keys: not above. *)
Definition key_le (a b : string * string) : Prop := pair_ltb b a = false.

(** The records that the rows of a unit give, row by row. *)
Definition built_from (table : string) (headers : list string)
    (rows : list (list cell)) (built : list (list record)) : Prop :=
  Forall2 (fun row recs => build_records_for_row table headers row
                           = Ok (recs, fieldnames (pick_schema table)))
          rows built.

(** A record as some builder of the table's schema makes it. *)
Definition assembled (table : string) (rec : record) : Prop :=
  ∃ geo_id name ln getv, builder (pick_schema table) geo_id name ln getv = Ok rec.

(** The store of a unit once its records, created in this order, have
    their labels. *)
Definition labelled_store (label_map : gmap string string) (created : list record)
    : store :=
  {| objs := map (with_label label_map) created;
     writes := label_writes 0 (length created) |}.

(** [a] may stand before [b] in a list sorted by [key]: the key of [b] is
    not below the key of [a]. *)
Definition before {A K : Type} (key : A -> K) (lt : K -> K -> bool) (a b : A) : Prop :=
  lt (key b) (key a) = false.

(** A JSON document that is a non-empty list of lists. *)
Definition list_of_lists (j : json) : Prop :=
  ∃ l, j = JList l ∧ l ≠ [] ∧ Forall (fun x => ∃ r, x = JList r) l.

(** What [check_response] lets through: a non-empty list whose first
    element is a list. *)
Definition list_headed_by_list (j : json) : Prop :=
  ∃ h rest, j = JList (JList h :: rest).

(** The failure of an attempt, by the kind of outcome. *)
Definition failure_of (o : get_outcome) (e : fetch_failure) : Prop :=
  match o with
  | NetworkError => e = ConnectionError
  | Response status body =>
      if decide (400 ≤ status < 600)%Z then e = HTTPError status
      else
        match body with
        | None => e = JSONDecodeError
        | Some j => ¬ list_headed_by_list j ∧ e = UnexpectedFormat
        end
  end.

(** The requests and the pauses of attempts that all fail, with the pause
    after each. *)
Definition retry_trace (url get ucgid : string) (pauses : list spec_float)
    : list event :=
  flat_map (fun d => [Get url get ucgid; Sleep d]) pauses.

(** A pause that [time.sleep] accepts. *)
Definition pause_ok (d : spec_float) : Prop :=
  match d with
  | S754_zero _ | S754_finite false _ _ => True
  | _ => False
  end.

(** The floats that print as 0.8, 1.6 and 2.4000000000000004. *)
Definition f_0_8 : spec_float := S754_finite false 7205759403792794 (-53).
Definition f_1_6 : spec_float := S754_finite false 7205759403792794 (-52).
Definition f_2_4000000000000004 : spec_float :=
  S754_finite false 5404319552844596 (-51).

(** A float within the format: at most 53 digits, exponent at most 971. *)
Definition in_format (v : spec_float) : Prop :=
  match v with
  | S754_finite _ m e => (Zpos (digits2_pos m) ≤ 53 ∧ e ≤ 971)%Z
  | _ => True
  end.

(** ** Vocabulary of the further properties *)

(** [c] stands at position [i] of [l] and nowhere before. *)
Definition first_at (l : list string) (c : string) (i : nat) : Prop :=
  l !! i = Some c ∧ ∀ j, j < i → l !! j ≠ Some c.

(** The identifier cell that [row_ids] reads under the header [c]. *)
Definition id_cell (headers : list string) (row : list cell) (c : string)
    (x : cell) : Prop :=
  ((c ∉ headers) ∧ x = None) ∨ (∃ i, first_at headers c i ∧ row !! i = Some x).

Fixpoint all_space (s : string) : bool :=
  match s with
  | EmptyString => true
  | String c s' => isspace c && all_space s'
  end.

(** The value of a numeric field: the normalised cell under the header of
    the coordinate, and [None] when the table has no such header. *)
Definition decoded (fieldmap : gmap coord nat) (row : list cell)
    (group kind ln : string) (v : pyval) : Prop :=
  match fieldmap !! (group, ln, kind) with
  | Some col => ∃ x, row !! col = Some x ∧ clean_num x = Ok v
  | None => v = PyNone
  end.

(** The entry that a row of the label file contributes, if any. *)
Definition label_entry (r : label_row) : option (string * string) :=
  let ln := field_or_empty r.1 in
  if is_empty ln then None else Some (zfill 3 ln, field_or_empty r.2).

(** The paths of the files written, in the order of the writes. *)
Definition written_paths (t : list event) : list string :=
  omap (fun e => match e with WriteCsv path _ => Some path | _ => None end) t.


(** The (table, tract) units of a run, tables first. *)
Definition units (a : args) : list (string * string) :=
  table ← tables a; tract ← tracts a; [(table, tract)].


(** The row of a record under a header: its value at each column. *)
Definition row_of (fields : list string) (rec : record) : list pyval :=
  map (fun k => default PyNone (rec !! k)) fields.

(** The path of the file of a unit. *)
Definition out_path (u : string * string) : string :=
  "output/" +:+ u.2 +:+ "_" +:+ u.1 +:+ ".csv".

(** The files that a failed write left behind, in their order. *)
Definition broken_paths (t : list event) : list string :=
  omap (fun e => match e with BrokenCsv path => Some path | _ => None end) t.

(** A field of a record as the sort reads it, [d.get(k) or ""]: the string
    it holds, and the empty string when it holds [None] or is absent. *)
Definition field_str (rec : record) (k : string) : string :=
  match rec !! k with
  | Some (PyStr s) => s
  | _ => EmptyString
  end.

(** [(g1, l1) <= (g2, l2)] for pairs of strings, as Python orders tuples:
    by the first components, and by the second ones when these are equal. *)
Definition pair_le (g1 l1 g2 l2 : string) : Prop :=
  str_lt g1 g2 ∨ (g1 = g2 ∧ str_le l1 l2).

(** The records of a unit in the order in which they are written. *)
Definition written_records (u : unit_result) : list record :=
  map (deref (final_store u)) (ordered u).

(** * Properties *)

(** ** Floats: what rounding yields *)

Local Open Scope Z_scope.

Lemma digits2_pos_size (p : positive) : digits2_pos p = Pos.size p.
Proof. induction p as [p IH|p IH|]; simpl; congruence. Qed.

Lemma Zdigits2_log2 (z : Z) : 0 < z → Zdigits2 z = Z.log2 z + 1.
Proof.
  destruct z as [|p|p]; try lia. intros _. simpl.
  destruct p as [p|p|]; simpl; rewrite ?digits2_pos_size; lia.
Qed.

Lemma Zdigits2_nonneg (z : Z) : 0 ≤ Zdigits2 z.
Proof. destruct z; simpl; lia. Qed.

(** A number of [k] binary digits at most is below [2 ^ k]. *)
Lemma Zdigits2_le (z k : Z) : 0 ≤ z → 0 ≤ k → Zdigits2 z ≤ k ↔ z < 2 ^ k.
Proof.
  intros Hz Hk. destruct (decide (z = 0)) as [->|Hne].
  - simpl. split; [intros _; apply Z.pow_pos_nonneg; lia|lia].
  - rewrite Zdigits2_log2 by lia.
    pose proof (Z.log2_lt_pow2 z k ltac:(lia)). lia.
Qed.

Lemma shr_1_div2 (mrs : shr_record) : 0 ≤ shr_m mrs → shr_m (shr_1 mrs) = shr_m mrs / 2.
Proof.
  destruct mrs as [m r s]. cbn [shr_m]. intros Hm.
  destruct m as [|[p|p|]|p]; cbn [shr_1 shr_m]; try lia.
  - reflexivity.
  - apply (Z.div_unique _ 2 _ 1); lia.
  - apply (Z.div_unique _ 2 _ 0); lia.
  - reflexivity.
Qed.

Lemma shr_iter_div (p : positive) :
  ∀ mrs, 0 ≤ shr_m mrs →
  shr_m (SpecFloat.iter_pos shr_1 p mrs) = shr_m mrs / 2 ^ Zpos p.
Proof.
  induction p as [p IH|p IH|]; intros mrs Hm; simpl SpecFloat.iter_pos.
  - assert (0 ≤ shr_m (shr_1 mrs)) as H1.
    { rewrite shr_1_div2 by done. apply Z.div_pos; lia. }
    assert (0 ≤ shr_m (SpecFloat.iter_pos shr_1 p (shr_1 mrs))) as H2.
    { rewrite IH by done. apply Z.div_pos; [done|]. apply Z.pow_pos_nonneg; lia. }
    rewrite IH, IH, shr_1_div2 by done.
    assert (0 < 2 ^ Z.pos p) as Hpow by (apply Z.pow_pos_nonneg; lia).
    rewrite !Z.div_div by lia.
    f_equal. transitivity (2 ^ (1 + Z.pos p + Z.pos p)); [|f_equal; lia].
    rewrite !Z.pow_add_r by lia. change (2 ^ 1) with 2. ring.
  - assert (0 ≤ shr_m (SpecFloat.iter_pos shr_1 p mrs)) as H2.
    { rewrite IH by done. apply Z.div_pos; [done|]. apply Z.pow_pos_nonneg; lia. }
    rewrite IH, IH by done.
    assert (0 < 2 ^ Z.pos p) as Hpow by (apply Z.pow_pos_nonneg; lia).
    rewrite !Z.div_div by lia.
    f_equal. transitivity (2 ^ (Z.pos p + Z.pos p)); [|f_equal; lia].
    rewrite !Z.pow_add_r by lia. ring.
  - rewrite shr_1_div2 by done. reflexivity.
Qed.

Lemma shr_record_of_loc_m (m : Z) (l : location) : shr_m (shr_record_of_loc m l) = m.
Proof. destruct l as [|[]]; reflexivity. Qed.

Lemma fexp_ge (e : Z) : e - 53 ≤ fexp prec emax e.
Proof. unfold fexp, prec. lia. Qed.

(** After [shr_fexp] the mantissa has 53 digits at most. *)
Lemma shr_fexp_digits (m e : Z) (l : location) :
  0 ≤ m →
  0 ≤ shr_m (shr_fexp prec emax m e l).1 ∧
  Zdigits2 (shr_m (shr_fexp prec emax m e l).1) ≤ 53.
Proof.
  intros Hm. unfold shr_fexp, shr.
  pose proof (fexp_ge (Zdigits2 m + e)) as Hf.
  pose proof (Zdigits2_nonneg m) as Hd.
  destruct (fexp prec emax (Zdigits2 m + e) - e) as [|n|n] eqn:Hn; simpl.
  - rewrite shr_record_of_loc_m. split; [done|lia].
  - rewrite shr_iter_div by (by rewrite shr_record_of_loc_m).
    rewrite shr_record_of_loc_m. split.
    + apply Z.div_pos; [done|]. apply Z.pow_pos_nonneg; lia.
    + apply Zdigits2_le; [apply Z.div_pos; [done|apply Z.pow_pos_nonneg; lia]|lia|].
      apply Z.div_lt_upper_bound; [apply Z.pow_pos_nonneg; lia|].
      rewrite <- Z.pow_add_r by lia.
      assert (m < 2 ^ Zdigits2 m) as Hlt by (apply Zdigits2_le; lia).
      eapply Z.lt_le_trans; [exact Hlt|]. apply Z.pow_le_mono_r; lia.
  - rewrite shr_record_of_loc_m. split; [done|lia].
Qed.

Lemma round_nearest_even_nonneg (m : Z) (l : location) :
  0 ≤ m → 0 ≤ round_nearest_even m l.
Proof. intros Hm. destruct l as [|[]]; simpl; try lia. destruct (Z.even m); lia. Qed.

(** What the rounding of the format returns is within the format. *)
Lemma binary_round_aux_in_format (sx : bool) (mx ex : Z) (lx : location) :
  0 ≤ mx → in_format (binary_round_aux prec emax sx mx ex lx).
Proof.
  intros Hm. unfold binary_round_aux.
  pose proof (shr_fexp_digits mx ex lx Hm) as [H1 _].
  destruct (shr_fexp prec emax mx ex lx) as [mrs' e'] eqn:E1. simpl in H1.
  pose proof (shr_fexp_digits
                (round_nearest_even (shr_m mrs') (loc_of_shr_record mrs')) e' loc_Exact
                (round_nearest_even_nonneg _ _ H1)) as [H2 H3].
  destruct (shr_fexp prec emax _ e' loc_Exact) as [mrs'' e''] eqn:E2. simpl in H2, H3.
  destruct (shr_m mrs'') as [|m|m]; simpl; try done.
  destruct (e'' <=? emax - prec) eqn:He; simpl; [|done].
  apply Z.leb_le in He. unfold emax, prec in He. split; [exact H3|lia].
Qed.

Lemma binary_round_in_format (sx : bool) (mx : positive) (ex : Z) :
  in_format (binary_round prec emax sx mx ex).
Proof.
  unfold binary_round. destruct (shl_align mx ex _) as [mz ez].
  apply binary_round_aux_in_format. lia.
Qed.

Lemma binary_normalize_in_format (m e : Z) (szero : bool) :
  in_format (binary_normalize prec emax m e szero).
Proof.
  destruct m; simpl; [done| |]; apply binary_round_in_format.
Qed.

Lemma SFdiv_in_format (sx sy : bool) (mx my : positive) (ex ey : Z) :
  in_format (SFdiv prec emax (S754_finite sx mx ex) (S754_finite sy my ey)).
Proof.
  unfold SFdiv, SFdiv_core_binary.
  set (m' := match _ - _ - _ with Zpos _ => _ | Z0 => _ | Zneg _ => _ end).
  assert (0 ≤ m') as Hm'.
  { unfold m'. destruct (_ - _ - _); [lia| |lia]. apply Z.shiftl_nonneg. lia. }
  pose proof (Z_div_mod m' (Zpos my) ltac:(lia)) as Hdm.
  destruct (Z.div_eucl m' (Zpos my)) as [q r]. destruct Hdm as [Hq Hr].
  apply binary_round_aux_in_format. nia.
Qed.

Lemma float_of_decimal_in_format (neg : bool) (m : N) (e10 : Z) :
  in_format (float_of_decimal neg m e10).
Proof.
  unfold float_of_decimal. destruct m as [|p]; [done|].
  destruct (0 <=? e10); [apply binary_normalize_in_format|apply SFdiv_in_format].
Qed.

(** Every float that [float] returns is within the format. *)
Lemma py_float_in_format (s : string) (v : spec_float) :
  py_float s = Ok v → in_format v.
Proof.
  unfold py_float. destruct (floatvalue _) as [v'|] eqn:Hv; [|discriminate].
  intros [= <-]. unfold floatvalue in Hv.
  destruct (opt_sign _) as [neg r].
  destruct (_ || _); [by injection Hv as <-|].
  destruct (str_eqb _ "nan"); [by injection Hv as <-|].
  unfold floatnumber in Hv.
  destruct (number r) as [[[ip fp] r']|]; [|discriminate].
  destruct (exponent r') as [e|]; [|discriminate].
  injection Hv as <-. apply float_of_decimal_in_format.
Qed.

(** *** Integers that convert without rounding *)

Lemma fexp_eq (x : Z) : fexp prec emax x = Z.max (x - 53) (-1074).
Proof. reflexivity. Qed.

Lemma Zdigits2_mul_pow2 (q n : Z) :
  0 < q → 0 ≤ n → Zdigits2 (q * 2 ^ n) = Zdigits2 q + n.
Proof.
  intros Hq Hn.
  assert (0 < 2 ^ n) by (apply Z.pow_pos_nonneg; lia).
  rewrite !Zdigits2_log2 by nia. rewrite Z.log2_mul_pow2 by lia. lia.
Qed.

Lemma shr_1_exact (q : Z) :
  0 ≤ q →
  shr_1 {| shr_m := q * 2; shr_r := false; shr_s := false |}
  = {| shr_m := q; shr_r := false; shr_s := false |}.
Proof.
  intros Hq. destruct q as [|q|q]; [reflexivity| |lia].
  replace (Z.pos q * 2) with (Z.pos q~0) by lia. reflexivity.
Qed.

(** Shifting out zeros loses nothing. *)
Lemma shr_iter_exact (p : positive) :
  ∀ q, 0 ≤ q →
  SpecFloat.iter_pos shr_1 p {| shr_m := q * 2 ^ Z.pos p; shr_r := false; shr_s := false |}
  = {| shr_m := q; shr_r := false; shr_s := false |}.
Proof.
  induction p as [p IH|p IH|]; intros q Hq; cbn [SpecFloat.iter_pos].
  - assert (0 < 2 ^ Z.pos p) as Hpow by (apply Z.pow_pos_nonneg; lia).
    replace (q * 2 ^ Z.pos p~1) with (q * 2 ^ Z.pos p * 2 ^ Z.pos p * 2).
    + rewrite shr_1_exact by nia. rewrite IH by nia. by rewrite IH.
    + transitivity (q * 2 ^ (1 + Z.pos p + Z.pos p)); [|f_equal; f_equal; lia].
      rewrite !Z.pow_add_r by lia. change (2 ^ 1) with 2. ring.
  - assert (0 < 2 ^ Z.pos p) as Hpow by (apply Z.pow_pos_nonneg; lia).
    replace (q * 2 ^ Z.pos p~0) with (q * 2 ^ Z.pos p * 2 ^ Z.pos p).
    + rewrite IH by nia. by rewrite IH.
    + transitivity (q * 2 ^ (Z.pos p + Z.pos p)); [|f_equal; f_equal; lia].
      rewrite !Z.pow_add_r by lia. ring.
  - change (2 ^ 1) with 2. by apply shr_1_exact.
Qed.

(** A mantissa whose digits below the exponent of the format are zeros
    rounds to itself, and to no infinity when that exponent is in range. *)
Lemma binary_round_aux_exact (sx : bool) (mx ex q : Z) :
  0 < q →
  let F := fexp prec emax (Zdigits2 mx + ex) in
  ex ≤ F → F ≤ 971 → mx = q * 2 ^ (F - ex) →
  is_number (binary_round_aux prec emax sx mx ex loc_Exact) = true.
Proof.
  intros Hq F HexF HF Hmx.
  assert (0 < 2 ^ (F - ex)) as Hpow by (apply Z.pow_pos_nonneg; lia).
  assert (Zdigits2 mx = Zdigits2 q + (F - ex)) as Hd.
  { rewrite Hmx. apply Zdigits2_mul_pow2; lia. }
  assert (shr_fexp prec emax mx ex loc_Exact
          = ({| shr_m := q; shr_r := false; shr_s := false |}, F)) as E1.
  { unfold shr_fexp. fold F. unfold shr. simpl shr_record_of_loc.
    destruct (F - ex) as [|n|n] eqn:Hn; [| |lia].
    - rewrite Z.pow_0_r, Z.mul_1_r in Hmx. subst mx. f_equal. lia.
    - rewrite Hmx, shr_iter_exact by lia. f_equal. lia. }
  assert (shr_fexp prec emax q F loc_Exact
          = ({| shr_m := q; shr_r := false; shr_s := false |}, F)) as E2.
  { unfold shr_fexp.
    replace (Zdigits2 q + F) with (Zdigits2 mx + ex) by lia. fold F.
    rewrite Z.sub_diag. reflexivity. }
  unfold binary_round_aux. rewrite E1. simpl loc_of_shr_record. simpl shr_m.
  simpl round_nearest_even. rewrite E2. simpl shr_m.
  destruct q as [|q|q]; [lia| |lia].
  assert ((F <=? emax - prec) = true) as -> by (apply Z.leb_le; unfold emax, prec; lia).
  reflexivity.
Qed.

Lemma Pos_iter_xO (d p : positive) : Z.pos (Pos.iter xO p d) = Z.pos p * 2 ^ Z.pos d.
Proof.
  induction d as [|d IH] using Pos.peano_ind.
  - simpl. lia.
  - rewrite Pos.iter_succ, Pos2Z.inj_xO, IH, Pos2Z.inj_succ, Z.pow_succ_r by lia. ring.
Qed.

(** An integer that is a mantissa of the format times a power of two,
    below [2 ^ 1024], converts to a float that is a number. *)
Lemma binary_round_int (sx : bool) (p : positive) (m e : Z) :
  0 ≤ e → Z.pos p = m * 2 ^ e → Zdigits2 m ≤ 53 → Zdigits2 (Z.pos p) ≤ 1024 →
  is_number (binary_round prec emax sx p 0) = true.
Proof.
  intros He Hp Hm HD. unfold binary_round.
  change (Z.pos (digits2_pos p)) with (Zdigits2 (Z.pos p)).
  set (D := Zdigits2 (Z.pos p)) in *.
  assert (0 < D) as HD0 by (unfold D; simpl; lia).
  assert (0 < 2 ^ e) as Hpow by (apply Z.pow_pos_nonneg; lia).
  assert (0 < m) as Hm0 by nia.
  assert (D = Zdigits2 m + e) as HDm.
  { unfold D. rewrite Hp. apply Zdigits2_mul_pow2; lia. }
  rewrite Z.add_0_r. unfold shl_align. rewrite fexp_eq.
  destruct (decide (D < 53)) as [Hlt|Hge].
  - replace (Z.max (D - 53) (-1074) - 0) with (D - 53) by lia.
    destruct (D - 53) as [|d|d] eqn:Hd; [lia|lia|].
    assert (Zdigits2 (Z.pos (Pos.iter xO p d)) = D + Z.pos d) as HdX.
    { rewrite Pos_iter_xO, Zdigits2_mul_pow2 by lia. reflexivity. }
    apply (binary_round_aux_exact sx _ _ (Z.pos (Pos.iter xO p d))); [lia| | |].
    + rewrite HdX, fexp_eq. lia.
    + rewrite HdX, fexp_eq. lia.
    + rewrite HdX, fexp_eq.
      replace (Z.max (D + Z.pos d + Z.max (Z.neg d) (-1074) - 53) (-1074)
               - Z.max (Z.neg d) (-1074)) with 0 by lia.
      rewrite Z.pow_0_r. lia.
  - replace (Z.max (D - 53) (-1074) - 0) with (D - 53) by lia.
    assert (0 ≤ D - 53) as Hn by lia.
    assert ((let '(mz, ez) := match D - 53 with
                              | Z.neg d => (Pos.iter xO p d, Z.max (D - 53) (-1074))
                              | _ => (p, 0)
                              end in
             binary_round_aux prec emax sx (Z.pos mz) ez loc_Exact)
            = binary_round_aux prec emax sx (Z.pos p) 0 loc_Exact) as ->.
    { destruct (D - 53); [reflexivity|reflexivity|lia]. }
    apply (binary_round_aux_exact sx _ _ (m * 2 ^ (e - (D - 53)))).
    + assert (0 < 2 ^ (e - (D - 53))) by (apply Z.pow_pos_nonneg; lia). nia.
    + rewrite Z.add_0_r. fold D. rewrite fexp_eq. lia.
    + rewrite Z.add_0_r. fold D. rewrite fexp_eq. lia.
    + rewrite Z.add_0_r. fold D. rewrite fexp_eq.
      replace (Z.max (D - 53) (-1074) - 0) with (D - 53) by lia.
      rewrite Hp, <- Z.mul_assoc, <- Z.pow_add_r by lia. f_equal. f_equal. lia.
Qed.

(** The integer part of a float of the format converts back to a float. *)
Lemma py_float_of_int_trunc (v : spec_float) :
  in_format v → is_number v = true →
  py_float_of_int (trunc v) = Ok (float_of_Z (trunc v)).
Proof.
  intros Hf Hn.
  assert (is_number (float_of_Z (trunc v)) = true) as Hnum;
    [|unfold py_float_of_int; by destruct (float_of_Z (trunc v))].
  destruct v as [s|s| |s m e]; try discriminate Hn; [reflexivity|].
  destruct Hf as [Hm He]. change (Z.pos (digits2_pos m)) with (Zdigits2 (Z.pos m)) in Hm.
  unfold trunc, py_int.
  set (a := match e with Z.neg k => Z.shiftr (Z.pos m) (Z.pos k) | _ => Z.shiftl (Z.pos m) e end).
  assert (0 ≤ a ∧ ∃ m' e', 0 ≤ e' ∧ a = m' * 2 ^ e' ∧ Zdigits2 m' ≤ 53 ∧ a < 2 ^ 1024)
    as (Ha & m' & e' & He' & Haeq & Hm' & Hlt).
  { assert (Z.pos m < 2 ^ 53) as Hm53 by (apply Zdigits2_le; lia).
    unfold a. destruct e as [|e|k].
    - rewrite Z.shiftl_0_r. split; [lia|]. exists (Z.pos m), 0.
      rewrite Z.pow_0_r. split; [lia|]. split; [lia|]. split; [done|].
      eapply Z.lt_trans; [exact Hm53|]. apply Z.pow_lt_mono_r; lia.
    - rewrite Z.shiftl_mul_pow2 by lia.
      assert (0 < 2 ^ Z.pos e) by (apply Z.pow_pos_nonneg; lia).
      split; [nia|]. exists (Z.pos m), (Z.pos e). split; [lia|]. split; [done|].
      split; [done|].
      apply Z.lt_le_trans with (2 ^ 53 * 2 ^ Z.pos e); [nia|].
      rewrite <- Z.pow_add_r by lia. apply Z.pow_le_mono_r; lia.
    - rewrite Z.shiftr_div_pow2 by lia.
      assert (0 < 2 ^ Z.pos k) by (apply Z.pow_pos_nonneg; lia).
      assert (0 ≤ Z.pos m / 2 ^ Z.pos k) by (apply Z.div_pos; lia).
      assert (Z.pos m / 2 ^ Z.pos k ≤ Z.pos m).
      { apply Z.div_le_upper_bound; nia. }
      split; [done|]. exists (Z.pos m / 2 ^ Z.pos k), 0.
      rewrite Z.pow_0_r. split; [lia|]. split; [lia|]. split.
      + apply Zdigits2_le; lia.
      + apply Z.le_lt_trans with (Z.pos m); [done|].
        eapply Z.lt_trans; [exact Hm53|]. apply Z.pow_lt_mono_r; lia. }
  unfold float_of_Z.
  destruct a as [|p|p] eqn:Hp; [by destruct s| |lia].
  assert (is_number (binary_round prec emax s p 0) = true) as Hr.
  { apply (binary_round_int s p m' e'); try done. apply Zdigits2_le; lia. }
  destruct s; exact Hr.
Qed.

Local Close Scope Z_scope.

(** ** Value normaliser *)

Lemma str_eqb_eq (a b : string) : str_eqb a b = true ↔ a = b.
Proof. unfold str_eqb. apply bool_decide_eq_true. Qed.

Lemma str_in_elem_of (s : string) (l : list string) : str_in s l = true ↔ s ∈ l.
Proof.
  induction l as [|x l IH]; simpl.
  - split; [discriminate | intros H; inversion H].
  - rewrite orb_true_iff, str_eqb_eq, IH, elem_of_cons. reflexivity.
Qed.

Lemma str_in_not_elem_of (s : string) (l : list string) : str_in s l = false ↔ s ∉ l.
Proof.
  rewrite <- str_in_elem_of. destruct (str_in s l); split; congruence.
Qed.

(** Outside the codes and the tokens, [clean_num] is its [try] block with
    every exception turned into [None]. *)
Lemma clean_num_unlisted (x : string) :
  strip x ∉ SUPPRESS_CODES → strip x ∉ ANNOTATION_TOKENS →
  clean_num (Some x) = try_except (clean_num_try (strip x)) (fun _ => Ok PyNone).
Proof.
  intros H1 H2. unfold clean_num.
  apply str_in_not_elem_of in H1, H2. rewrite H1, H2. reflexivity.
Qed.

Lemma try_except_total (m : res pyval) : ∃ v, try_except m (fun _ => Ok PyNone) = Ok v.
Proof. destruct m; simpl; eauto. Qed.

Lemma clean_num_returns (x : option string) : ∃ v, clean_num x = Ok v.
Proof.
  destruct x as [x|]; simpl; [|eauto].
  destruct (_ || _); [eauto|]. apply try_except_total.
Qed.

(** C3. [clean_num] returns a value on every input and raises on none; the
    value is [None] for [None], for a string that strips to a suppression
    code or to an annotation token, and for a string that [float] rejects. *)
Theorem clean_num_total :
  (∀ x : option string, ∃ v, clean_num x = Ok v) ∧
  clean_num None = Ok PyNone ∧
  (∀ x : string, strip x ∈ SUPPRESS_CODES ∨ strip x ∈ ANNOTATION_TOKENS →
     clean_num (Some x) = Ok PyNone) ∧
  (∀ (x : string) (e : exn), py_float (strip x) = Raise e →
     clean_num (Some x) = Ok PyNone).
Proof.
  split; [|split; [reflexivity|split]].
  - apply clean_num_returns.
  - intros x H. unfold clean_num.
    rewrite <- !str_in_elem_of in H. apply orb_true_iff in H. rewrite H. reflexivity.
  - intros x e H. unfold clean_num.
    destruct (_ || _); [reflexivity|].
    unfold clean_num_try. rewrite H. reflexivity.
Qed.

Lemma clean_num_total_witness :
  clean_num (Some " (X) ") = Ok PyNone ∧
  clean_num (Some "-888888888.0") = Ok PyNone ∧
  clean_num (Some "12 apples") = Ok PyNone.
Proof.
  destruct clean_num_total as (_ & _ & Hlisted & Hparse).
  split; [|split].
  - apply Hlisted. right. vm_compute. set_solver.
  - apply Hlisted. left. vm_compute. set_solver.
  - apply (Hparse _ ValueError). vm_compute. reflexivity.
Defined.

(** No annotation token is a numeral. *)
Lemma tokens_not_numeric (s : string) (v : spec_float) :
  py_float s = Ok v → s ∉ ANNOTATION_TOKENS.
Proof.
  intros Hv Hin. unfold ANNOTATION_TOKENS in Hin.
  repeat (apply elem_of_cons in Hin as [->|Hin]; [vm_compute in Hv; discriminate|]).
  inversion Hin.
Qed.

Ltac spells_sentinel :=
  first [ exists (-555555555)%Z; split; [set_solver | vm_compute; reflexivity]
        | exists (-888888888)%Z; split; [set_solver | vm_compute; reflexivity]
        | exists (-666666666)%Z; split; [set_solver | vm_compute; reflexivity]
        | exists (-222222222)%Z; split; [set_solver | vm_compute; reflexivity] ].

(** C10. A string that spells the number of a suppression code is turned
    into [None] only when it is one of the eight listed spellings; in every
    other spelling, such as "-555555555.00" or "-5.55555555e8", the number
    itself comes back. *)
Theorem sentinel_spellings :
  (∀ c, c ∈ SUPPRESS_CODES → ∃ z, z ∈ SENTINELS ∧ py_float c = Ok (float_of_Z z)) ∧
  (∀ (x : string) (z : Z),
     z ∈ SENTINELS → py_float (strip x) = Ok (float_of_Z z) →
     clean_num (Some x) = if str_in (strip x) SUPPRESS_CODES then Ok PyNone else Ok (PyInt z)) ∧
  clean_num (Some "-555555555.00") = Ok (PyInt (-555555555)) ∧
  clean_num (Some "-5.55555555e8") = Ok (PyInt (-555555555)).
Proof.
  split; [|split; [|split; vm_compute; reflexivity]].
  - intros c Hc. unfold SUPPRESS_CODES in Hc.
    repeat (apply elem_of_cons in Hc as [->|Hc]; [spells_sentinel|]).
    inversion Hc.
  - intros x z Hz Hv.
    pose proof (tokens_not_numeric _ _ Hv) as Htok.
    apply str_in_not_elem_of in Htok.
    unfold clean_num. destruct (str_in (strip x) SUPPRESS_CODES); [reflexivity|].
    rewrite Htok. simpl. unfold clean_num_try. rewrite Hv.
    unfold SENTINELS in Hz.
    repeat (apply elem_of_cons in Hz as [->|Hz]; [vm_compute; reflexivity|]).
    inversion Hz.
Qed.

Lemma sentinel_spellings_witness :
  clean_num (Some " -888888888.000 ") = Ok (PyInt (-888888888)) ∧
  clean_num (Some "-888888888.0") = Ok PyNone.
Proof.
  destruct sentinel_spellings as (_ & Hother & _).
  split.
  - refine (Hother " -888888888.000 " (-888888888)%Z _ _); [set_solver|].
    vm_compute. reflexivity.
  - refine (Hother "-888888888.0" (-888888888)%Z _ _); [set_solver|].
    vm_compute. reflexivity.
Defined.

Lemma py_int_trunc (v : spec_float) : is_number v = true → py_int v = Ok (trunc v).
Proof. destruct v; try discriminate; reflexivity. Qed.

(** C4, as the code has it.  For a string that is not a suppression code
    and that [float] reads as [v]: when [v] is a number, the result is the
    integer part of [v] if [abs(v - int(v)) < 1e-9] holds in float
    arithmetic, and [v] itself otherwise; when [v] is an infinity or NaN, the
    result is [None].  So "42", "42.0" and "42.0000000001" give the integer
    42, and "3.7" gives the float 3.7. *)
Theorem clean_num_numbers :
  (∀ (x : string) (v : spec_float),
     strip x ∉ SUPPRESS_CODES → py_float (strip x) = Ok v →
     clean_num (Some x)
     = Ok (if is_number v
           then if near_integer v then PyInt (trunc v) else PyFloat v
           else PyNone)) ∧
  clean_num (Some "42") = Ok (PyInt 42) ∧
  clean_num (Some "42.0") = Ok (PyInt 42) ∧
  clean_num (Some "42.0000000001") = Ok (PyInt 42) ∧
  clean_num (Some "3.7") = Ok (PyFloat (float_of_decimal false 37 (-1))).
Proof.
  split; [|split; [|split; [|split]]; vm_compute; reflexivity].
  intros x v Hcode Hv.
  rewrite clean_num_unlisted by (eauto using tokens_not_numeric).
  unfold clean_num_try. rewrite Hv. cbn [mbind res_bind].
  destruct (is_number v) eqn:Hn.
  - rewrite (py_int_trunc v Hn). cbn [mbind res_bind].
    rewrite (py_float_of_int_trunc v (py_float_in_format _ _ Hv) Hn).
    cbn [mbind res_bind]. fold (near_integer v).
    by destruct (near_integer v).
  - destruct v; try discriminate Hn; reflexivity.
Qed.

Lemma clean_num_numbers_witness :
  clean_num (Some " 1200.5 ") = Ok (PyFloat (float_of_decimal false 12005 (-1))) ∧
  clean_num (Some "-17.000") = Ok (PyInt (-17)) ∧
  clean_num (Some "-inf") = Ok PyNone.
Proof.
  destruct clean_num_numbers as [Hnum _].
  split; [|split].
  - refine (eq_trans (Hnum " 1200.5 " (float_of_decimal false 12005 (-1)) _ _) _).
    + apply str_in_not_elem_of. vm_compute. reflexivity.
    + vm_compute. reflexivity.
    + vm_compute. reflexivity.
  - refine (eq_trans (Hnum "-17.000" (float_of_decimal true 17000 (-3)) _ _) _).
    + apply str_in_not_elem_of. vm_compute. reflexivity.
    + vm_compute. reflexivity.
    + vm_compute. reflexivity.
  - refine (eq_trans (Hnum "-inf" (S754_infinity true) _ _) _).
    + apply str_in_not_elem_of. vm_compute. reflexivity.
    + vm_compute. reflexivity.
    + reflexivity.
Defined.

(** The claim as written fails on a numeral beyond the range of a float:
    "1e999" is read as infinity, and the result is neither an integer nor
    that float. *)
Lemma overflowing_numeral_gives_none :
  ¬ (∀ (x : string) (v : spec_float),
       strip x ∉ SUPPRESS_CODES → strip x ∉ ANNOTATION_TOKENS →
       py_float (strip x) = Ok v →
       (∃ i, clean_num (Some x) = Ok (PyInt i)) ∨ clean_num (Some x) = Ok (PyFloat v)).
Proof.
  intros H.
  assert (py_float (strip "1e999") = Ok (S754_infinity false)) as Hv
    by (vm_compute; reflexivity).
  assert (clean_num (Some "1e999") = Ok PyNone) as Hc by (vm_compute; reflexivity).
  destruct (H "1e999" (S754_infinity false)) as [[i Hi]|Hf].
  - apply str_in_not_elem_of. vm_compute. reflexivity.
  - apply str_in_not_elem_of. vm_compute. reflexivity.
  - exact Hv.
  - rewrite Hc in Hi. discriminate Hi.
  - rewrite Hc in Hf. discriminate Hf.
Qed.

(** ** Header decoder *)

Lemma app_nil_str (b : string) : "" +:+ b = b.
Proof. reflexivity. Qed.

Lemma app_cons_str (x : ascii) (a b : string) : String x a +:+ b = String x (a +:+ b).
Proof. reflexivity. Qed.

Ltac norm_app := rewrite ?app_cons_str, ?app_nil_str in *.

Lemma app_assoc_str (a b c : string) : (a +:+ b) +:+ c = a +:+ (b +:+ c).
Proof. induction a as [|x a IH]; norm_app; congruence. Qed.

Lemma app_empty_r_str (a : string) : a +:+ "" = a.
Proof. induction a as [|x a IH]; norm_app; congruence. Qed.

Lemma ascii_eqb_true (c d : ascii) : Ascii.eqb c d = true ↔ c = d.
Proof. apply Ascii.eqb_eq. Qed.

Lemma match_lit_spec (l s r : string) : match_lit l s = Some r ↔ s = l +:+ r.
Proof.
  revert s. induction l as [|c l IH]; intros s; simpl; norm_app.
  - split; [by intros [= ->] | by intros ->].
  - destruct s as [|d s]; [split; discriminate|].
    destruct (Ascii.eqb c d) eqn:E.
    + apply ascii_eqb_true in E as ->. rewrite IH. split; [by intros ->|by intros [= ->]].
    + split; [discriminate|]. intros [= -> _]. by rewrite Ascii.eqb_refl in E.
Qed.

Lemma match_digits_spec (n : nat) (s d r : string) :
  match_digits n s = Some (d, r) ↔
  s = d +:+ r ∧ String.length d = n ∧ all_digits d = true.
Proof.
  revert s d. induction n as [|n IH]; intros s d; simpl.
  - split.
    + intros [= <- <-]. done.
    + intros (-> & Hlen & _). destruct d; [done|discriminate].
  - destruct s as [|c s].
    { split; [discriminate|]. intros (H & Hlen & _). destruct d; discriminate. }
    destruct (is_digit c) eqn:Hc.
    + destruct (match_digits n s) as [[d' r']|] eqn:Hm.
      * split.
        -- intros [= <- <-]. apply IH in Hm as (-> & Hlen & Hd).
           simpl. rewrite Hc, Hd, Hlen. done.
        -- intros (Heq & Hl & Hall). destruct d as [|c0 d]; [discriminate|].
           simpl in Hl, Hall. norm_app. injection Heq as <- Heq.
           apply andb_true_iff in Hall as [_ Hall].
           assert (match_digits n s = Some (d, r)) as Hm'.
           { apply IH. split; [done|]. split; [lia|done]. }
           congruence.
      * split; [discriminate|]. intros (Heq & Hl & Hall).
        destruct d as [|c0 d]; [discriminate|]. simpl in Hl, Hall. norm_app.
        injection Heq as <- Heq. apply andb_true_iff in Hall as [_ Hall].
        assert (match_digits n s = Some (d, r)) as Hm'.
        { apply IH. split; [done|]. split; [lia|done]. }
        congruence.
    + split; [discriminate|]. intros (Heq & Hl & Hall).
      destruct d as [|c0 d]; [discriminate|]. simpl in Hl, Hall. norm_app.
      injection Heq as <- Heq. apply andb_true_iff in Hall as [Hall _]. congruence.
Qed.

Lemma at_dollar_spec (r : string) : at_dollar r = true ↔ r = "" ∨ r = LF.
Proof.
  unfold at_dollar. rewrite orb_true_iff, !str_eqb_eq. reflexivity.
Qed.

(** What the pattern accepts: the header of a coordinate, and the same
    followed by one line feed. *)
Lemma header_coord_spec (table h : string) (c : coord) :
  header_coord table h = Some c ↔
  is_coord c ∧ (h = header_name table c ∨ h = header_name table c +:+ LF).
Proof.
  destruct c as [[g l] k]. unfold header_coord, re_match, header_pattern, is_coord, header_name.
  cbn [match_pieces body capture grp raw match_atom fst snd].
  split.
  - destruct (match_lit table h) as [r1|] eqn:H1; [|discriminate].
    destruct (match_lit "_C" r1) as [r2|] eqn:H2; [|discriminate].
    destruct (match_digits 2 r2) as [[g' r3]|] eqn:H3; [|discriminate].
    destruct (match_lit "_" r3) as [r4|] eqn:H4; [|discriminate].
    destruct (match_digits 3 r4) as [[l' r5]|] eqn:H5; [|discriminate].
    destruct r5 as [|ck r6]; [discriminate|].
    destruct (existsb (Ascii.eqb ck) ["E"%char; "M"%char]) eqn:H6; [|discriminate].
    destruct (at_dollar r6) eqn:H7; [|discriminate].
    intros [= <- <- <-].
    apply match_lit_spec in H1, H2, H4. apply match_digits_spec in H3, H5.
    destruct H3 as (-> & Hg1 & Hg2). destruct H5 as (-> & Hl1 & Hl2).
    subst h r1 r3. apply at_dollar_spec in H7.
    simpl in H6. rewrite orb_false_r, orb_true_iff, !ascii_eqb_true in H6.
    split.
    + repeat split; try done. destruct H6 as [->| ->]; [by left|by right].
    + destruct H7 as [->| ->]; [left|right]; [done|].
      rewrite !app_assoc_str. done.
  - intros ((Hg1 & Hg2 & Hl1 & Hl2 & Hk) & Hh).
    assert (∃ r, at_dollar r = true ∧
                 h = table +:+ "_C" +:+ g +:+ "_" +:+ l +:+ k +:+ r) as (r & Hr & ->).
    { destruct Hh as [->| ->].
      - exists "". split; [done|]. by rewrite app_empty_r_str.
      - exists LF. split; [done|]. by rewrite !app_assoc_str. }
    rewrite (proj2 (match_lit_spec table _ _) eq_refl).
    rewrite (proj2 (match_lit_spec "_C" _ _) eq_refl).
    rewrite (proj2 (match_digits_spec 2 (g +:+ _) g _) (conj eq_refl (conj Hg1 Hg2))).
    rewrite (proj2 (match_lit_spec "_" _ _) eq_refl).
    rewrite (proj2 (match_digits_spec 3 (l +:+ _) l _) (conj eq_refl (conj Hl1 Hl2))).
    destruct Hk as [->| ->]; norm_app; simpl; rewrite Hr; done.
Qed.

Lemma parse_headers_from_cons (table : string) (idx : nat) (h : string)
    (hs : list string) (fm : gmap coord nat) :
  parse_headers_from (header_pattern table) idx (h :: hs) fm =
  parse_headers_from (header_pattern table) (S idx) hs
    (match header_coord table h with Some c => <[c := idx]> fm | None => fm end).
Proof.
  simpl. unfold header_coord.
  destruct (re_match (header_pattern table) h) as [[|? [|? [|? [|? [|]]]]]|]; reflexivity.
Qed.

(** The entry of a coordinate is the position of the last header that
    carries it, counted from [idx]; when there is none, the entry that the
    map had. *)
Lemma parse_headers_from_lookup (table : string) (hs : list string) :
  ∀ (idx : nat) (fm : gmap coord nat) (c : coord) (i : nat),
  parse_headers_from (header_pattern table) idx hs fm !! c = Some i ↔
  (∃ j h, i = idx + j ∧ hs !! j = Some h ∧ header_coord table h = Some c ∧
          ∀ j' h', j < j' → hs !! j' = Some h' → header_coord table h' ≠ Some c)
  ∨ ((∀ j h, hs !! j = Some h → header_coord table h ≠ Some c) ∧ fm !! c = Some i).
Proof.
  induction hs as [|h hs IH]; intros idx fm c i.
  - simpl. split.
    + intros H. right. split; [intros j h' Hj; by rewrite lookup_nil in Hj|done].
    + intros [(j & h' & _ & Hj & _)|[_ H]]; [by rewrite lookup_nil in Hj|done].
  - rewrite parse_headers_from_cons, IH. clear IH. split.
    + intros [(j & h' & -> & Hj & Hc & Hlast)|[Hnone Hfm]].
      * left. exists (S j), h'. split; [lia|]. split; [done|]. split; [done|].
        intros [|j'] h'' Hlt Hj'; [lia|]. apply (Hlast j'); [lia|done].
      * destruct (header_coord table h) as [c'|] eqn:Hh.
        -- destruct (decide (c' = c)) as [->|Hne].
           ++ rewrite lookup_insert_eq in Hfm. injection Hfm as <-.
              left. exists 0, h. split; [lia|]. split; [done|]. split; [done|].
              intros [|j'] h'' Hlt Hj'; [lia|]. by apply (Hnone j').
           ++ rewrite lookup_insert_ne in Hfm by done.
              right. split; [|done].
              intros [|j] h'' Hj; simpl in Hj; [injection Hj as <-; congruence|].
              by apply (Hnone j).
        -- right. split; [|done].
           intros [|j] h'' Hj; simpl in Hj; [injection Hj as <-; congruence|].
           by apply (Hnone j).
    + intros [(j & h' & -> & Hj & Hc & Hlast)|[Hnone Hfm]].
      * destruct j as [|j]; simpl in Hj.
        -- injection Hj as <-. right. split.
           ++ intros j h'' Hj. apply (Hlast (S j)); [lia|done].
           ++ rewrite Hc, lookup_insert_eq. f_equal. lia.
        -- left. exists j, h'. split; [lia|]. split; [done|]. split; [done|].
           intros j' h'' Hlt Hj'. apply (Hlast (S j')); [lia|done].
      * right. split; [intros j h'' Hj; by apply (Hnone (S j))|].
        pose proof (Hnone 0 h eq_refl) as Hh.
        destruct (header_coord table h) as [c'|]; [|done].
        rewrite lookup_insert_ne; [done|congruence].
Qed.

(** The decoded map, whatever the headers are. *)
Lemma parse_headers_for_table_lookup (table : string) (headers : list string)
    (c : coord) (i : nat) :
  parse_headers_for_table table headers !! c = Some i ↔
  ∃ h, headers !! i = Some h ∧ header_coord table h = Some c ∧
       ∀ j h', i < j → headers !! j = Some h' → header_coord table h' ≠ Some c.
Proof.
  unfold parse_headers_for_table. rewrite parse_headers_from_lookup. split.
  - intros [(j & h & -> & Hj & Hc & Hlast)|[_ H]]; [|by rewrite lookup_empty in H].
    exists h. done.
  - intros (h & Hi & Hc & Hlast). left. exists i, h. done.
Qed.

Lemma header_name_not_lf (table : string) (c : coord) (h : string) :
  ¬ ends_with_lf h → is_coord c →
  (header_coord table h = Some c ↔ h = header_name table c).
Proof.
  intros Hlf Hc. rewrite header_coord_spec. split.
  - intros (_ & [H|H]); [done|]. exfalso. apply Hlf. by eexists.
  - intros ->. split; [done|by left].
Qed.

(** C2, as the code has it.  In a header list where no header ends with a
    line feed, the decoded map sends a coordinate to a position exactly when
    the coordinate follows the convention, the header at that position is
    [<table>_C<group>_<line><kind>] with the table identifier taken
    literally, and no later header is the same: the last position wins.  No
    other header gives an entry.  On the headers S0101_C01_001E,
    S0101_C01_001M, UNRELATED the entries of the map are the two for
    ("01", "001", "E"), at 0, and ("01", "001", "M"), at 1. *)
Theorem parse_headers_last_wins :
  (∀ (table : string) (headers : list string),
     Forall (fun h => ¬ ends_with_lf h) headers →
     ∀ (c : coord) (i : nat),
       parse_headers_for_table table headers !! c = Some i ↔
       is_coord c ∧ headers !! i = Some (header_name table c) ∧
       ∀ j, i < j → headers !! j ≠ Some (header_name table c)) ∧
  map_to_list (parse_headers_for_table "S0101"
                 ["S0101_C01_001E"; "S0101_C01_001M"; "UNRELATED"])
  ≡ₚ [ (("01", "001", "E"), 0); (("01", "001", "M"), 1) ].
Proof.
  split.
  2: { assert (map_to_list (parse_headers_for_table "S0101"
                 ["S0101_C01_001E"; "S0101_C01_001M"; "UNRELATED"])
               = [ (("01", "001", "M"), 1); (("01", "001", "E"), 0) ]) as ->
         by (vm_compute; reflexivity).
       apply perm_swap. }
  intros table headers Hlf c i. rewrite Forall_lookup in Hlf.
  rewrite parse_headers_for_table_lookup. split.
  - intros (h & Hi & Hc & Hlast).
    assert (is_coord c) as Hic by (by apply header_coord_spec in Hc as [? _]).
    split; [done|]. split.
    + rewrite Hi. f_equal. apply (header_name_not_lf table c h); eauto.
    + intros j Hlt Hj. apply (Hlast j _ Hlt Hj).
      apply header_name_not_lf; eauto.
  - intros (Hic & Hi & Hlast). exists (header_name table c).
    split; [done|]. split; [apply header_name_not_lf; eauto|].
    intros j h' Hlt Hj Hc. apply (Hlast j Hlt). rewrite Hj. f_equal.
    apply (header_name_not_lf table c h'); eauto.
Qed.

Lemma parse_headers_last_wins_witness :
  parse_headers_for_table "S1701" ["GEO_ID"; "S1701_C02_004M"; "S1701_C02_004M"]
    !! ("02", "004", "M") = Some 2.
Proof.
  destruct parse_headers_last_wins as [Hspec _].
  apply Hspec.
  - repeat constructor; intros [p Hp]; vm_compute in Hp;
      repeat (destruct p as [|? p]; try discriminate).
  - split; [vm_compute; tauto|]. split; [reflexivity|].
    intros [|[|[|j]]] Hlt; try lia; discriminate.
Defined.

(** The claim as written fails where a coordinate is repeated: the first of
    two equal headers follows the convention and has no entry of its own. *)
Lemma parse_headers_repeated_header :
  ¬ (∀ (table : string) (headers : list string) (c : coord) (i : nat),
       is_coord c → headers !! i = Some (header_name table c) →
       parse_headers_for_table table headers !! c = Some i).
Proof.
  intros H.
  specialize (H "S0101" ["S0101_C01_001E"; "S0101_C01_001E"] ("01", "001", "E") 0).
  assert (is_coord ("01", "001", "E")) as Hc by (vm_compute; tauto).
  specialize (H Hc eq_refl). vm_compute in H. discriminate.
Qed.

(** ** Schema registry and record assembler *)

(** Every builder is the dict literal of its columns. *)
Lemma builder_columns (table : string) (geo_id name : cell) (ln : string) (getv : getter) :
  builder (pick_schema table) geo_id name ln getv
  = dict_literal (items_of geo_id name ln getv (columns_of table)) ∅.
Proof.
  unfold pick_schema, TABLE_SCHEMAS.
  repeat (rewrite lookup_insert; destruct (decide (_ = table)) as [<-|];
          [reflexivity|]).
  rewrite lookup_empty. unfold columns_of, str_eqb.
  repeat (rewrite bool_decide_false by congruence). reflexivity.
Qed.

Lemma bind_ok {A B : Type} (m : res A) (f : A → res B) (b : B) :
  (x ← m; f x) = Ok b ↔ ∃ a, m = Ok a ∧ f a = Ok b.
Proof.
  destruct m as [a|e]; simpl.
  - split; [eauto|]. by intros (? & [= <-] & ?).
  - split; [discriminate|]. by intros (? & ? & _).
Qed.

Lemma dict_literal_cons (k : string) (e : res pyval) (items : list (string * res pyval))
    (d r : record) :
  dict_literal ((k, e) :: items) d = Ok r ↔
  ∃ v, e = Ok v ∧ dict_literal items (<[k := v]> d) = Ok r.
Proof. simpl. apply bind_ok. Qed.

(** A field absent from the literal keeps what the dict had. *)
Lemma dict_literal_frame (items : list (string * res pyval)) :
  ∀ (d r : record) (k : string),
  dict_literal items d = Ok r → k ∉ items.*1 → r !! k = d !! k.
Proof.
  induction items as [|[k0 e0] items IH]; intros d r k Hr Hk.
  - simpl in Hr. by injection Hr as <-.
  - apply dict_literal_cons in Hr as (v0 & -> & Hr).
    rewrite fmap_cons, not_elem_of_cons in Hk. destruct Hk as [Hne Hk].
    rewrite (IH _ _ _ Hr Hk). by rewrite lookup_insert_ne.
Qed.

(** Where a field of the result comes from. *)
Lemma dict_literal_lookup (items : list (string * res pyval)) :
  ∀ (d r : record) (k : string) (v : pyval),
  dict_literal items d = Ok r → r !! k = Some v →
  (k, Ok v) ∈ items ∨ d !! k = Some v.
Proof.
  induction items as [|[k0 e0] items IH]; intros d r k v Hr Hk.
  - simpl in Hr. injection Hr as <-. by right.
  - apply dict_literal_cons in Hr as (v0 & -> & Hr).
    destruct (IH _ _ _ _ Hr Hk) as [Hin|Hd].
    + left. by apply list_elem_of_further.
    + destruct (decide (k0 = k)) as [->|Hne].
      * rewrite lookup_insert_eq in Hd. injection Hd as ->. left. apply list_elem_of_here.
      * rewrite lookup_insert_ne in Hd by done. by right.
Qed.

(** A field written once holds the value of its item. *)
Lemma dict_literal_item (items : list (string * res pyval)) :
  ∀ (d r : record) (k : string) (v : pyval),
  NoDup items.*1 → dict_literal items d = Ok r → (k, Ok v) ∈ items →
  r !! k = Some v.
Proof.
  induction items as [|[k0 e0] items IH]; intros d r k v Hnd Hr Hin.
  - inversion Hin.
  - apply dict_literal_cons in Hr as (v0 & -> & Hr).
    rewrite fmap_cons in Hnd. apply NoDup_cons in Hnd as [Hk0 Hnd]. simpl in Hk0.
    apply elem_of_cons in Hin as [[= -> ->]|Hin].
    + rewrite (dict_literal_frame _ _ _ _ Hr Hk0). apply lookup_insert_eq.
    + by apply (IH _ _ _ _ Hnd Hr).
Qed.

Lemma dict_literal_dom (items : list (string * res pyval)) :
  ∀ (d r : record),
  dict_literal items d = Ok r → dom r = dom d ∪ list_to_set items.*1.
Proof.
  induction items as [|[k0 e0] items IH]; intros d r Hr.
  - simpl in Hr. injection Hr as <-. simpl. set_solver.
  - apply dict_literal_cons in Hr as (v0 & -> & Hr).
    rewrite (IH _ _ Hr), dom_insert_L. simpl. set_solver.
Qed.

Lemma dict_literal_returns (items : list (string * res pyval)) :
  ∀ d : record,
  Forall (fun it => ∃ v, it.2 = Ok v) items → ∃ r, dict_literal items d = Ok r.
Proof.
  induction items as [|[k0 e0] items IH]; intros d Hall.
  - by eexists.
  - apply Forall_cons in Hall as [[v0 Hv0] Hall]. simpl in Hv0. subst e0.
    destruct (IH (<[k0 := v0]> d) Hall) as [r Hr]. exists r.
    apply dict_literal_cons. eauto.
Qed.

(** [keep] is the test of the filter in the specification. *)
Lemma keep_has_value (rec : record) : keep rec = true ↔ has_value rec.
Proof.
  unfold keep, has_value. rewrite existsb_exists. split.
  - intros ([k v] & Hin & Hk). cbn [fst snd] in Hk.
    apply andb_true_iff in Hk as [Hid Hv]. apply negb_true_iff in Hid, Hv.
    exists k, v. split; [|split].
    + apply elem_of_map_to_list. by apply list_elem_of_In.
    + by apply str_in_not_elem_of.
    + intros ->. discriminate.
  - intros (k & v & Hkv & Hid & Hv). exists (k, v). split.
    + apply list_elem_of_In. by apply elem_of_map_to_list.
    + cbn [fst snd]. apply str_in_not_elem_of in Hid. rewrite Hid. by destruct v.
Qed.

Lemma build_loop_filter (build : string → res record) (line_nos : list string) :
  ∀ (acc recs : list record),
  build_loop build line_nos acc = Ok recs ↔
  ∃ cands, Forall2 (fun ln rec => build ln = Ok rec) line_nos cands ∧
           recs = acc ++ filter (fun rec => keep rec = true) cands.
Proof.
  induction line_nos as [|ln rest IH]; intros acc recs; simpl.
  - split.
    + intros [= <-]. exists []. split; [constructor|]. by rewrite app_nil_r.
    + intros (cands & Hf & ->). inversion Hf; subst. by rewrite app_nil_r.
  - rewrite bind_ok. split.
    + intros (rec & Hrec & Hloop). apply IH in Hloop as (cands & Hf & ->).
      exists (rec :: cands). split; [by constructor|].
      rewrite filter_cons. destruct (keep rec) eqn:Hk.
      * rewrite decide_True by done. by rewrite <- app_assoc.
      * rewrite decide_False by congruence. done.
    + intros (cands & Hf & ->). inversion Hf as [|? rec ? cands' Hrec Hf']; subst.
      exists rec. split; [done|]. apply IH. exists cands'. split; [done|].
      rewrite filter_cons. destruct (keep rec) eqn:Hk.
      * rewrite decide_True by done. by rewrite <- app_assoc.
      * rewrite decide_False by congruence. done.
Qed.

(** What [build_records_for_row] returns: the candidates that [keep]
    accepts, in the order of the line numbers, and the field names of the
    schema. *)
Lemma build_records_for_row_ok (table : string) (headers : list string)
    (row : list cell) (recs : list record) (fns : list string) :
  build_records_for_row table headers row = Ok (recs, fns) ↔
  ∃ ids cands,
    row_ids headers row = Ok ids ∧
    candidates table headers row ids cands ∧
    recs = filter (fun rec => keep rec = true) cands ∧
    fns = fieldnames (pick_schema table).
Proof.
  unfold build_records_for_row, candidates. rewrite bind_ok. split.
  - intros (ids & Hids & H). apply bind_ok in H as (recs' & Hloop & [= <- <-]).
    apply build_loop_filter in Hloop as (cands & Hf & ->).
    exists ids, cands. done.
  - intros (ids & cands & Hids & Hf & -> & ->). exists ids. split; [done|].
    apply bind_ok. eexists. split; [|reflexivity].
    apply build_loop_filter. exists cands. done.
Qed.

(** *** The assembler returns *)

Lemma safe_idx_lt (headers : list string) (colname : string) (i : nat) :
  safe_idx headers colname = Some i → i < length headers.
Proof.
  revert i. induction headers as [|h hs IH]; intros i; simpl; [discriminate|].
  destruct (str_eqb h colname).
  - intros [= <-]. lia.
  - destruct (safe_idx hs colname) as [j|]; [|discriminate].
    intros [= <-]. specialize (IH j eq_refl). lia.
Qed.

Lemma getitem_returns {A : Type} (l : list A) (i : nat) :
  i < length l → ∃ x, getitem l i = Ok x.
Proof.
  intros Hi. unfold getitem. destruct (lookup_lt_is_Some_2 l i Hi) as [x ->]. eauto.
Qed.

Lemma row_ids_returns (headers : list string) (row : list cell) :
  length headers ≤ length row → ∃ ids, row_ids headers row = Ok ids.
Proof.
  intros Hlen. unfold row_ids.
  assert (∀ c, ∃ x, match safe_idx headers c with
                    | Some i => getitem row i
                    | None => Ok None
                    end = Ok x) as H.
  { intros c. destruct (safe_idx headers c) as [i|] eqn:Hi; [|eauto].
    apply getitem_returns. apply safe_idx_lt in Hi. lia. }
  destruct (H "GEO_ID") as [g ->]. destruct (H "NAME") as [n ->]. simpl. eauto.
Qed.

Lemma getv_of_returns (table : string) (headers : list string) (row : list cell)
    (group kind ln : string) :
  length headers ≤ length row →
  ∃ v, getv_of (parse_headers_for_table table headers) row group kind ln = Ok v.
Proof.
  intros Hlen. unfold getv_of.
  destruct (parse_headers_for_table table headers !! (group, ln, kind)) as [col|] eqn:Hc;
    [|eauto].
  apply parse_headers_for_table_lookup in Hc as (h & Hh & _).
  apply lookup_lt_Some in Hh.
  destruct (getitem_returns row col) as [x ->]; [lia|]. simpl.
  apply clean_num_returns.
Qed.

Lemma items_of_keys (geo_id name : cell) (ln : string) (getv : getter) (cols : columns) :
  (items_of geo_id name ln getv cols).*1 = ["GEO_ID"; "NAME"; "line_no"] ++ cols.*1.
Proof.
  unfold items_of. rewrite fmap_app. f_equal.
  rewrite <- list_fmap_compose. reflexivity.
Qed.

Lemma builder_returns (table : string) (geo_id name : cell) (ln : string) (getv : getter) :
  (∀ group kind, ∃ v, getv group kind ln = Ok v) →
  ∃ rec, builder (pick_schema table) geo_id name ln getv = Ok rec.
Proof.
  intros Hget. rewrite builder_columns. apply dict_literal_returns.
  unfold items_of. apply Forall_app. split.
  - repeat constructor; simpl; eauto.
  - apply Forall_forall. intros it Hit. apply list_elem_of_fmap in Hit as (c & -> & _).
    simpl. apply Hget.
Qed.

Lemma Forall2_total {A B : Type} (R : A → B → Prop) (l : list A) :
  (∀ a, ∃ b, R a b) → ∃ k, Forall2 R l k.
Proof.
  intros Htot. induction l as [|a l [k IH]]; [exists []; constructor|].
  destruct (Htot a) as [b Hb]. exists (b :: k). by constructor.
Qed.

(** On a row that is at least as long as the header list the assembler
    raises nothing. *)
Lemma build_records_for_row_returns (table : string) (headers : list string)
    (row : list cell) :
  length headers ≤ length row →
  ∃ recs, build_records_for_row table headers row
          = Ok (recs, fieldnames (pick_schema table)).
Proof.
  intros Hlen. destruct (row_ids_returns headers row Hlen) as [ids Hids].
  destruct (Forall2_total
              (fun ln rec => builder (pick_schema table) ids.1 ids.2 ln
                               (getv_of (parse_headers_for_table table headers) row)
                             = Ok rec)
              (discover_line_nos (parse_headers_for_table table headers)))
    as [cands Hc].
  { intros ln. apply builder_returns. intros g k. by apply getv_of_returns. }
  eexists. apply build_records_for_row_ok. exists ids, cands. done.
Qed.

(** *** Line numbers *)

Section SortedBy.
Context {A K : Type} (key : A → K) (lt : K → K → bool).

Lemma insert_sorted_perm (x : A) (l : list A) : insert_sorted key lt x l ≡ₚ x :: l.
Proof.
  induction l as [|y l IH]; simpl; [done|].
  destruct (lt (key y) (key x)); [|done].
  rewrite IH. apply perm_swap.
Qed.

Lemma sorted_by_perm (l : list A) : sorted_by key lt l ≡ₚ l.
Proof.
  induction l as [|x l IH]; simpl; [done|].
  rewrite insert_sorted_perm. by rewrite IH.
Qed.
End SortedBy.

Lemma discover_line_nos_NoDup (fm : gmap coord nat) : NoDup (discover_line_nos fm).
Proof.
  unfold discover_line_nos. rewrite sorted_by_perm. apply NoDup_elements.
Qed.

Lemma elem_of_discover_line_nos (fm : gmap coord nat) (ln : string) :
  ln ∈ discover_line_nos fm ↔ ∃ group kind col, fm !! (group, ln, kind) = Some col.
Proof.
  unfold discover_line_nos. rewrite sorted_by_perm, elem_of_elements, elem_of_map.
  split.
  - intros ([[g l] k] & -> & Hin). apply elem_of_dom in Hin as [col Hcol].
    exists g, k, col. done.
  - intros (g & k & col & Hcol). exists (g, ln, k). split; [done|].
    apply elem_of_dom. eauto.
Qed.

(** *** Shape of the records *)

Ltac decide_by_compute :=
  match goal with
  | |- ?P => apply (bool_decide_unpack P); vm_compute; exact I
  end.

Lemma schema_shape (table : string) :
  fieldnames (pick_schema table) = ID_FIELDS ++ (columns_of table).*1 ∧
  NoDup (["GEO_ID"; "NAME"; "line_no"] ++ (columns_of table).*1) ∧
  Forall (fun f => f ∉ ID_FIELDS) (columns_of table).*1.
Proof.
  unfold pick_schema, TABLE_SCHEMAS.
  repeat (rewrite lookup_insert; destruct (decide (_ = table)) as [<-|];
          [split; [reflexivity|split; decide_by_compute]|]).
  rewrite lookup_empty. unfold columns_of, str_eqb.
  repeat (rewrite bool_decide_false by congruence).
  split; [reflexivity|split; decide_by_compute].
Qed.

Lemma dict_literal_items_ok (items : list (string * res pyval)) :
  ∀ (d r : record) (k : string) (e : res pyval),
  dict_literal items d = Ok r → (k, e) ∈ items → ∃ v, e = Ok v.
Proof.
  induction items as [|[k0 e0] items IH]; intros d r k e Hr Hin.
  - inversion Hin.
  - apply dict_literal_cons in Hr as (v0 & -> & Hr).
    apply elem_of_cons in Hin as [[= -> ->]|Hin]; [eauto|].
    by apply (IH _ _ k e Hr).
Qed.

Lemma elem_of_items_of (geo_id name : cell) (ln : string) (getv : getter)
    (cols : columns) (k : string) (e : res pyval) :
  (k, e) ∈ items_of geo_id name ln getv cols ↔
  (k, e) ∈ [ ("GEO_ID", Ok (of_opt_str geo_id)); ("NAME", Ok (of_opt_str name));
             ("line_no", Ok (PyStr ln)) ]
  ∨ ∃ group kind, (k, (group, kind)) ∈ cols ∧ e = getv group kind ln.
Proof.
  unfold items_of. rewrite elem_of_app, list_elem_of_fmap. split.
  - intros [H|([f [g kd]] & [= -> ->] & Hin)]; [by left|]. right. eauto.
  - intros [H|(g & kd & Hin & ->)]; [by left|]. right. exists (k, (g, kd)). done.
Qed.

(** The fields of a record as a builder leaves it: the two identifiers, the
    line number, one value per column of the schema, and no label. *)
Lemma built_record (table : string) (geo_id name : cell) (ln : string)
    (getv : getter) (rec : record) :
  builder (pick_schema table) geo_id name ln getv = Ok rec →
  rec !! "GEO_ID" = Some (of_opt_str geo_id) ∧
  rec !! "NAME" = Some (of_opt_str name) ∧
  rec !! "line_no" = Some (PyStr ln) ∧
  rec !! "label" = None ∧
  (∀ f group kind, (f, (group, kind)) ∈ columns_of table →
     ∃ v, getv group kind ln = Ok v ∧ rec !! f = Some v) ∧
  dom rec = list_to_set (fieldnames (pick_schema table)) ∖ {["label"]}.
Proof.
  rewrite builder_columns. intros Hrec.
  destruct (schema_shape table) as (Hfn & Hnd & Hid).
  pose proof (items_of_keys geo_id name ln getv (columns_of table)) as Hkeys.
  assert (∀ k v, (k, Ok v) ∈ items_of geo_id name ln getv (columns_of table) →
                 rec !! k = Some v) as Hitem.
  { intros k v Hin. eapply dict_literal_item; [|exact Hrec|exact Hin].
    by rewrite Hkeys. }
  assert ("label" ∉ (columns_of table).*1) as Hlabel.
  { intros Hin. rewrite Forall_forall in Hid. apply (Hid _ Hin).
    unfold ID_FIELDS. set_solver. }
  split; [apply Hitem, elem_of_items_of; left; set_solver|].
  split; [apply Hitem, elem_of_items_of; left; set_solver|].
  split; [apply Hitem, elem_of_items_of; left; set_solver|].
  split; [|split].
  - rewrite (dict_literal_frame _ _ _ _ Hrec); [apply lookup_empty|].
    rewrite Hkeys. rewrite elem_of_app. intros [H|H]; [|done].
    set_solver.
  - intros f g kd Hin.
    destruct (dict_literal_items_ok _ _ _ f (getv g kd ln) Hrec) as [v Hv].
    { apply elem_of_items_of. right. eauto. }
    exists v. split; [done|]. apply Hitem, elem_of_items_of. right.
    exists g, kd. split; [done|]. by rewrite Hv.
  - rewrite (dict_literal_dom _ _ _ Hrec), Hkeys, Hfn, dom_empty_L.
    unfold ID_FIELDS. rewrite !list_to_set_app_L. simpl.
    assert ("label" ∉ (list_to_set (columns_of table).*1 : gset string)) as Hl
      by (by rewrite elem_of_list_to_set).
    set_solver.
Qed.

(** A line whose decoded values are all [None] gives a record that the
    filter drops, whatever the schema. *)
Lemma empty_line_dropped (table : string) (geo_id name : cell) (ln : string)
    (getv : getter) (rec : record) :
  (∀ group kind, getv group kind ln = Ok PyNone) →
  builder (pick_schema table) geo_id name ln getv = Ok rec →
  keep rec = false.
Proof.
  intros Hnone Hrec. apply not_true_is_false. rewrite keep_has_value.
  intros (k & v & Hk & Hid & Hv). rewrite builder_columns in Hrec.
  destruct (dict_literal_lookup _ _ _ _ _ Hrec Hk) as [Hin|Hin];
    [|by rewrite lookup_empty in Hin].
  apply elem_of_items_of in Hin as [Hin|(g & kd & _ & He)].
  - apply Hid. unfold ID_FIELDS. set_solver.
  - rewrite Hnone in He. by injection He.
Qed.

(** *** Records per line number *)

Section PerLine.
Context (build : string → res record).
Hypothesis build_line : ∀ ln rec, build ln = Ok rec → at_line ln rec.

Lemma at_line_functional (ln ln' : string) (rec : record) :
  at_line ln rec → at_line ln' rec → ln = ln'.
Proof. unfold at_line. intros H1 H2. rewrite H1 in H2. by injection H2. Qed.

Lemma no_candidate_off_list (lns : list string) (cands : list record) (ln : string) :
  Forall2 (fun l r => build l = Ok r) lns cands → ln ∉ lns →
  Forall (fun r => ¬ at_line ln r) cands.
Proof.
  induction 1 as [|l r lns cands Hr _ IH]; intros Hln; [constructor|].
  apply not_elem_of_cons in Hln as [Hne Hln]. constructor; [|by apply IH].
  intros Hat. apply Hne. eapply at_line_functional; [exact Hat|]. by apply build_line.
Qed.

Lemma filter_none {A : Type} (P : A → Prop) `{∀ x, Decision (P x)} (l : list A) :
  Forall (fun x => ¬ P x) l → filter P l = [].
Proof.
  induction 1 as [|x l Hx _ IH]; [done|].
  rewrite filter_cons, decide_False by done. done.
Qed.

(** Of the records kept, the ones at a discovered line: the candidate of
    that line if [keep] accepts it, and nothing otherwise. *)
Lemma kept_at_line (lns : list string) (cands : list record) (ln : string)
    (rec : record) :
  Forall2 (fun l r => build l = Ok r) lns cands → NoDup lns →
  ln ∈ lns → build ln = Ok rec →
  filter (at_line ln) (filter (fun r => keep r = true) cands)
  = if keep rec then [rec] else [].
Proof.
  induction 1 as [|l r lns cands Hr Hf IH]; intros Hnd Hin Hrec; [inversion Hin|].
  apply NoDup_cons in Hnd as [Hl Hnd].
  destruct (decide (l = ln)) as [->|Hne].
  - assert (r = rec) as -> by congruence.
    assert (filter (at_line ln) (filter (fun r => keep r = true) cands) = []) as Hrest.
    { apply filter_none, Forall_forall. intros x Hx.
      apply list_elem_of_filter in Hx as [_ Hx].
      pose proof (no_candidate_off_list _ _ _ Hf Hl) as Hoff.
      rewrite Forall_forall in Hoff. by apply Hoff. }
    rewrite filter_cons. destruct (keep rec) eqn:Hk.
    + rewrite decide_True by done. rewrite filter_cons.
      rewrite decide_True by (by apply build_line). by rewrite Hrest.
    + rewrite decide_False by congruence. done.
  - apply elem_of_cons in Hin as [->|Hin]; [done|].
    assert (¬ at_line ln r) as Hnot.
    { intros Hat. apply Hne. eapply at_line_functional; [|exact Hat].
      by apply build_line. }
    rewrite filter_cons. destruct (decide (keep r = true)).
    + rewrite filter_cons, decide_False by done. by apply IH.
    + by apply IH.
Qed.
End PerLine.

(** The record of the default schema at a line where only group 01, kind E
    has a value. *)
Lemma default_only_total (geo_id name : cell) (ln : string) (getv : getter) (v : pyval) :
  getv "01" "E" ln = Ok v →
  (∀ group kind, (group, kind) ≠ ("01", "E") → getv group kind ln = Ok PyNone) →
  ∃ rec, default_builder geo_id name ln getv = Ok rec ∧ only_total rec ln v.
Proof.
  intros Hv Hnone. unfold default_builder.
  rewrite Hv, !Hnone by congruence. eexists. split; [reflexivity|].
  unfold only_total. split; [by simplify_map_eq|]. split; [by simplify_map_eq|].
  intros f Hf Hne. unfold DEFAULT_COLUMNS in Hf. simpl in Hf.
  repeat (apply elem_of_cons in Hf as [->|Hf]; [try done; by simplify_map_eq|]).
  inversion Hf.
Qed.

Lemma pick_schema_unregistered (table : string) :
  TABLE_SCHEMAS !! table = None → pick_schema table = default_schema.
Proof. intros H. unfold pick_schema. by rewrite H. Qed.

(** The records of one discovered line among the records returned. *)
Lemma records_of_line (table : string) (headers : list string) (row : list cell)
    (recs : list record) (fns : list string) (ln : string) :
  build_records_for_row table headers row = Ok (recs, fns) →
  ln ∈ discover_line_nos (parse_headers_for_table table headers) →
  ∃ ids rec,
    row_ids headers row = Ok ids ∧
    builder (pick_schema table) ids.1 ids.2 ln
      (getv_of (parse_headers_for_table table headers) row) = Ok rec ∧
    filter (at_line ln) recs = if keep rec then [rec] else [].
Proof.
  intros Hb Hln. apply build_records_for_row_ok in Hb as (ids & cands & Hids & Hc & -> & _).
  unfold candidates in Hc. cbn zeta in Hc.
  apply list_elem_of_lookup in Hln as [i Hi].
  destruct (Forall2_lookup_l _ _ _ _ _ Hc Hi) as (rec & _ & Hrec).
  exists ids, rec. split; [done|]. split; [done|].
  eapply kept_at_line; [|exact Hc|apply discover_line_nos_NoDup| |exact Hrec].
  - intros l r Hr. by apply built_record in Hr as (_ & _ & ? & _).
  - by eapply list_elem_of_lookup_2.
Qed.

Lemma records_off_lines (table : string) (headers : list string) (row : list cell)
    (recs : list record) (fns : list string) (ln : string) :
  build_records_for_row table headers row = Ok (recs, fns) →
  ln ∉ discover_line_nos (parse_headers_for_table table headers) →
  filter (at_line ln) recs = [].
Proof.
  intros Hb Hln. apply build_records_for_row_ok in Hb as (ids & cands & Hids & Hc & -> & _).
  apply filter_none, Forall_forall. intros r Hr.
  apply list_elem_of_filter in Hr as [_ Hr].
  pose proof (no_candidate_off_list _
    (fun l r Hr => proj1 (proj2 (proj2 (built_record _ _ _ _ _ _ Hr))))
    _ _ _ Hc Hln) as Hoff.
  rewrite Forall_forall in Hoff. by apply Hoff.
Qed.

(** C1. Of the candidate of a discovered line number, the assembler keeps
    exactly the one that has a value other than [None] in a field other than
    GEO_ID, NAME, line_no and label.  For a table without a registered
    schema, a line where only group 01, kind E decodes to a value gives one
    record, with [total] set and every other numeric field [None]; a line
    whose decoded values are all [None] gives no record. *)
Theorem assembler_keeps_lines_with_a_value
    (table : string) (headers : list string) (row : list cell)
    (recs : list record) (fns : list string) :
  build_records_for_row table headers row = Ok (recs, fns) →
  let fieldmap := parse_headers_for_table table headers in
  let getv := getv_of fieldmap row in
  (∀ ln, ln ∈ discover_line_nos fieldmap →
     ∃ ids rec,
       row_ids headers row = Ok ids ∧
       builder (pick_schema table) ids.1 ids.2 ln getv = Ok rec ∧
       (has_value rec → filter (at_line ln) recs = [rec]) ∧
       (¬ has_value rec → filter (at_line ln) recs = [])) ∧
  (∀ ln v,
     TABLE_SCHEMAS !! table = None → ln ∈ discover_line_nos fieldmap →
     getv "01" "E" ln = Ok v → v ≠ PyNone →
     (∀ group kind, (group, kind) ≠ ("01", "E") → getv group kind ln = Ok PyNone) →
     ∃ rec, filter (at_line ln) recs = [rec] ∧ only_total rec ln v) ∧
  (∀ ln, (∀ group kind, getv group kind ln = Ok PyNone) →
     filter (at_line ln) recs = []).
Proof.
  intros Hb fieldmap getv. split; [|split].
  - intros ln Hln.
    destruct (records_of_line _ _ _ _ _ _ Hb Hln) as (ids & rec & Hids & Hrec & Hf).
    exists ids, rec. split; [done|]. split; [done|].
    rewrite <- keep_has_value. destruct (keep rec); split; done.
  - intros ln v Hun Hln Hv Hnn Hnone.
    destruct (records_of_line _ _ _ _ _ _ Hb Hln) as (ids & rec & Hids & Hrec & Hf).
    rewrite (pick_schema_unregistered _ Hun) in Hrec. simpl in Hrec.
    destruct (default_only_total ids.1 ids.2 ln getv v Hv Hnone) as (rec' & Hrec' & Hot).
    assert (rec' = rec) as -> by (unfold getv, fieldmap in Hrec'; congruence).
    exists rec. split; [|done].
    assert (keep rec = true) as Hk.
    { apply keep_has_value. exists "total", v. destruct Hot as (_ & Ht & _).
      split; [done|]. split; [|done]. unfold ID_FIELDS. set_solver. }
    by rewrite Hk in Hf.
  - intros ln Hnone.
    destruct (decide (ln ∈ discover_line_nos fieldmap)) as [Hln|Hln].
    + destruct (records_of_line _ _ _ _ _ _ Hb Hln) as (ids & rec & Hids & Hrec & Hf).
      by rewrite (empty_line_dropped _ _ _ _ _ _ Hnone Hrec) in Hf.
    + by eapply records_off_lines.
Qed.

Lemma assembler_keeps_lines_with_a_value_witness :
  ∃ recs rec,
    build_records_for_row "S0101"
      [ "GEO_ID"; "NAME"; "S0101_C01_001E"; "S0101_C01_001M"; "S0101_C02_002E" ]
      [ Some "1400000US48021950801"; Some "Census Tract 9508.01"; Some "1200";
        Some "-555555555"; Some "(X)" ]
    = Ok (recs, DEFAULT_FIELDNAMES) ∧
    filter (at_line "001") recs = [rec] ∧
    only_total rec "001" (PyInt 1200) ∧
    filter (at_line "002") recs = [].
Proof.
  pose (headers := [ "GEO_ID"; "NAME"; "S0101_C01_001E"; "S0101_C01_001M";
                     "S0101_C02_002E" ]).
  pose (row := [ Some "1400000US48021950801"; Some "Census Tract 9508.01";
                 Some "1200"; Some "-555555555"; Some "(X)" ] : list cell).
  assert (∃ recs, build_records_for_row "S0101" headers row = Ok (recs, DEFAULT_FIELDNAMES))
    as [recs Hb].
  { exists (match build_records_for_row "S0101" headers row with
            | Ok (rs, _) => rs
            | Raise _ => []
            end).
    vm_compute. reflexivity. }
  assert (∀ g k ln, (g, k) ≠ ("01", "E") →
            getv_of (parse_headers_for_table "S0101" headers) row g k ln = Ok PyNone)
    as Hnone.
  { intros g k ln Hne. unfold getv_of.
    destruct (parse_headers_for_table _ _ !! _) as [col|] eqn:Hcol; [|reflexivity].
    apply parse_headers_for_table_lookup in Hcol as (h & Hh & Hc & _).
    destruct col as [|[|[|[|[|col]]]]]; simpl in Hh; try discriminate Hh;
      injection Hh as <-; vm_compute in Hc; try discriminate Hc.
    - injection Hc as <- <- <-. exfalso. apply Hne. reflexivity.
    - vm_compute. reflexivity.
    - vm_compute. reflexivity. }
  destruct (assembler_keeps_lines_with_a_value _ _ _ _ _ Hb) as (_ & Hone & Hzero).
  destruct (Hone "001" (PyInt 1200)) as (rec & Hrec & Hot).
  - vm_compute. reflexivity.
  - apply elem_of_discover_line_nos. exists "01", "E", 2. vm_compute. reflexivity.
  - vm_compute. reflexivity.
  - discriminate.
  - intros g k. apply Hnone.
  - exists recs, rec. split; [exact Hb|]. split; [exact Hrec|]. split; [exact Hot|].
    apply Hzero. intros g k.
    destruct (decide ((g, k) = ("01", "E"))) as [[= -> ->]|Hne]; [|by apply Hnone].
    vm_compute. reflexivity.
Defined.



(** ** Label merger *)

Lemma zeros_length (n : nat) : String.length (zeros n) = n.
Proof. induction n as [|n IH]; simpl; congruence. Qed.

Lemma app_length_str (a b : string) :
  String.length (a +:+ b) = String.length a + String.length b.
Proof. induction a as [|c a IH]; norm_app; simpl; congruence. Qed.

(** On a string of digits [zfill] only puts zeros in front. *)
Lemma zfill_digits (width : nat) (s : string) :
  all_digits s = true → zfill width s = zeros (width - String.length s) +:+ s.
Proof.
  intros Hd. unfold zfill. destruct (width <=? String.length s) eqn:Hw.
  - apply Nat.leb_le in Hw. by replace (width - String.length s) with 0 by lia.
  - destruct s as [|c s]; [by rewrite app_empty_r_str|].
    simpl in Hd. apply andb_true_iff in Hd as [Hc _].
    assert (Ascii.eqb c "+" || Ascii.eqb c "-" = false) as ->; [|done].
    apply orb_false_iff. split; apply Ascii.eqb_neq; intros ->; discriminate.
Qed.

Lemma zfill_width (width : nat) (s : string) : width ≤ String.length (zfill width s).
Proof.
  unfold zfill. destruct (width <=? String.length s) eqn:Hw.
  - by apply Nat.leb_le.
  - apply Nat.leb_gt in Hw. destruct s as [|c s].
    + rewrite zeros_length. simpl. lia.
    + destruct (_ || _); norm_app; simpl;
        rewrite app_length_str, zeros_length; simpl in *; lia.
Qed.

Lemma label_key_str (rec : record) (s : string) :
  rec !! "line_no" = Some (PyStr s) → label_key rec = Ok (zfill 3 s).
Proof.
  intros H. unfold label_key, get_or_empty. rewrite H. by destruct s.
Qed.

Lemma attach_label_spec (label_map : gmap string string) (p : ref) (σ : store)
    (rec : record) (ln : string) :
  objs σ !! p = Some rec → label_key rec = Ok ln →
  attach_label label_map p σ
  = Ok {| objs := <[p := <["label" := PyStr (default "" (label_map !! ln))]> rec]> (objs σ);
          writes := writes σ ++ [(p, "label")] |}.
Proof.
  intros Hp Hln. unfold attach_label, deref. rewrite Hp. simpl. rewrite Hln. simpl.
  unfold setitem. f_equal. f_equal.
  apply list_eq. intros i. destruct (decide (i = p)) as [->|Hne].
  - rewrite list_lookup_alter_eq, Hp. simpl.
    rewrite list_lookup_insert_eq; [done|]. by eapply lookup_lt_Some.
  - rewrite list_lookup_alter_ne, list_lookup_insert_ne by done. done.
Qed.

(** The loop [for rec in recs] of the merger, on records whose line number
    is a string. *)
Lemma attach_labels_spec (label_map : gmap string string) (recs : list ref) :
  ∀ σ : store,
  (∀ p, p ∈ recs → ∃ rec s, objs σ !! p = Some rec ∧ rec !! "line_no" = Some (PyStr s)) →
  ∃ σ',
    attach_labels label_map recs σ = Ok σ' ∧
    length (objs σ') = length (objs σ) ∧
    writes σ' = writes σ ++ map (fun p => (p, "label")) recs ∧
    (∀ q rec, objs σ !! q = Some rec → q ∉ recs → objs σ' !! q = Some rec) ∧
    (∀ q rec s, objs σ !! q = Some rec → q ∈ recs → rec !! "line_no" = Some (PyStr s) →
       objs σ' !! q
       = Some (<["label" := PyStr (default "" (label_map !! zfill 3 s))]> rec)).
Proof.
  induction recs as [|p rest IH]; intros σ Hpre.
  - exists σ. simpl. rewrite app_nil_r. split; [done|]. split; [done|]. split; [done|].
    split; [done|]. intros q rec s _ Hq. inversion Hq.
  - destruct (Hpre p) as (rec_p & s_p & Hp & Hs_p); [apply list_elem_of_here|].
    assert (p < length (objs σ)) as Hlt by (by eapply lookup_lt_Some).
    set (rec1 := <["label" := PyStr (default "" (label_map !! zfill 3 s_p))]> rec_p).
    set (σ1 := {| objs := <[p := rec1]> (objs σ); writes := writes σ ++ [(p, "label")] |}).
    assert (attach_label label_map p σ = Ok σ1) as Hstep.
    { apply (attach_label_spec _ _ _ rec_p (zfill 3 s_p)); [done|by apply label_key_str]. }
    destruct (IH σ1) as (σ' & Hrun & Hlen & Hw & Hframe & Hlab).
    { intros q Hq. destruct (decide (q = p)) as [->|Hne].
      - exists rec1, s_p. split.
        + unfold σ1. cbn [objs]. by rewrite list_lookup_insert_eq.
        + unfold rec1. by rewrite lookup_insert_ne.
      - destruct (Hpre q) as (rec & s & Hq' & Hs); [by apply list_elem_of_further|].
        exists rec, s. split; [|done].
        unfold σ1. cbn [objs]. by rewrite list_lookup_insert_ne. }
    exists σ'. split; [cbn [attach_labels]; rewrite Hstep; exact Hrun|].
    split; [rewrite Hlen; unfold σ1; cbn [objs]; by rewrite length_insert|].
    split; [rewrite Hw; unfold σ1; cbn [writes map]; by rewrite <- app_assoc|].
    split.
    + intros q rec Hq Hnot. apply not_elem_of_cons in Hnot as [Hne Hnot].
      apply Hframe; [|done]. unfold σ1. cbn [objs]. by rewrite list_lookup_insert_ne.
    + intros q rec s Hq Hin Hs. destruct (decide (q = p)) as [->|Hne].
      * assert (rec = rec_p) as -> by congruence.
        assert (s = s_p) as -> by congruence.
        assert (objs σ1 !! p = Some rec1) as H1.
        { unfold σ1. cbn [objs]. by rewrite list_lookup_insert_eq. }
        destruct (decide (p ∈ rest)) as [Hrest|Hrest].
        -- rewrite (Hlab p rec1 s_p H1 Hrest); [|unfold rec1; by rewrite lookup_insert_ne].
           unfold rec1. by rewrite insert_insert_eq.
        -- by rewrite (Hframe p rec1 H1 Hrest).
      * apply elem_of_cons in Hin as [->|Hin]; [done|].
        apply Hlab; [|done|done]. unfold σ1. cbn [objs]. by rewrite list_lookup_insert_ne.
Qed.

(** C7. The label merger, the loop over the records of a row, gives each
    of them the label that the map holds for its line number filled with
    zeros to three characters, and the empty string when the map holds
    none; a line number "1" finds the label keyed "001".  Every other field
    of these records and every other record is left as it was: the merger
    writes once to each record, to [label], and to nothing else. *)
Theorem label_merger_sets_label_only
    (label_map : gmap string string) (recs : list ref) (σ : store) :
  (∀ p, p ∈ recs → ∃ rec s, objs σ !! p = Some rec ∧ rec !! "line_no" = Some (PyStr s)) →
  ∃ σ',
    attach_labels label_map recs σ = Ok σ' ∧
    (∀ p rec s,
       p ∈ recs → objs σ !! p = Some rec → rec !! "line_no" = Some (PyStr s) →
       deref σ' p !! "label" = Some (PyStr (default "" (label_map !! zfill 3 s))) ∧
       ∀ k, k ≠ "label" → deref σ' p !! k = rec !! k) ∧
    (∀ q, q ∉ recs → objs σ' !! q = objs σ !! q) ∧
    length (objs σ') = length (objs σ) ∧
    writes σ' = writes σ ++ map (fun p => (p, "label")) recs ∧
    (∀ s, all_digits s = true → zfill 3 s = zeros (3 - String.length s) +:+ s) ∧
    zfill 3 "1" = "001".
Proof.
  intros Hpre.
  destruct (attach_labels_spec label_map recs σ Hpre) as (σ' & Hrun & Hlen & Hw & Hframe & Hlab).
  exists σ'. split; [exact Hrun|]. split; [|split; [|split; [exact Hlen|split; [exact Hw|split]]]].
  - intros p rec s Hin Hp Hs. unfold deref. rewrite (Hlab p rec s Hp Hin Hs). simpl.
    split; [apply lookup_insert_eq|]. intros k Hk. by rewrite lookup_insert_ne.
  - intros q Hq. destruct (objs σ !! q) as [rec|] eqn:Hrec.
    + by apply Hframe.
    + apply lookup_ge_None in Hrec. apply lookup_ge_None. lia.
  - intros s. apply zfill_digits.
  - reflexivity.
Qed.

Lemma label_merger_sets_label_only_witness :
  ∃ σ',
    attach_labels {[ "001" := "Total population" ]} [0; 1]
      {| objs := [ {[ "line_no" := PyStr "1"; "total" := PyInt 7 ]};
                   {[ "line_no" := PyStr "002"; "total" := PyInt 8 ]};
                   {[ "line_no" := PyStr "001" ]} ];
         writes := [] |}
    = Ok σ' ∧
    deref σ' 0 !! "label" = Some (PyStr "Total population") ∧
    deref σ' 0 !! "total" = Some (PyInt 7) ∧
    deref σ' 1 !! "label" = Some (PyStr "") ∧
    objs σ' !! 2 = Some {[ "line_no" := PyStr "001" ]} ∧
    writes σ' = [(0, "label"); (1, "label")].
Proof.
  destruct (label_merger_sets_label_only {[ "001" := "Total population" ]} [0; 1]
              {| objs := [ {[ "line_no" := PyStr "1"; "total" := PyInt 7 ]};
                           {[ "line_no" := PyStr "002"; "total" := PyInt 8 ]};
                           {[ "line_no" := PyStr "001" ]} ];
                 writes := [] |})
    as (σ' & Ha & Hl & Hf & _ & Hw & _).
  - intros p Hp. apply elem_of_cons in Hp as [->|Hp].
    + exists {[ "line_no" := PyStr "1"; "total" := PyInt 7 ]}, "1".
      split; [reflexivity|vm_compute; reflexivity].
    + apply list_elem_of_singleton in Hp as ->.
      exists {[ "line_no" := PyStr "002"; "total" := PyInt 8 ]}, "002".
      split; [reflexivity|vm_compute; reflexivity].
  - exists σ'. split; [exact Ha|].
    destruct (Hl 0 {[ "line_no" := PyStr "1"; "total" := PyInt 7 ]} "1") as [Hl0 Hk0];
      [apply list_elem_of_here|reflexivity|vm_compute; reflexivity|].
    destruct (Hl 1 {[ "line_no" := PyStr "002"; "total" := PyInt 8 ]} "002") as [Hl1 _];
      [apply list_elem_of_further, list_elem_of_here|reflexivity|vm_compute; reflexivity|].
    split; [rewrite Hl0; vm_compute; reflexivity|].
    split; [rewrite Hk0 by discriminate; vm_compute; reflexivity|].
    split; [rewrite Hl1; vm_compute; reflexivity|].
    split; [|exact Hw].
    rewrite Hf; [reflexivity|].
    intros Hin. apply elem_of_cons in Hin as [Hin|Hin]; [discriminate Hin|].
    apply list_elem_of_singleton in Hin. discriminate Hin.
Defined.

(** ** The records of a unit: creation, labels, order *)

Lemma alloc_all_spec (rs : list record) :
  ∀ σ, alloc_all rs σ
       = (seq (length (objs σ)) (length rs),
          {| objs := objs σ ++ rs; writes := writes σ |}).
Proof.
  induction rs as [|r rs IH]; intros σ; simpl.
  - rewrite app_nil_r. by destruct σ.
  - rewrite IH. simpl. rewrite length_app. simpl.
    replace (length (objs σ) + 1) with (S (length (objs σ))) by lia.
    by rewrite <- app_assoc.
Qed.

(** Labelling objects that were just created, in their order. *)
Lemma attach_labels_fresh (label_map : gmap string string) (rs : list record) :
  ∀ (done_ : list record) (log_ : list (ref * string)),
  Forall (fun r => ∃ ln, label_key r = Ok ln) rs →
  attach_labels label_map (seq (length done_) (length rs))
    {| objs := done_ ++ rs; writes := log_ |}
  = Ok {| objs := done_ ++ map (with_label label_map) rs;
          writes := log_ ++ label_writes (length done_) (length rs) |}.
Proof.
  induction rs as [|r rs IH]; intros done_ log_ Hall; simpl.
  - unfold label_writes. simpl. by rewrite !app_nil_r.
  - apply Forall_cons in Hall as [[ln Hln] Hall].
    rewrite (attach_label_spec _ _ _ r ln); [|by apply list_lookup_middle|done].
    simpl. rewrite insert_app_r_alt by lia. rewrite Nat.sub_diag. simpl.
    specialize (IH (done_ ++ [with_label label_map r]) (log_ ++ [(length done_, "label")]) Hall).
    rewrite length_app in IH. simpl in IH.
    replace (length done_ + 1) with (S (length done_)) in IH by lia.
    rewrite <- !app_assoc in IH. simpl in IH.
    unfold with_label at 1 in IH. rewrite Hln in IH. rewrite IH. reflexivity.
Qed.

Lemma built_label_key (table : string) (headers : list string) (row : list cell)
    (recs : list record) (fns : list string) :
  build_records_for_row table headers row = Ok (recs, fns) →
  Forall (fun r => ∃ ln, label_key r = Ok ln) recs.
Proof.
  intros Hb. apply build_records_for_row_ok in Hb as (ids & cands & _ & Hc & -> & _).
  apply Forall_forall. intros r Hr. apply list_elem_of_filter in Hr as [_ Hr].
  apply list_elem_of_lookup in Hr as [i Hi].
  destruct (Forall2_lookup_r _ _ _ _ _ Hc Hi) as (ln & _ & Hrec).
  apply built_record in Hrec as (_ & _ & Hln & _).
  eexists. by apply label_key_str.
Qed.

Lemma built_from_label_key (table : string) (headers : list string)
    (rows : list (list cell)) (built : list (list record)) :
  built_from table headers rows built →
  Forall (fun r => ∃ ln, label_key r = Ok ln) (concat built).
Proof.
  induction 1 as [|row recs rows built Hb _ IH]; simpl; [constructor|].
  apply Forall_app. split; [by eapply built_label_key|done].
Qed.

(** The loop over the rows appends the records of each row to the store,
    labelled, and their references to the list. *)
Lemma rows_loop_built (table : string) (label_map : gmap string string)
    (headers : list string) (rows : list (list cell)) :
  ∀ (built : list (list record)) (all_records : list ref)
    (out_fieldnames : option (list string)) (σ : store),
  built_from table headers rows built →
  rows_loop table label_map headers rows all_records out_fieldnames σ
  = Ok (all_records ++ seq (length (objs σ)) (length (concat built)),
        match out_fieldnames, rows with
        | Some f, _ => Some f
        | None, [] => None
        | None, _ :: _ => Some (fieldnames (pick_schema table))
        end,
        {| objs := objs σ ++ map (with_label label_map) (concat built);
           writes := writes σ ++ label_writes (length (objs σ)) (length (concat built)) |}).
Proof.
  induction rows as [|row rows IH]; intros built all_records out σ Hb.
  - inversion Hb; subst. simpl. unfold label_writes. simpl.
    rewrite !app_nil_r. destruct σ, out; reflexivity.
  - inversion Hb as [|? recs ? built' Hrow Hrest]; subst. simpl.
    rewrite Hrow. simpl. rewrite alloc_all_spec.
    rewrite attach_labels_fresh by (by eapply built_label_key). simpl.
    rewrite (IH built' _ _ _ Hrest). simpl.
    unfold label_writes.
    rewrite ?length_app, ?length_map, ?map_app, ?seq_app, ?map_app, <- ?app_assoc.
    destruct out, rows; reflexivity.
Qed.

Lemma rows_loop_returns (table : string) (label_map : gmap string string)
    (headers : list string) (rows : list (list cell)) :
  ∀ (all_records : list ref) (out_fieldnames : option (list string)) (σ : store)
    (res : list ref * option (list string) * store),
  rows_loop table label_map headers rows all_records out_fieldnames σ = Ok res →
  ∃ built, built_from table headers rows built.
Proof.
  induction rows as [|row rows IH]; intros all_records out σ res Hres.
  - exists []. constructor.
  - simpl in Hres. apply bind_ok in Hres as ([recs fns] & Hrow & Hres).
    simpl in Hres. destruct (alloc_all recs σ) as [refs σ1].
    apply bind_ok in Hres as (σ2 & _ & Hres).
    apply IH in Hres as [built Hb]. exists (recs :: built). constructor; [|done].
    pose proof Hrow as Hfn.
    apply build_records_for_row_ok in Hfn as (_ & _ & _ & _ & _ & ->). done.
Qed.

(** *** The order of strings and of sort keys *)

Lemma str_ltb_leb (a b : string) : String.ltb a b = negb (String.leb b a).
Proof.
  unfold String.ltb, String.leb. rewrite (String.compare_antisym a b).
  destruct (String.compare b a); reflexivity.
Qed.

Lemma str_leb_trans (a b c : string) :
  String.leb a b = true → String.leb b c = true → String.leb a c = true.
Proof.
  intros H1 H2. apply Is_true_true. apply Is_true_true in H1, H2.
  change (String.le a c). by transitivity b.
Qed.

Lemma str_ltb_irrefl (a : string) : String.ltb a a = false.
Proof.
  rewrite str_ltb_leb. destruct (String.leb_total a a) as [->| ->]; reflexivity.
Qed.

Lemma str_ltb_asym (a b : string) : String.ltb a b = true → String.ltb b a = false.
Proof.
  rewrite !str_ltb_leb. intros H. apply negb_true_iff in H.
  destruct (String.leb_total a b) as [Hab|Hba]; [by rewrite Hab|congruence].
Qed.

Lemma str_ltb_negtrans (a b c : string) :
  String.ltb a c = true → String.ltb a b = true ∨ String.ltb b c = true.
Proof.
  rewrite !str_ltb_leb. intros H. apply negb_true_iff in H.
  destruct (String.leb b a) eqn:Hba; [|by left].
  destruct (String.leb c b) eqn:Hcb; [|by right].
  by rewrite (str_leb_trans _ _ _ Hcb Hba) in H.
Qed.

Lemma str_trichotomy (a b : string) :
  String.ltb a b = true ∨ a = b ∨ String.ltb b a = true.
Proof.
  unfold String.ltb. rewrite (String.compare_antisym b a).
  destruct (String.compare a b) eqn:Hc; simpl; auto.
  apply String.compare_eq_iff in Hc. auto.
Qed.

Lemma pair_ltb_true (a b : string * string) :
  pair_ltb a b = true ↔
  String.ltb a.1 b.1 = true ∨ (a.1 = b.1 ∧ String.ltb a.2 b.2 = true).
Proof.
  unfold pair_ltb. rewrite orb_true_iff, andb_true_iff, str_eqb_eq. reflexivity.
Qed.

Lemma pair_ltb_asym (a b : string * string) :
  pair_ltb a b = true → pair_ltb b a = false.
Proof.
  intros H. apply not_true_is_false. rewrite pair_ltb_true in *.
  intros [H'|[He H']]; destruct H as [H|[He' H]].
  - apply str_ltb_asym in H. congruence.
  - rewrite He', str_ltb_irrefl in H'. discriminate.
  - rewrite He, str_ltb_irrefl in H. discriminate.
  - apply str_ltb_asym in H. congruence.
Qed.

Lemma pair_ltb_negtrans (a b c : string * string) :
  pair_ltb a c = true → pair_ltb a b = true ∨ pair_ltb b c = true.
Proof.
  rewrite !pair_ltb_true. intros [H|[He H]].
  - destruct (str_ltb_negtrans _ b.1 _ H); auto.
  - destruct (str_trichotomy a.1 b.1) as [Hlt|[Heq|Hgt]]; [auto| |].
    + destruct (str_ltb_negtrans _ b.2 _ H); [auto|].
      right. right. split; congruence.
    + right. left. congruence.
Qed.

(** *** The sort *)

Section SortedBySorted.
Context {A K : Type} (key : A → K) (lt : K → K → bool).
Hypothesis lt_asym : ∀ a b, lt a b = true → lt b a = false.
Hypothesis lt_negtrans : ∀ a b c, lt a c = true → lt a b = true ∨ lt b c = true.

Abbreviation bef := (before key lt).

Lemma before_trans (a b c : A) : bef a b → bef b c → bef a c.
Proof.
  unfold before. intros Hab Hbc. apply not_true_is_false. intros Hca.
  destruct (lt_negtrans _ (key b) _ Hca); congruence.
Qed.

Lemma insert_sorted_sorted (x : A) (l : list A) :
  StronglySorted bef l → StronglySorted bef (insert_sorted key lt x l).
Proof.
  induction l as [|y l IH]; intros Hs; simpl.
  - repeat constructor.
  - apply StronglySorted_cons in Hs as [Hy Hs].
    destruct (lt (key y) (key x)) eqn:Hyx.
    + apply StronglySorted_cons. split; [|by apply IH].
      rewrite insert_sorted_perm. constructor; [|done].
      by apply lt_asym.
    + apply StronglySorted_cons. split.
      * constructor; [done|]. eapply Forall_impl; [exact Hy|].
        intros z Hz. by apply (before_trans x y z).
      * by apply StronglySorted_cons.
Qed.

Lemma sorted_by_sorted (l : list A) : StronglySorted bef (sorted_by key lt l).
Proof.
  induction l as [|x l IH]; simpl; [constructor|]. by apply insert_sorted_sorted.
Qed.

(** In a sorted list an element with a smaller key comes first. *)
Lemma sorted_by_smaller_first (l : list A) (i j : nat) (a b : A) :
  sorted_by key lt l !! i = Some a → sorted_by key lt l !! j = Some b →
  lt (key a) (key b) = true → i < j.
Proof.
  intros Hi Hj Hlt. pose proof (sorted_by_sorted l) as Hs.
  destruct (decide (i < j)) as [|Hge]; [done|]. exfalso.
  destruct (decide (i = j)) as [->|Hne].
  - assert (a = b) as -> by congruence.
    pose proof (lt_asym _ _ Hlt). congruence.
  - assert (j < i) as Hji by lia.
    assert (bef b a) as Hba; [|unfold before in Hba; congruence].
    revert Hs Hi Hj Hji. generalize (sorted_by key lt l). clear.
    intros s Hs. revert i j. induction Hs as [|x s Hs IH Hx]; intros i j Hi Hj Hji.
    + by rewrite lookup_nil in Hi.
    + destruct j as [|j], i as [|i]; try lia; simpl in *.
      * injection Hj as ->. rewrite Forall_forall in Hx. apply Hx.
        by eapply list_elem_of_lookup_2.
      * apply (IH i j); [done|done|lia].
Qed.
End SortedBySorted.

(** *** One unit *)

Lemma built_from_assembled (table : string) (headers : list string)
    (rows : list (list cell)) (built : list (list record)) :
  built_from table headers rows built → Forall (assembled table) (concat built).
Proof.
  induction 1 as [|row recs rows built Hb _ IH]; simpl; [constructor|].
  apply Forall_app. split; [|done].
  apply build_records_for_row_ok in Hb as (ids & cands & _ & Hc & -> & _).
  apply Forall_forall. intros r Hr. apply list_elem_of_filter in Hr as [_ Hr].
  apply list_elem_of_lookup in Hr as [i Hi].
  destruct (Forall2_lookup_r _ _ _ _ _ Hc Hi) as (ln & _ & Hrec).
  unfold assembled. eauto.
Qed.

Lemma get_or_empty_of_opt_str (rec : record) (k : string) (c : cell) :
  rec !! k = Some (of_opt_str c) → ∃ s, get_or_empty rec k = PyStr s.
Proof.
  intros H. unfold get_or_empty. rewrite H.
  destruct c as [[|? ?]|]; simpl; eauto.
Qed.

(** What the label merger makes of an assembled record: the same record
    with a label, which then has every field of the schema. *)
Lemma with_label_assembled (table : string) (label_map : gmap string string)
    (rec : record) :
  assembled table rec →
  ∃ l, with_label label_map rec = <["label" := PyStr l]> rec ∧
       rec !! "label" = None ∧
       dom rec = list_to_set (fieldnames (pick_schema table)) ∖ {["label"]} ∧
       dom (with_label label_map rec) = list_to_set (fieldnames (pick_schema table)) ∧
       is_Some (sort_key (with_label label_map rec)).
Proof.
  intros (geo_id & name & ln & getv & Hrec).
  apply built_record in Hrec as (Hg & Hn & Hln & Hl & _ & Hdom).
  unfold with_label. rewrite (label_key_str _ _ Hln).
  set (l := default "" (label_map !! zfill 3 ln)).
  exists l. split; [reflexivity|]. split; [done|]. split; [done|]. split.
  - rewrite dom_insert_L, Hdom.
    assert ("label" ∈ (list_to_set (fieldnames (pick_schema table)) : gset string)) as Hin.
    { destruct (schema_shape table) as (-> & _). unfold ID_FIELDS.
      rewrite list_to_set_app_L. simpl. set_solver. }
    apply set_eq. intros x. rewrite elem_of_union, elem_of_singleton, elem_of_difference,
      elem_of_singleton. destruct (decide (x = "label")) as [->|]; naive_solver.
  - unfold sort_key.
    destruct (get_or_empty_of_opt_str (<["label" := PyStr l]> rec) "GEO_ID" geo_id)
      as [g ->]; [by rewrite lookup_insert_ne|].
    destruct (get_or_empty_of_opt_str (<["label" := PyStr l]> rec) "line_no" (Some ln))
      as [l' ->]; [by rewrite lookup_insert_ne|].
    eauto.
Qed.

Lemma sort_records_labelled (table : string) (label_map : gmap string string)
    (created : list record) :
  Forall (assembled table) created →
  sort_records (labelled_store label_map created) (seq 0 (length created))
  = Ok (sorted_by (key_of (labelled_store label_map created)) pair_ltb
          (seq 0 (length created))).
Proof.
  intros Hall. unfold sort_records.
  assert (forallb (fun p => bool_decide (is_Some (sort_key
            (deref (labelled_store label_map created) p)))) (seq 0 (length created)) = true)
    as ->; [|done].
  apply forallb_forall. intros p Hp. apply list_elem_of_In, elem_of_seq in Hp.
  apply bool_decide_eq_true.
  destruct (lookup_lt_is_Some_2 created p) as [r Hr]; [lia|].
  unfold deref, labelled_store. simpl. rewrite list_lookup_fmap, Hr. simpl.
  rewrite Forall_forall in Hall.
  destruct (with_label_assembled table label_map r) as (_ & _ & _ & _ & _ & Hk); [|done].
  apply Hall. by eapply list_elem_of_lookup_2.
Qed.

(** A unit, once the assembler has returned on each of its rows. *)
Lemma process_unit_built (table : string) (label_map : gmap string string)
    (headers : list string) (rows : list (list cell)) (built : list (list record)) :
  built_from table headers rows built →
  let σ := labelled_store label_map (concat built) in
  let sorted := sorted_by (key_of σ) pair_ltb (seq 0 (length (concat built))) in
  process_unit table label_map headers rows
  = Ok {| final_store := σ; ordered := sorted;
          written := write_tidy_csv σ sorted (fieldnames (pick_schema table)) |}.
Proof.
  intros Hb σ sorted. unfold process_unit.
  assert (rows_loop table label_map headers rows [] None empty_store
          = Ok (seq 0 (length (concat built)),
                match rows with
                | [] => None
                | _ :: _ => Some (fieldnames (pick_schema table))
                end, σ)) as ->.
  { rewrite (rows_loop_built _ _ _ _ built) by done. reflexivity. }
  assert (sort_records σ (seq 0 (length (concat built))) = Ok sorted) as Hs.
  { apply (sort_records_labelled table). by eapply built_from_assembled. }
  cbn [mbind res_bind]. rewrite Hs. cbn [mbind res_bind]. by destruct rows.
Qed.

Lemma process_unit_ok (table : string) (label_map : gmap string string)
    (headers : list string) (rows : list (list cell)) (u : unit_result) :
  process_unit table label_map headers rows = Ok u →
  ∃ built,
    built_from table headers rows built ∧
    final_store u = labelled_store label_map (concat built) ∧
    ordered u = sorted_by (key_of (final_store u)) pair_ltb
                  (seq 0 (length (concat built))) ∧
    written u = write_tidy_csv (final_store u) (ordered u) (fieldnames (pick_schema table)).
Proof.
  intros Hu. pose proof Hu as Hu'. unfold process_unit in Hu'.
  apply bind_ok in Hu' as (acc & Hloop & _).
  apply rows_loop_returns in Hloop as [built Hb].
  rewrite (process_unit_built _ label_map _ _ _ Hb) in Hu. injection Hu as <-.
  exists built. done.
Qed.

Lemma process_unit_returns (table : string) (label_map : gmap string string)
    (headers : list string) (rows : list (list cell)) :
  Forall (fun row => length headers ≤ length row) rows →
  ∃ u, process_unit table label_map headers rows = Ok u.
Proof.
  intros Hlen.
  destruct (Forall2_total
              (fun row recs => length headers ≤ length row →
                 build_records_for_row table headers row
                 = Ok (recs, fieldnames (pick_schema table))) rows) as [built Hb].
  { intros row. destruct (decide (length headers ≤ length row)) as [H|H].
    - destruct (build_records_for_row_returns table headers row H) as [recs Hr]. eauto.
    - exists []. done. }
  eexists. apply (process_unit_built _ _ _ _ built).
  unfold built_from. clear -Hlen Hb. induction Hb as [|row recs rows built Hr Hb IH].
  - constructor.
  - apply Forall_cons in Hlen as [Hl Hlen]. constructor; auto.
Qed.

Lemma key_of_labelled (table : string) (label_map : gmap string string)
    (created : list record) (p : ref) :
  Forall (assembled table) created → p < length created →
  sort_key (deref (labelled_store label_map created) p)
  = Some (key_of (labelled_store label_map created) p).
Proof.
  intros Hall Hp. unfold key_of.
  destruct (lookup_lt_is_Some_2 created p Hp) as [r Hr].
  unfold deref, labelled_store. simpl. rewrite list_lookup_fmap, Hr. simpl.
  rewrite Forall_forall in Hall.
  destruct (with_label_assembled table label_map r) as (_ & _ & _ & _ & _ & [k ->]);
    [|done].
  apply Hall. by eapply list_elem_of_lookup_2.
Qed.

(** The key that the sort gives a record of a unit is the pair of its
    GEO_ID and its line number, a null GEO_ID counting as the empty
    string. *)
Lemma key_of_fields (table : string) (label_map : gmap string string)
    (created : list record) (p : ref) :
  Forall (assembled table) created → p < length created →
  let rec := deref (labelled_store label_map created) p in
  key_of (labelled_store label_map created) p
  = (field_str rec "GEO_ID", field_str rec "line_no") ∧
  (rec !! "GEO_ID" = Some PyNone ∨ ∃ g, rec !! "GEO_ID" = Some (PyStr g)) ∧
  (∃ l, rec !! "line_no" = Some (PyStr l)).
Proof.
  intros Hall Hp rec.
  destruct (lookup_lt_is_Some_2 created p Hp) as [r Hr].
  assert (assembled table r) as Hasm.
  { rewrite Forall_forall in Hall. apply Hall. by eapply list_elem_of_lookup_2. }
  destruct (with_label_assembled table label_map r Hasm) as (l & Hwl & _).
  assert (rec = <["label" := PyStr l]> r) as Hrec.
  { unfold rec, deref, labelled_store. simpl. by rewrite list_lookup_fmap, Hr, <- Hwl. }
  destruct Hasm as (geo_id & name & ln & getv & Hb).
  apply built_record in Hb as (Hg & _ & Hln & _).
  assert (rec !! "GEO_ID" = Some (of_opt_str geo_id)) as Hg'
    by (by rewrite Hrec, lookup_insert_ne).
  assert (rec !! "line_no" = Some (PyStr ln)) as Hln'
    by (by rewrite Hrec, lookup_insert_ne).
  split; [|split; [|eauto]].
  - unfold key_of. fold rec. unfold sort_key, get_or_empty, field_str.
    rewrite Hg', Hln'. destruct geo_id as [[|c g]|]; destruct ln as [|c' ln]; reflexivity.
  - rewrite Hg'. destruct geo_id as [g|]; simpl; eauto.
Qed.

Lemma key_le_pair_le (g1 l1 g2 l2 : string) :
  key_le (g1, l1) (g2, l2) → pair_le g1 l1 g2 l2.
Proof.
  unfold key_le, pair_le, pair_ltb, str_lt, str_le. simpl. intros H.
  apply orb_false_iff in H as [Hg H].
  destruct (str_trichotomy g1 g2) as [Hlt|[->|Hgt]]; [by left| |congruence].
  right. split; [done|]. unfold str_eqb in H. rewrite bool_decide_true in H by done.
  simpl in H. rewrite str_ltb_leb in H. by apply negb_false_iff in H.
Qed.

Lemma StronglySorted_map_elem_of {A B : Type} (R : A → A → Prop) (R' : B → B → Prop)
    (f : A → B) (l : list A) :
  (∀ x y, x ∈ l → y ∈ l → R x y → R' (f x) (f y)) →
  StronglySorted R l → StronglySorted R' (map f l).
Proof.
  induction l as [|x l IH]; intros Himp Hs; simpl; [constructor|].
  apply StronglySorted_cons in Hs as [Hx Hs]. constructor.
  - apply IH; [|done]. intros y z Hy Hz. apply Himp; by apply list_elem_of_further.
  - apply Forall_fmap, Forall_forall. intros y Hy. simpl. apply Himp.
    + apply list_elem_of_here.
    + by apply list_elem_of_further.
    + rewrite Forall_forall in Hx. by apply Hx.
Qed.

(** C6. Before it writes, the driver sorts the records of a unit, all rows
    together, by the pair (GEO_ID or "", line_no or "") of strings,
    ascending.  The written order is a permutation of the records; the key
    of a record is the pair of its own GEO_ID (a string, or null, which
    counts as "") and its own line number; no record stands before one with
    a smaller pair, and a record with a smaller pair stands first.  So a
    record with GEO_ID "A" and line "002" is written before one with GEO_ID
    "A" and line "010", and every record with GEO_ID "A" before every record
    with GEO_ID "B", whatever their lines.  The rows of the file are the
    rows of the records in that order.  The driver returns when every row
    is as long as the header list. *)
Theorem unit_sorted_by_geo_id_and_line_no
    (table : string) (label_map : gmap string string)
    (headers : list string) (rows : list (list cell)) :
  (Forall (fun row => length headers ≤ length row) rows →
   ∃ u, process_unit table label_map headers rows = Ok u) ∧
  (∀ u, process_unit table label_map headers rows = Ok u →
     let σ := final_store u in
     ordered u ≡ₚ seq 0 (length (objs σ)) ∧
     (∀ p, p ∈ ordered u → sort_key (deref σ p) = Some (key_of σ p)) ∧
     StronglySorted (fun p q => key_le (key_of σ p) (key_of σ q)) (ordered u) ∧
     (∀ i j p q,
        ordered u !! i = Some p → ordered u !! j = Some q →
        pair_ltb (key_of σ p) (key_of σ q) = true → i < j) ∧
     csv_rows (written u)
     = map (fun p => map (fun k => default PyNone (deref σ p !! k))
                         (csv_header (written u)))
           (ordered u) ∧
     (∀ p, p ∈ ordered u →
        key_of σ p = (field_str (deref σ p) "GEO_ID", field_str (deref σ p) "line_no") ∧
        (deref σ p !! "GEO_ID" = Some PyNone ∨
         ∃ g, deref σ p !! "GEO_ID" = Some (PyStr g)) ∧
        (∃ l, deref σ p !! "line_no" = Some (PyStr l))) ∧
     StronglySorted
       (fun r1 r2 => pair_le (field_str r1 "GEO_ID") (field_str r1 "line_no")
                             (field_str r2 "GEO_ID") (field_str r2 "line_no"))
       (written_records u) ∧
     (∀ i j r1 r2,
        written_records u !! i = Some r1 → written_records u !! j = Some r2 →
        str_lt (field_str r1 "GEO_ID") (field_str r2 "GEO_ID") ∨
        (field_str r1 "GEO_ID" = field_str r2 "GEO_ID" ∧
         str_lt (field_str r1 "line_no") (field_str r2 "line_no")) →
        i < j) ∧
     (∀ i j r1 r2,
        written_records u !! i = Some r1 → written_records u !! j = Some r2 →
        r1 !! "GEO_ID" = Some (PyStr "A") → r1 !! "line_no" = Some (PyStr "002") →
        r2 !! "GEO_ID" = Some (PyStr "A") → r2 !! "line_no" = Some (PyStr "010") →
        i < j) ∧
     (∀ i j r1 r2,
        written_records u !! i = Some r1 → written_records u !! j = Some r2 →
        r1 !! "GEO_ID" = Some (PyStr "A") → r2 !! "GEO_ID" = Some (PyStr "B") →
        i < j) ∧
     csv_rows (written u) = map (row_of (csv_header (written u))) (written_records u)) ∧
  pair_ltb ("A", "002") ("A", "010") = true ∧
  (∀ l1 l2, pair_ltb ("A", l1) ("B", l2) = true).
Proof.
  split; [apply process_unit_returns|]. split; [|split; [reflexivity|]].
  - intros u Hu σ.
    apply process_unit_ok in Hu as (built & Hb & Hσ & Ho & Hw).
    assert (length (objs σ) = length (concat built)) as Hlen.
    { unfold σ. rewrite Hσ. unfold labelled_store. simpl. apply length_map. }
    assert (Forall (assembled table) (concat built)) as Hasm
      by (by eapply built_from_assembled).
    assert (∀ p, p ∈ ordered u → p < length (concat built)) as Hrange.
    { intros p Hp. rewrite Ho, sorted_by_perm in Hp. apply elem_of_seq in Hp. lia. }
    assert (∀ p, p ∈ ordered u →
              key_of σ p = (field_str (deref σ p) "GEO_ID", field_str (deref σ p) "line_no") ∧
              (deref σ p !! "GEO_ID" = Some PyNone ∨
               ∃ g, deref σ p !! "GEO_ID" = Some (PyStr g)) ∧
              (∃ l, deref σ p !! "line_no" = Some (PyStr l))) as Hkey.
    { intros p Hp. unfold σ. rewrite Hσ.
      apply (key_of_fields table label_map (concat built) p Hasm (Hrange p Hp)). }
    assert (StronglySorted (fun p q => key_le (key_of σ p) (key_of σ q)) (ordered u))
      as Hsorted.
    { rewrite Ho. apply (sorted_by_sorted (key_of (final_store u)) pair_ltb).
      - apply pair_ltb_asym.
      - apply pair_ltb_negtrans. }
    assert (∀ i j p q,
              ordered u !! i = Some p → ordered u !! j = Some q →
              pair_ltb (key_of σ p) (key_of σ q) = true → i < j) as Hfirst.
    { intros i j p q Hi Hj Hlt. rewrite Ho in Hi, Hj.
      eapply (sorted_by_smaller_first (key_of (final_store u)) pair_ltb);
        eauto using pair_ltb_asym, pair_ltb_negtrans. }
    assert (∀ i r, written_records u !! i = Some r →
              ∃ p, ordered u !! i = Some p ∧ p ∈ ordered u ∧ r = deref σ p) as Hwr.
    { intros i r Hi. unfold written_records in Hi. rewrite list_lookup_fmap in Hi.
      destruct (ordered u !! i) as [p|] eqn:Hp; [|discriminate Hi].
      injection Hi as <-. exists p. split; [done|]. split; [|done].
      by eapply list_elem_of_lookup_2. }
    assert (∀ i j r1 r2,
              written_records u !! i = Some r1 → written_records u !! j = Some r2 →
              str_lt (field_str r1 "GEO_ID") (field_str r2 "GEO_ID") ∨
              (field_str r1 "GEO_ID" = field_str r2 "GEO_ID" ∧
               str_lt (field_str r1 "line_no") (field_str r2 "line_no")) →
              i < j) as Hrecs.
    { intros i j r1 r2 Hi Hj Hlt.
      destruct (Hwr i r1 Hi) as (p & Hp & Hpin & ->).
      destruct (Hwr j r2 Hj) as (q & Hq & Hqin & ->).
      apply (Hfirst i j p q Hp Hq).
      destruct (Hkey p Hpin) as [-> _]. destruct (Hkey q Hqin) as [-> _].
      apply pair_ltb_true. exact Hlt. }
    split; [rewrite Ho, Hlen; apply sorted_by_perm|].
    split.
    { intros p Hp. unfold σ. rewrite Hσ. apply (key_of_labelled table); [done|].
      by apply Hrange. }
    split; [exact Hsorted|]. split; [exact Hfirst|]. split; [by rewrite Hw|].
    split; [exact Hkey|]. split; [|split; [exact Hrecs|split; [|split]]].
    + unfold written_records.
      eapply StronglySorted_map_elem_of; [|exact Hsorted].
      intros p q Hp Hq Hle. simpl in Hle.
      destruct (Hkey p Hp) as [Hkp _]. destruct (Hkey q Hq) as [Hkq _].
      fold σ. rewrite Hkp, Hkq in Hle. by apply key_le_pair_le.
    + intros i j r1 r2 Hi Hj Hg1 Hl1 Hg2 Hl2. apply (Hrecs i j r1 r2 Hi Hj).
      right. unfold field_str. rewrite Hg1, Hl1, Hg2, Hl2. split; reflexivity.
    + intros i j r1 r2 Hi Hj Hg1 Hg2. apply (Hrecs i j r1 r2 Hi Hj).
      left. unfold field_str. rewrite Hg1, Hg2. reflexivity.
    + rewrite Hw. unfold write_tidy_csv, written_records, row_of. cbn [csv_rows csv_header].
      by rewrite map_map.
  - intros l1 l2. reflexivity.
Qed.

Lemma unit_sorted_by_geo_id_and_line_no_witness :
  ∃ u,
    process_unit "S0101" ∅ [ "GEO_ID"; "S0101_C01_010E"; "S0101_C01_002E" ]
      [ [ Some "B"; Some "1"; Some "2" ]; [ Some "A"; Some "3"; Some "4" ] ] = Ok u ∧
    StronglySorted
      (fun r1 r2 => pair_le (field_str r1 "GEO_ID") (field_str r1 "line_no")
                            (field_str r2 "GEO_ID") (field_str r2 "line_no"))
      (written_records u) ∧
    (∀ i j r1 r2,
       written_records u !! i = Some r1 → written_records u !! j = Some r2 →
       r1 !! "GEO_ID" = Some (PyStr "A") → r2 !! "GEO_ID" = Some (PyStr "B") →
       i < j).
Proof.
  destruct (unit_sorted_by_geo_id_and_line_no "S0101" ∅
              [ "GEO_ID"; "S0101_C01_010E"; "S0101_C01_002E" ]
              [ [ Some "B"; Some "1"; Some "2" ]; [ Some "A"; Some "3"; Some "4" ] ])
    as (Hret & Hsorted & _).
  destruct Hret as [u Hu].
  - repeat constructor; simpl; lia.
  - exists u. split; [exact Hu|].
    destruct (Hsorted u Hu) as (_ & _ & _ & _ & _ & _ & Hs & _ & _ & HAB & _).
    split; [exact Hs|exact HAB].
Defined.

(** C8, as the code has it.  A record comes out of the assembler with
    GEO_ID, NAME, line_no and the numeric fields of the schema, and without
    a label.  The driver then writes to each record once, at [label], and
    nowhere else; after that the record has exactly the fields of the
    schema, GEO_ID, NAME, line_no and label among them, and every field but
    the label is as the assembler made it. *)
Theorem records_written_once_at_label
    (table : string) (label_map : gmap string string)
    (headers : list string) (rows : list (list cell)) (u : unit_result) :
  process_unit table label_map headers rows = Ok u →
  ∃ built : list (list record),
    let created := concat built in
    let fields : gset string := list_to_set (fieldnames (pick_schema table)) in
    built_from table headers rows built ∧
    {[ "GEO_ID"; "NAME"; "line_no"; "label" ]} ⊆ fields ∧
    Forall (fun r => r !! "label" = None ∧ dom r = fields ∖ {["label"]}) created ∧
    Forall2 (fun r o => (∃ l, o = <["label" := PyStr l]> r) ∧ dom o = fields)
            created (objs (final_store u)) ∧
    writes (final_store u) = label_writes 0 (length created) ∧
    ordered u ≡ₚ seq 0 (length created).
Proof.
  intros Hu. apply process_unit_ok in Hu as (built & Hb & Hσ & Ho & _).
  exists built. intros created fields.
  pose proof (built_from_assembled _ _ _ _ Hb) as Hall. fold created in Hall.
  split; [done|]. split; [|split; [|split; [|split]]].
  - unfold fields. destruct (schema_shape table) as (-> & _). unfold ID_FIELDS.
    rewrite list_to_set_app_L. simpl. set_solver.
  - eapply Forall_impl; [exact Hall|]. intros r Hr.
    by destruct (with_label_assembled table label_map r Hr) as (_ & _ & ? & ? & _).
  - rewrite Hσ. unfold labelled_store. simpl. fold created.
    apply Forall2_fmap_r, Forall_Forall2_diag. eapply Forall_impl; [exact Hall|].
    intros r Hr.
    destruct (with_label_assembled table label_map r Hr) as (l & Heq & _ & _ & Hd & _).
    split; [by exists l|exact Hd].
  - by rewrite Hσ.
  - rewrite Ho. apply sorted_by_perm.
Qed.

Lemma records_written_once_at_label_witness :
  ∃ u,
    process_unit "S2801" {[ "001" := "Total households" ]}
      [ "GEO_ID"; "NAME"; "S2801_C01_001E" ]
      [ [ Some "1400000US48021950801"; Some "Census Tract 9508.01"; Some "1200" ] ]
    = Ok u ∧
    writes (final_store u) = [ (0, "label") ].
Proof.
  assert (match process_unit "S2801" {[ "001" := "Total households" ]}
                  [ "GEO_ID"; "NAME"; "S2801_C01_001E" ]
                  [ [ Some "1400000US48021950801"; Some "Census Tract 9508.01";
                      Some "1200" ] ] with
          | Ok u => length (objs (final_store u))
          | Raise _ => 0
          end = 1) as Hone by (vm_compute; reflexivity).
  destruct (process_unit "S2801" {[ "001" := "Total households" ]}
      [ "GEO_ID"; "NAME"; "S2801_C01_001E" ]
      [ [ Some "1400000US48021950801"; Some "Census Tract 9508.01"; Some "1200" ] ])
    as [u|e] eqn:Hu; [|discriminate Hone].
  destruct (records_written_once_at_label _ _ _ _ u Hu)
    as (built & Hb & _ & _ & Hobjs & Hw & _).
  exists u. split; [reflexivity|]. rewrite Hw.
  apply Forall2_length in Hobjs. rewrite Hobjs, Hone. reflexivity.
Defined.

(** The claim as written fails on the records that the assembler returns:
    they have no label yet. *)
Lemma assembled_record_has_no_label :
  ¬ (∀ (table : string) (headers : list string) (row : list cell)
       (recs : list record) (fns : list string) (rec : record),
       build_records_for_row table headers row = Ok (recs, fns) →
       rec ∈ recs → is_Some (rec !! "label")).
Proof.
  intros H.
  assert (match build_records_for_row "S0101" [ "GEO_ID"; "S0101_C01_001E" ]
                  [ Some "1400000US48021950801"; Some "1200" ] with
          | Ok (rs, _) => length rs
          | Raise _ => 0
          end = 1) as Hone by (vm_compute; reflexivity).
  destruct (build_records_for_row "S0101" [ "GEO_ID"; "S0101_C01_001E" ]
              [ Some "1400000US48021950801"; Some "1200" ])
    as [[recs fns]|e] eqn:Hb; [|discriminate Hone].
  destruct recs as [|rec recs]; [discriminate Hone|]. clear Hone.
  specialize (H _ _ _ _ _ rec Hb (list_elem_of_here _ _)).
  pose proof Hb as Hb'.
  apply build_records_for_row_ok in Hb' as (ids & cands & _ & Hc & Hf & _).
  assert (rec ∈ cands) as Hin.
  { assert (rec ∈ rec :: recs) as Hr by apply list_elem_of_here.
    rewrite Hf in Hr. by apply list_elem_of_filter in Hr as [_ ?]. }
  apply list_elem_of_lookup in Hin as [i Hi].
  destruct (Forall2_lookup_r _ _ _ _ _ Hc Hi) as (ln & _ & Hrec).
  apply built_record in Hrec as (_ & _ & _ & Hl & _).
  rewrite Hl in H. destruct H as [x Hx]. discriminate Hx.
Qed.

(** ** Fetching with retries *)

Lemma check_response_fails (o : get_outcome) (e : fetch_failure) :
  check_response o = inl e ↔ failure_of o e.
Proof.
  destruct o as [|status body]; simpl.
  - split; [by intros [= <-]|by intros ->].
  - destruct (decide (400 ≤ status < 600)%Z) as [H|H].
    + assert ((400 <=? status)%Z && (status <? 600)%Z = true) as ->.
      { apply andb_true_iff. split; [apply Z.leb_le|apply Z.ltb_lt]; lia. }
      split; [by intros [= <-]|by intros ->].
    + assert ((400 <=? status)%Z && (status <? 600)%Z = false) as ->.
      { apply not_true_is_false. rewrite andb_true_iff, Z.leb_le, Z.ltb_lt. lia. }
      destruct body as [j|]; [|split; [by intros [= <-]|by intros ->]].
      unfold list_headed_by_list.
      destruct j as [| | | | |[|[| | | | |h|] rest]|]; split.
      all: try (intros [= <-]; split; [intros (? & ? & [=])|done]).
      all: try (intros [_ ->]; reflexivity).
      * discriminate.
      * intros [Hn _]. exfalso. apply Hn. eauto.
Qed.

Lemma check_response_passes (o : get_outcome) (data : list json) :
  check_response o = inr data ↔
  ∃ status h rest,
    o = Response status (Some (JList (JList h :: rest))) ∧
    ¬ (400 ≤ status < 600)%Z ∧ data = JList h :: rest.
Proof.
  split.
  - destruct o as [|status body]; simpl; [discriminate|].
    destruct (decide (400 ≤ status < 600)%Z) as [H|H].
    + assert ((400 <=? status)%Z && (status <? 600)%Z = true) as ->; [|discriminate].
      apply andb_true_iff. split; [apply Z.leb_le|apply Z.ltb_lt]; lia.
    + destruct (_ && _); [discriminate|].
      destruct body as [[| | | | |[|[| | | | |h|] rest]|]|]; try discriminate.
      intros [= <-]. exists status, h, rest. done.
  - intros (status & h & rest & -> & Hs & ->). simpl.
    assert ((400 <=? status)%Z && (status <? 600)%Z = false) as ->; [|done].
    apply not_true_is_false. rewrite andb_true_iff, Z.leb_le, Z.ltb_lt. lia.
Qed.

Lemma sleep_ok (d : spec_float) (w : world) : pause_ok d → sleep d w = Ok (log (Sleep d) w).
Proof. destruct d as [s|s| |[] m e]; simpl; intros H; try done. Qed.

Section FetchLoop.
Context (net : nat → get_outcome) (year product table tract : string).
Context (backoff : spec_float).

Abbreviation the_url := (url year product).
Abbreviation the_get := (param_get table).
Abbreviation the_ucgid := (param_ucgid tract).

(** Attempts that fail one after the other, each followed by its pause,
    leave the loop where it would be had it started later. *)
Lemma fetch_attempts_failed_prefix (fails : list fetch_failure) :
  ∀ (pauses : list spec_float) (left : nat) (attempt : Z)
    (last_err : option fetch_failure) (w : world),
  length pauses = length fails →
  (∀ i e, fails !! i = Some e → check_response (net (requests w + i)) = inl e) →
  (∀ i d, pauses !! i = Some d →
          delay backoff (attempt + Z.of_nat i) = Ok d ∧ pause_ok d) →
  fetch_attempts net year product table tract backoff (length fails + left)
    attempt last_err w
  = fetch_attempts net year product table tract backoff left
      (attempt + Z.of_nat (length fails))
      (match last fails with Some e => Some e | None => last_err end)
      {| requests := requests w + length fails;
         trace := trace w ++ retry_trace the_url the_get the_ucgid pauses |}.
Proof.
  induction fails as [|e fails IH]; intros pauses left attempt last_err w Hlen Hf Hp.
  - destruct pauses; [|discriminate]. simpl.
    rewrite Z.add_0_r, Nat.add_0_r, app_nil_r. by destruct w.
  - destruct pauses as [|d pauses]; [discriminate|]. simpl in Hlen.
    cbn [length Nat.add fetch_attempts session_get].
    pose proof (Hf 0 e eq_refl) as H0. rewrite Nat.add_0_r in H0. rewrite H0.
    destruct (Hp 0 d eq_refl) as [Hd Hok]. rewrite Z.add_0_r in Hd. rewrite Hd.
    cbn [mbind res_bind]. rewrite (sleep_ok _ _ Hok).
    rewrite (IH pauses left (attempt + 1)%Z (Some e)); [|lia| |].
    + f_equal.
      * lia.
      * rewrite last_cons. destruct (last fails); reflexivity.
      * unfold log. cbn [requests trace]. f_equal; [lia|].
        rewrite <- !app_assoc. reflexivity.
    + intros i e' Hi. unfold log. cbn [requests].
      replace (S (requests w) + i) with (requests w + S i) by lia. by apply Hf.
    + intros i d' Hi.
      replace (attempt + 1 + Z.of_nat i)%Z with (attempt + Z.of_nat (S i))%Z by lia.
      by apply Hp.
Qed.

(** When every attempt fails the loop ends in [RuntimeError], after as
    many requests and pauses as there were attempts. *)
Lemma fetch_attempts_exhausted (fails : list fetch_failure) (pauses : list spec_float)
    (attempt : Z) (last_err : option fetch_failure) (w : world) :
  length pauses = length fails →
  (∀ i e, fails !! i = Some e → check_response (net (requests w + i)) = inl e) →
  (∀ i d, pauses !! i = Some d →
          delay backoff (attempt + Z.of_nat i) = Ok d ∧ pause_ok d) →
  fetch_attempts net year product table tract backoff (length fails)
    attempt last_err w
  = (Raise (RuntimeError table tract
              (match last fails with Some e => Some e | None => last_err end)),
     {| requests := requests w + length fails;
        trace := trace w ++ retry_trace the_url the_get the_ucgid pauses |}).
Proof.
  intros Hlen Hf Hp.
  pose proof (fetch_attempts_failed_prefix fails pauses 0 attempt last_err w Hlen Hf Hp)
    as H.
  rewrite Nat.add_0_r in H. rewrite H. reflexivity.
Qed.

(** When an attempt succeeds while attempts are left, the loop returns its
    data at once. *)
Lemma fetch_attempts_succeeds (fails : list fetch_failure) (pauses : list spec_float)
    (left : nat) (attempt : Z) (last_err : option fetch_failure) (w : world)
    (data : list json) :
  length pauses = length fails →
  (∀ i e, fails !! i = Some e → check_response (net (requests w + i)) = inl e) →
  (∀ i d, pauses !! i = Some d →
          delay backoff (attempt + Z.of_nat i) = Ok d ∧ pause_ok d) →
  check_response (net (requests w + length fails)) = inr data →
  fetch_attempts net year product table tract backoff (length fails + S left)
    attempt last_err w
  = (Ok data,
     {| requests := S (requests w + length fails);
        trace := trace w ++ retry_trace the_url the_get the_ucgid pauses
                 ++ [Get the_url the_get the_ucgid] |}).
Proof.
  intros Hlen Hf Hp Hok.
  rewrite (fetch_attempts_failed_prefix fails pauses (S left) attempt last_err w Hlen Hf Hp).
  cbn [fetch_attempts session_get requests trace]. rewrite Hok.
  by rewrite <- app_assoc.
Qed.
End FetchLoop.

(** The pauses of the default back-off: 0.8 s, 1.6 s and 2.4000000000000004 s. *)
Lemma default_pauses :
  delay default_backoff 0 = Ok f_0_8 ∧
  delay default_backoff 1 = Ok f_1_6 ∧
  delay default_backoff 2 = Ok f_2_4000000000000004 ∧
  pause_ok f_0_8 ∧ pause_ok f_1_6 ∧ pause_ok f_2_4000000000000004.
Proof.
  split; [|split; [|split; [|split; [|split]]]]; vm_compute;
    first [reflexivity | exact I].
Qed.

(** They are the floats of these decimal numerals. *)
Lemma pauses_are_decimals :
  float_of_decimal false 8 (-1) = f_0_8 ∧
  float_of_decimal false 16 (-1) = f_1_6 ∧
  float_of_decimal false 24000000000000004 (-16) = f_2_4000000000000004.
Proof. split; [|split]; vm_compute; reflexivity. Qed.

Lemma default_pauses_at (i : nat) (d : spec_float) :
  [f_0_8; f_1_6; f_2_4000000000000004] !! i = Some d →
  delay default_backoff (0 + Z.of_nat i) = Ok d ∧ pause_ok d.
Proof.
  destruct default_pauses as (Hd0 & Hd1 & Hd2 & Hp0 & Hp1 & Hp2).
  destruct i as [|[|[|i]]]; intros Hi.
  - injection Hi as <-. change (0 + Z.of_nat 0)%Z with 0%Z. split; [exact Hd0|exact Hp0].
  - injection Hi as <-. change (0 + Z.of_nat 1)%Z with 1%Z. split; [exact Hd1|exact Hp1].
  - injection Hi as <-. change (0 + Z.of_nat 2)%Z with 2%Z. split; [exact Hd2|exact Hp2].
  - discriminate Hi.
Qed.

(** *** The run stops at the first unit whose fetch fails *)

Section Abort.
Context (net : nat → get_outcome) (label_file : string → option (list label_row)).
Context (disk : nat → write_outcome) (stdout : nat → print_outcome).
Context (a : args).

Lemma do_unit_fetch_raises (table : string) (label_map : gmap string string)
    (tract : string) (w w' : world) (e : exn) :
  fetch_group_subject net (year a) (product a) table tract
    default_retries default_backoff w = (Raise e, w') →
  do_unit net disk stdout a table label_map tract w = Some (Raise e, w').
Proof. intros H. unfold do_unit. by rewrite H. Qed.

Lemma tracts_loop_abort (table : string) (label_map : gmap string string)
    (ts1 : list string) (tract : string) (ts2 : list string) (e : exn) :
  ∀ w w1 w2,
  tracts_loop net disk stdout a table label_map ts1 w = Some (Ok (), w1) →
  do_unit net disk stdout a table label_map tract w1 = Some (Raise e, w2) →
  tracts_loop net disk stdout a table label_map (ts1 ++ tract :: ts2) w
  = Some (Raise e, w2).
Proof.
  induction ts1 as [|t ts1 IH]; intros w w1 w2 H1 H2; simpl in *.
  - injection H1 as <-. by rewrite H2.
  - destruct (do_unit net disk stdout a table label_map t w) as [[[[]|e'] w']|];
      [|discriminate H1|discriminate H1]. by eapply IH.
Qed.

Lemma tables_loop_abort (tb1 : list string) (table : string) (tb2 : list string)
    (e : exn) :
  ∀ w w1 w2,
  tables_loop net label_file disk stdout a tb1 w = Some (Ok (), w1) →
  tracts_loop net disk stdout a table (load_label_map_for_table (label_file table))
    (tracts a) w1
  = Some (Raise e, w2) →
  tables_loop net label_file disk stdout a (tb1 ++ table :: tb2) w = Some (Raise e, w2).
Proof.
  induction tb1 as [|t tb1 IH]; intros w w1 w2 H1 H2; simpl in *.
  - injection H1 as <-. by rewrite H2.
  - destruct (tracts_loop net disk stdout a t _ (tracts a) w) as [[[[]|e'] w']|];
      [|discriminate H1|discriminate H1]. by eapply IH.
Qed.
End Abort.

(** C9, as the code has it.  An attempt fails on a network error, on a
    status code from 400 to 599, on a body that is not JSON, and on a JSON
    body that is not a non-empty list with a list as its first element.
    With the defaults, three attempts in a row that fail are three
    requests, followed by pauses of 0.8, 1.6 and 2.4000000000000004 seconds
    (the back-off times the number of the attempt), and then a
    [RuntimeError] with the last failure; an attempt that succeeds returns
    its data at once.  The same holds for every number of retries and every
    back-off whose pauses [time.sleep] accepts.  [main] does not catch the
    error: the run ends there, with no later unit fetched or written. *)
Theorem fetch_retries_then_aborts :
  (∀ o e, check_response o = inl e ↔ failure_of o e) ∧
  (∀ backoff k f, py_float_of_int (k + 1) = Ok f →
     delay backoff k = Ok (SFmul prec emax backoff f)) ∧
  (∀ net year product table tract w e0 e1 e2,
     failure_of (net (requests w)) e0 →
     failure_of (net (requests w + 1)) e1 →
     failure_of (net (requests w + 2)) e2 →
     fetch_group_subject net year product table tract default_retries default_backoff w
     = (Raise (RuntimeError table tract (Some e2)),
        {| requests := requests w + 3;
           trace := trace w ++ retry_trace (url year product) (param_get table)
                                (param_ucgid tract)
                                [f_0_8; f_1_6; f_2_4000000000000004] |})) ∧
  (∀ net year product table tract w fails data,
     length fails < 3 →
     (∀ i e, fails !! i = Some e → failure_of (net (requests w + i)) e) →
     check_response (net (requests w + length fails)) = inr data →
     fetch_group_subject net year product table tract default_retries default_backoff w
     = (Ok data,
        {| requests := S (requests w + length fails);
           trace := trace w ++ retry_trace (url year product) (param_get table)
                                (param_ucgid tract)
                                (take (length fails) [f_0_8; f_1_6; f_2_4000000000000004])
                    ++ [Get (url year product) (param_get table) (param_ucgid tract)] |})) ∧
  (∀ net year product table tract backoff w fails pauses,
     length pauses = length fails →
     (∀ i e, fails !! i = Some e → failure_of (net (requests w + i)) e) →
     (∀ i d, pauses !! i = Some d → delay backoff (Z.of_nat i) = Ok d ∧ pause_ok d) →
     fetch_group_subject net year product table tract (Z.of_nat (length fails)) backoff w
     = (Raise (RuntimeError table tract (last fails)),
        {| requests := requests w + length fails;
           trace := trace w ++ retry_trace (url year product) (param_get table)
                                (param_ucgid tract) pauses |})) ∧
  (∀ net label_file disk stdout a tb1 table tb2 ts1 tract ts2 w0 w w' e,
     tables a = tb1 ++ table :: tb2 →
     tracts a = ts1 ++ tract :: ts2 →
     tables_loop net label_file disk stdout a tb1 start = Some (Ok (), w0) →
     tracts_loop net disk stdout a table (load_label_map_for_table (label_file table))
       ts1 w0
     = Some (Ok (), w) →
     fetch_group_subject net (year a) (product a) table tract
       default_retries default_backoff w = (Raise e, w') →
     main net label_file disk stdout a = Some (Raise e, w')).
Proof.
  pose proof default_pauses_at as Hdefault.
  split; [apply check_response_fails|]. split; [|split; [|split; [|split]]].
  - intros backoff k f Hf. unfold delay. by rewrite Hf.
  - intros net year product table tract w e0 e1 e2 H0 H1 H2.
    unfold fetch_group_subject, default_retries.
    apply (fetch_attempts_exhausted net year product table tract default_backoff
             [e0; e1; e2] [f_0_8; f_1_6; f_2_4000000000000004] 0 None w eq_refl).
    + intros [|[|[|i]]] e Hi; simpl in Hi; try discriminate Hi; injection Hi as <-;
        apply check_response_fails; by rewrite ?Nat.add_0_r.
    + intros i d Hi. by apply Hdefault.
  - intros net year product table tract w fails data Hlen Hf Hok.
    unfold fetch_group_subject, default_retries.
    replace (Z.to_nat 3) with (length fails + S (2 - length fails)) by lia.
    apply fetch_attempts_succeeds; [| | |done].
    + rewrite length_take. simpl. lia.
    + intros i e Hi. apply check_response_fails. by apply Hf.
    + intros i d Hi. apply lookup_take_Some in Hi as [Hi _]. by apply Hdefault.
  - intros net year product table tract backoff w fails pauses Hlen Hf Hp.
    unfold fetch_group_subject. rewrite Nat2Z.id.
    rewrite (fetch_attempts_exhausted net year product table tract backoff fails pauses
               0 None w Hlen).
    + by destruct (last fails).
    + intros i e Hi. apply check_response_fails. by apply Hf.
    + intros i d Hi. rewrite Z.add_0_l. by apply Hp.
  - intros net label_file disk stdout a tb1 table tb2 ts1 tract ts2 w0 w w' e
      Htb Hts H0 H1 Hf.
    unfold main. rewrite Htb.
    eapply tables_loop_abort; [exact H0|]. rewrite Hts.
    eapply tracts_loop_abort; [exact H1|]. by apply do_unit_fetch_raises.
Qed.

Lemma fetch_retries_then_aborts_witness :
  main (fun _ => Response 503 None) (fun _ => None) (fun _ => Written) (fun _ => Printed)
    {| year := "2019"; product := "acs5"; tables := ["S0101"; "S1701"];
       tracts := ["48021950801"] |}
  = Some (Raise (RuntimeError "S0101" "48021950801" (Some (HTTPError 503))),
          {| requests := 3;
             trace := retry_trace (url "2019" "acs5") (param_get "S0101")
                        (param_ucgid "48021950801")
                        [f_0_8; f_1_6; f_2_4000000000000004] |}).
Proof.
  destruct fetch_retries_then_aborts as (_ & _ & Hthree & _ & _ & Habort).
  apply (Habort _ _ _ _ _ [] "S0101" ["S1701"] [] "48021950801" [] start start);
    [reflexivity|reflexivity|reflexivity|reflexivity|].
  apply (Hthree (fun _ => Response 503 None) "2019" "acs5" "S0101" "48021950801" start
           (HTTPError 503) (HTTPError 503) (HTTPError 503));
    vm_compute; reflexivity.
Defined.

(** The claim as written fails on a body whose first element is a list and
    whose second is not: it is not a list of lists, and the attempt
    succeeds. *)
Lemma stray_element_is_not_a_failure :
  ¬ (∀ (status : Z) (j : json),
       ¬ list_of_lists j → ∃ e, check_response (Response status (Some j)) = inl e).
Proof.
  intros H.
  destruct (H 200%Z (JList [JList [JStr "GEO_ID"]; JInt 7])) as [e He].
  - intros (l & [= <-] & _ & Hall).
    apply Forall_cons in Hall as [_ Hall]. apply Forall_cons in Hall as [[r Hr] _].
    discriminate Hr.
  - simpl in He. discriminate He.
Qed.

(** * Further properties *)

(** ** Value normaliser *)

(** X1. What [clean_num] returns is [None], an integer, or a float that is
    a number of the format and fails the integrality test: never a string,
    an infinity or NaN. *)
Theorem clean_num_range (x : option string) (v : pyval) :
  clean_num x = Ok v →
  match v with
  | PyNone => True
  | PyInt i => ∃ s f, x = Some s ∧ py_float (strip s) = Ok f ∧
                      is_number f = true ∧ near_integer f = true ∧ i = trunc f
  | PyFloat f => ∃ s, x = Some s ∧ py_float (strip s) = Ok f ∧
                      is_number f = true ∧ in_format f ∧ near_integer f = false
  | PyStr _ => False
  end.
Proof.
  destruct x as [s|]; simpl; [|by intros [= <-]].
  destruct (_ || _); [by intros [= <-]|].
  unfold clean_num_try.
  destruct (py_float (strip s)) as [f|e] eqn:Hf; simpl; [|by intros [= <-]].
  destruct (is_number f) eqn:Hn.
  - rewrite (py_int_trunc f Hn). cbn [mbind res_bind].
    rewrite (py_float_of_int_trunc f (py_float_in_format _ _ Hf) Hn).
    cbn [mbind res_bind]. fold (near_integer f).
    destruct (near_integer f) eqn:Hi; intros [= <-].
    + exists s, f. done.
    + exists s. split; [done|]. split; [done|]. split; [done|].
      split; [by eapply py_float_in_format|done].
  - destruct f; try discriminate Hn; simpl; by intros [= <-].
Qed.

Lemma clean_num_range_witness :
  ∃ s, Some "0.25" = Some s ∧
       py_float (strip s) = Ok (float_of_decimal false 25 (-2)) ∧
       is_number (float_of_decimal false 25 (-2)) = true ∧
       in_format (float_of_decimal false 25 (-2)) ∧
       near_integer (float_of_decimal false 25 (-2)) = false.
Proof.
  apply (clean_num_range (Some "0.25") (PyFloat (float_of_decimal false 25 (-2)))).
  vm_compute. reflexivity.
Defined.

Lemma lstrip_all_space (sp : ascii → bool) (l s : string) :
  (∀ c, isspace c = true → sp c = true) →
  all_space l = true → lstrip_with sp (l +:+ s) = lstrip_with sp s.
Proof.
  intros Hsp. induction l as [|c l IH]; intros Hl; norm_app; [done|].
  simpl in Hl. apply andb_true_iff in Hl as [Hc Hl].
  simpl. rewrite (Hsp c Hc). by apply IH.
Qed.

Lemma rstrip_all_space_nil (r : string) :
  all_space r = true → rstrip_with isspace r = "".
Proof.
  induction r as [|c r IH]; intros Hr; [done|].
  simpl in Hr. apply andb_true_iff in Hr as [Hc Hr].
  simpl. rewrite (IH Hr), Hc. reflexivity.
Qed.

Lemma rstrip_all_space (s r : string) :
  all_space r = true → rstrip_with isspace (s +:+ r) = rstrip_with isspace s.
Proof.
  intros Hr. induction s as [|c s IH]; norm_app.
  - by rewrite rstrip_all_space_nil.
  - simpl. by rewrite IH.
Qed.

Lemma lstrip_all_space_nil (r : string) :
  all_space r = true → lstrip_with isspace r = "".
Proof.
  induction r as [|c r IH]; intros Hr; [done|].
  simpl in Hr. apply andb_true_iff in Hr as [Hc Hr]. simpl. rewrite Hc. by apply IH.
Qed.

Lemma strip_padded (l s r : string) :
  all_space l = true → all_space r = true → strip (l +:+ s +:+ r) = strip s.
Proof.
  intros Hl Hr. unfold strip. rewrite lstrip_all_space by done.
  clear l Hl. induction s as [|c s IH]; norm_app.
  - by rewrite lstrip_all_space_nil.
  - simpl. destruct (isspace c); [exact IH|].
    change (String c (s +:+ r)) with (String c s +:+ r). by apply rstrip_all_space.
Qed.

(** X2. White space around a cell does not change its value. *)
Theorem clean_num_ignores_padding (l s r : string) :
  all_space l = true → all_space r = true →
  clean_num (Some (l +:+ s +:+ r)) = clean_num (Some s).
Proof.
  intros Hl Hr. unfold clean_num. by rewrite strip_padded.
Qed.

Lemma clean_num_ignores_padding_witness :
  clean_num (Some ("  " +:+ "1200" +:+ String (ascii_of_N 9) (String (ascii_of_N 160) "")))
  = clean_num (Some "1200").
Proof. apply clean_num_ignores_padding; reflexivity. Defined.

(** ** Header decoder *)

(** X3. Every entry of the decoded map is sound: its key is a coordinate of
    the convention, its value is a position of the header list, and the
    header there spells the key for this table (a final line feed
    apart). *)
Theorem parse_headers_entries_sound (table : string) (headers : list string)
    (c : coord) (i : nat) :
  parse_headers_for_table table headers !! c = Some i →
  is_coord c ∧ i < length headers ∧
  (headers !! i = Some (header_name table c) ∨
   headers !! i = Some (header_name table c +:+ LF)).
Proof.
  intros H. apply parse_headers_for_table_lookup in H as (h & Hi & Hc & _).
  apply header_coord_spec in Hc as [Hic Hh].
  split; [done|]. split; [by eapply lookup_lt_Some|].
  destruct Hh as [<-|<-]; auto.
Qed.

Lemma parse_headers_entries_sound_witness :
  is_coord ("03", "012", "M") ∧ 1 < 2 ∧
  ([ "NAME"; "S1701_C03_012M" ] !! 1 = Some (header_name "S1701" ("03", "012", "M")) ∨
   [ "NAME"; "S1701_C03_012M" ] !! 1 = Some (header_name "S1701" ("03", "012", "M") +:+ LF)).
Proof.
  apply (parse_headers_entries_sound "S1701" [ "NAME"; "S1701_C03_012M" ]).
  vm_compute. reflexivity.
Defined.

(** ** Row identifiers *)

Lemma safe_idx_Some (headers : list string) (c : string) (i : nat) :
  safe_idx headers c = Some i ↔ first_at headers c i.
Proof.
  unfold first_at. revert i. induction headers as [|h hs IH]; intros i; simpl.
  - split; [discriminate|]. intros [H _]. by rewrite lookup_nil in H.
  - destruct (str_eqb h c) eqn:E.
    + apply str_eqb_eq in E as ->. split.
      * intros [= <-]. split; [done|]. intros j Hj. lia.
      * intros [Hi Hfirst]. destruct i as [|i]; [done|].
        exfalso. apply (Hfirst 0); [lia|done].
    + assert (h ≠ c) as Hne by (intros ->; unfold str_eqb in E;
                                 by rewrite bool_decide_true in E).
      destruct (safe_idx hs c) as [k|]; simpl.
      * split.
        -- intros [= <-]. destruct (proj1 (IH k) eq_refl) as [Hk Hfirst].
           split; [done|].
           intros [|j] Hj; simpl; [congruence|]. apply Hfirst. lia.
        -- intros [Hi Hfirst]. destruct i as [|i]; simpl in Hi; [congruence|].
           assert (Some k = Some i) as [= ->]; [|done].
           apply IH. split; [done|]. intros j Hj. apply (Hfirst (S j)). lia.
      * split; [discriminate|]. intros [Hi Hfirst].
        destruct i as [|i]; simpl in Hi; [congruence|].
        assert (@None nat = Some i) as Habs; [|discriminate].
        apply IH. split; [done|]. intros j Hj. apply (Hfirst (S j)). lia.
Qed.

Lemma safe_idx_None (headers : list string) (c : string) :
  safe_idx headers c = None ↔ c ∉ headers.
Proof.
  induction headers as [|h hs IH]; simpl.
  - split; [intros _; apply not_elem_of_nil|done].
  - rewrite not_elem_of_cons. destruct (str_eqb h c) eqn:E.
    + apply str_eqb_eq in E. split; [discriminate|]. intros [Hne _]. congruence.
    + assert (c ≠ h) as Hne by (intros ->; unfold str_eqb in E;
                                 by rewrite bool_decide_true in E).
      destruct (safe_idx hs c); simpl.
      * split; [discriminate|]. intros [_ H]. by apply IH in H.
      * split; [intros _; split; [done|by apply IH]|done].
Qed.

Lemma id_lookup (headers : list string) (row : list cell) (c : string) (r : res cell) :
  match safe_idx headers c with
  | Some i => getitem row i
  | None => Ok None
  end = r →
  match r with
  | Ok x => id_cell headers row c x
  | Raise e => e = IndexError ∧ ∃ i, first_at headers c i ∧ length row ≤ i
  end.
Proof.
  destruct (safe_idx headers c) as [i|] eqn:Hi.
  - apply safe_idx_Some in Hi. unfold getitem.
    destruct (row !! i) as [x|] eqn:Hx; intros <-.
    + right. eauto.
    + split; [done|]. exists i. split; [done|]. by apply lookup_ge_None.
  - intros <-. left. split; [by apply safe_idx_None|done].
Qed.

(** X4. [row_ids] reads GEO_ID and NAME under the first header of that
    name; an identifier without a header is [None]; the only error is
    [IndexError], when the row ends before the position of such a header. *)
Theorem row_ids_first_header (headers : list string) (row : list cell) :
  match row_ids headers row with
  | Ok (geo_id, name) =>
      id_cell headers row "GEO_ID" geo_id ∧ id_cell headers row "NAME" name
  | Raise e =>
      e = IndexError ∧
      ∃ c i, (c = "GEO_ID" ∨ c = "NAME") ∧ first_at headers c i ∧ length row ≤ i
  end.
Proof.
  unfold row_ids.
  pose proof (id_lookup headers row "GEO_ID" _ eq_refl) as Hg.
  pose proof (id_lookup headers row "NAME" _ eq_refl) as Hn.
  destruct (match safe_idx headers "GEO_ID" with
            | Some i => getitem row i | None => Ok None end) as [g|e]; simpl.
  - destruct (match safe_idx headers "NAME" with
              | Some i => getitem row i | None => Ok None end) as [n|e]; simpl.
    + done.
    + destruct Hn as (-> & i & Hi & Hlen). split; [done|]. exists "NAME", i. auto.
  - destruct Hg as (-> & i & Hi & Hlen). split; [done|]. exists "GEO_ID", i. auto.
Qed.

(** ** Record assembler *)

Lemma StronglySorted_sublist {A : Type} (R : A → A → Prop) (l1 l2 : list A) :
  l1 `sublist_of` l2 → StronglySorted R l2 → StronglySorted R l1.
Proof.
  induction 1 as [|x l1 l2 Hsub IH|x l1 l2 Hsub IH]; intros Hs.
  - constructor.
  - apply StronglySorted_cons in Hs as [Hx Hs]. apply StronglySorted_cons.
    split; [|by apply IH]. rewrite Forall_forall in *.
    intros y Hy. apply Hx. by eapply elem_of_sublist.
  - apply StronglySorted_cons in Hs as [_ Hs]. by apply IH.
Qed.

Lemma StronglySorted_strict {A : Type} (R : A → A → Prop) (l : list A) :
  StronglySorted R l → NoDup l → StronglySorted (fun a b => R a b ∧ a ≠ b) l.
Proof.
  induction 1 as [|x l Hs IH Hx]; intros Hnd; [constructor|].
  apply NoDup_cons in Hnd as [Hin Hnd]. constructor; [by apply IH|].
  rewrite Forall_forall in *. intros y Hy. split; [by apply Hx|].
  intros ->. done.
Qed.

(** The discovered line numbers stand in strictly ascending order. *)
Lemma discover_line_nos_ascending (fm : gmap coord nat) :
  StronglySorted str_lt (discover_line_nos fm).
Proof.
  pose proof (discover_line_nos_NoDup fm) as Hnd. unfold discover_line_nos in *.
  pose proof (sorted_by_sorted id String.ltb str_ltb_asym str_ltb_negtrans
                (elements (set_map (fun k : coord => k.1.2) (dom fm) : gset string)))
    as Hs.
  pose proof (StronglySorted_strict _ _ Hs Hnd) as Hstrict.
  clear -Hstrict. induction Hstrict as [|x l _ IH Hx]; constructor; [done|].
  eapply Forall_impl; [exact Hx|]. intros y [Hb Hne]. unfold before in Hb. simpl in Hb.
  unfold str_lt. destruct (str_trichotomy x y) as [H|[H|H]]; [done|done|congruence].
Qed.

Lemma filter_Forall2_sublist {A B : Type} (R : A → B → Prop) (P : B → Prop)
    `{∀ x, Decision (P x)} (l : list A) (k : list B) :
  Forall2 R l k → ∃ l', l' `sublist_of` l ∧ Forall2 R l' (filter P k).
Proof.
  induction 1 as [|a b l k Hab _ (l' & Hsub & Hf)].
  - exists []. split; [constructor|constructor].
  - rewrite filter_cons. destruct (decide (P b)).
    + exists (a :: l'). split; [by constructor|by constructor].
    + exists l'. split; [by constructor|done].
Qed.

(** X5. The records of a row come in strictly ascending order of their
    line numbers, which are discovered line numbers: no line number occurs
    twice. *)
Theorem records_in_ascending_line_order (table : string) (headers : list string)
    (row : list cell) (recs : list record) (fns : list string) :
  build_records_for_row table headers row = Ok (recs, fns) →
  ∃ lns,
    Forall2 at_line lns recs ∧
    StronglySorted str_lt lns ∧
    lns `sublist_of` discover_line_nos (parse_headers_for_table table headers).
Proof.
  intros Hb. apply build_records_for_row_ok in Hb as (ids & cands & _ & Hc & -> & _).
  unfold candidates in Hc. cbn zeta in Hc.
  destruct (filter_Forall2_sublist _ (fun rec => keep rec = true) _ _ Hc)
    as (lns & Hsub & Hf).
  exists lns. split; [|split; [|done]].
  - eapply Forall2_impl; [exact Hf|]. intros ln rec Hrec.
    by apply built_record in Hrec as (_ & _ & ? & _).
  - eapply StronglySorted_sublist; [exact Hsub|]. apply discover_line_nos_ascending.
Qed.

Lemma records_in_ascending_line_order_witness :
  ∃ recs lns,
    build_records_for_row "S0101"
      [ "S0101_C01_010E"; "GEO_ID"; "S0101_C01_002E" ]
      [ Some "7"; Some "1400000US48021950801"; Some "9" ]
    = Ok (recs, DEFAULT_FIELDNAMES) ∧
    Forall2 at_line lns recs ∧ StronglySorted str_lt lns.
Proof.
  destruct (build_records_for_row_returns "S0101"
              [ "S0101_C01_010E"; "GEO_ID"; "S0101_C01_002E" ]
              [ Some "7"; Some "1400000US48021950801"; Some "9" ]) as [recs Hb];
    [simpl; lia|].
  destruct (records_in_ascending_line_order _ _ _ _ _ Hb) as (lns & Hf & Hs & _).
  exists recs, lns. split; [exact Hb|]. split; [exact Hf|exact Hs].
Defined.

Lemma parse_headers_none (table : string) (headers : list string) :
  Forall (fun h => header_coord table h = None) headers →
  parse_headers_for_table table headers = ∅.
Proof.
  intros Hall. apply map_eq. intros c. rewrite lookup_empty.
  destruct (parse_headers_for_table table headers !! c) as [i|] eqn:Hi; [|done].
  apply parse_headers_for_table_lookup in Hi as (h & Hh & Hc & _).
  rewrite Forall_forall in Hall. rewrite (Hall h) in Hc; [done|].
  by eapply list_elem_of_lookup_2.
Qed.

(** X6. When no header carries a column of the table (another table's
    response, say) the assembler returns no record and the field names of the
    schema; it fails only where [row_ids] fails. *)
Theorem no_matching_header_no_record (table : string) (headers : list string)
    (row : list cell) :
  Forall (fun h => header_coord table h = None) headers →
  build_records_for_row table headers row
  = ids ← row_ids headers row; Ok ([], fieldnames (pick_schema table)).
Proof.
  intros Hall. unfold build_records_for_row.
  rewrite (parse_headers_none _ _ Hall).
  assert (discover_line_nos ∅ = []) as ->.
  { unfold discover_line_nos. rewrite dom_empty_L, set_map_empty, elements_empty.
    reflexivity. }
  reflexivity.
Qed.

Lemma no_matching_header_no_record_witness :
  build_records_for_row "S1701" [ "GEO_ID"; "S0101_C01_001E"; "S1701_C01_01E" ]
    [ Some "1400000US48021950801"; Some "7"; Some "8" ]
  = Ok ([], fieldnames (pick_schema "S1701")).
Proof.
  refine (eq_trans (no_matching_header_no_record "S1701" _ _ _) _).
  - repeat constructor.
  - reflexivity.
Defined.

Lemma getv_of_decoded (fieldmap : gmap coord nat) (row : list cell)
    (group kind ln : string) (v : pyval) :
  getv_of fieldmap row group kind ln = Ok v → decoded fieldmap row group kind ln v.
Proof.
  unfold getv_of, decoded. destruct (fieldmap !! (group, ln, kind)) as [col|].
  - intros H. apply bind_ok in H as (x & Hx & Hv). unfold getitem in Hx.
    destruct (row !! col) as [y|]; [|discriminate]. injection Hx as ->. eauto.
  - by intros [= <-].
Qed.

(** X7. What a returned record holds: the line number of a discovered line,
    the two identifiers of the row, and in each numeric field of the schema
    the normalised cell under the header of its group and kind at that
    line, or [None] when the response has no such header. *)
Theorem record_fields_from_cells (table : string) (headers : list string)
    (row : list cell) (recs : list record) (fns : list string) (rec : record) :
  build_records_for_row table headers row = Ok (recs, fns) → rec ∈ recs →
  let fieldmap := parse_headers_for_table table headers in
  ∃ geo_id name ln,
    row_ids headers row = Ok (geo_id, name) ∧
    ln ∈ discover_line_nos fieldmap ∧
    rec !! "GEO_ID" = Some (of_opt_str geo_id) ∧
    rec !! "NAME" = Some (of_opt_str name) ∧
    rec !! "line_no" = Some (PyStr ln) ∧
    ∀ f group kind, (f, (group, kind)) ∈ columns_of table →
      ∃ v, rec !! f = Some v ∧ decoded fieldmap row group kind ln v.
Proof.
  intros Hb Hrec fieldmap.
  apply build_records_for_row_ok in Hb as ([geo_id name] & cands & Hids & Hc & -> & _).
  apply list_elem_of_filter in Hrec as [_ Hrec].
  apply list_elem_of_lookup in Hrec as [i Hi].
  destruct (Forall2_lookup_r _ _ _ _ _ Hc Hi) as (ln & Hln & Hbuilt).
  apply built_record in Hbuilt as (Hg & Hn & Hl & _ & Hcols & _).
  exists geo_id, name, ln. split; [done|]. split; [by eapply list_elem_of_lookup_2|].
  split; [done|]. split; [done|]. split; [done|].
  intros f g k Hf. destruct (Hcols f g k Hf) as (v & Hv & Hfv).
  exists v. split; [done|]. by apply getv_of_decoded.
Qed.

Lemma record_fields_from_cells_witness :
  ∃ recs rec geo_id name ln,
    build_records_for_row "S2801" [ "GEO_ID"; "S2801_C02_001E" ]
      [ Some "1400000US48021950801"; Some "91.5" ]
    = Ok (recs, fieldnames (pick_schema "S2801")) ∧
    rec ∈ recs ∧
    row_ids [ "GEO_ID"; "S2801_C02_001E" ]
      [ Some "1400000US48021950801"; Some "91.5" ] = Ok (geo_id, name) ∧
    rec !! "line_no" = Some (PyStr ln).
Proof.
  destruct (build_records_for_row_returns "S2801" [ "GEO_ID"; "S2801_C02_001E" ]
              [ Some "1400000US48021950801"; Some "91.5" ]) as [recs Hb];
    [simpl; lia|].
  assert (length recs = 1) as Hlen.
  { assert (match build_records_for_row "S2801" [ "GEO_ID"; "S2801_C02_001E" ]
                    [ Some "1400000US48021950801"; Some "91.5" ] with
            | Ok (rs, _) => length rs
            | Raise _ => 0
            end = 1) as H by (vm_compute; reflexivity).
    by rewrite Hb in H. }
  destruct recs as [|rec recs]; [discriminate Hlen|].
  destruct (record_fields_from_cells _ _ _ _ _ rec Hb (list_elem_of_here _ _))
    as (geo_id & name & ln & Hids & _ & _ & _ & Hln & _).
  exists (rec :: recs), rec, geo_id, name, ln.
  split; [exact Hb|]. split; [apply list_elem_of_here|]. split; [exact Hids|exact Hln].
Defined.

(** ** Labels *)

Lemma load_rows_cons (r : label_row) (rows : list label_row) (m : gmap string string) :
  load_rows (r :: rows) m
  = load_rows rows (match label_entry r with
                    | Some (k, l) => <[k := l]> m
                    | None => m
                    end).
Proof.
  destruct r as [c_ln c_label]. simpl. unfold label_entry. simpl.
  by destruct (is_empty (field_or_empty c_ln)).
Qed.

Lemma load_rows_lookup (rows : list label_row) :
  ∀ (m : gmap string string) (k l : string),
  load_rows rows m !! k = Some l ↔
  (∃ i r, rows !! i = Some r ∧ label_entry r = Some (k, l) ∧
          ∀ j r' l', i < j → rows !! j = Some r' → label_entry r' ≠ Some (k, l'))
  ∨ ((∀ j r' l', rows !! j = Some r' → label_entry r' ≠ Some (k, l')) ∧ m !! k = Some l).
Proof.
  induction rows as [|r rows IH]; intros m k l.
  - simpl. split.
    + intros H. right. split; [intros j r' l' Hj; by rewrite lookup_nil in Hj|done].
    + intros [(i & r & Hi & _)|[_ H]]; [by rewrite lookup_nil in Hi|done].
  - rewrite load_rows_cons, IH. clear IH. split.
    + intros [(i & r0 & Hi & He & Hlast)|[Hnone Hm]].
      * left. exists (S i), r0. split; [done|]. split; [done|].
        intros [|j] r' l' Hlt Hj; [lia|]. apply (Hlast j); [lia|done].
      * destruct (label_entry r) as [[k0 l0]|] eqn:Hr.
        -- destruct (decide (k0 = k)) as [->|Hne].
           ++ rewrite lookup_insert_eq in Hm. injection Hm as ->.
              left. exists 0, r. split; [done|]. split; [done|].
              intros [|j] r' l' Hlt Hj; [lia|]. by apply (Hnone j).
           ++ rewrite lookup_insert_ne in Hm by done. right. split; [|done].
              intros [|j] r' l' Hj; simpl in Hj; [injection Hj as <-; congruence|].
              by apply (Hnone j).
        -- right. split; [|done].
           intros [|j] r' l' Hj; simpl in Hj; [injection Hj as <-; congruence|].
           by apply (Hnone j).
    + intros [(i & r0 & Hi & He & Hlast)|[Hnone Hm]].
      * destruct i as [|i]; simpl in Hi.
        -- injection Hi as <-. right. split.
           ++ intros j r' l' Hj. apply (Hlast (S j)); [lia|done].
           ++ rewrite He. apply lookup_insert_eq.
        -- left. exists i, r0. split; [done|]. split; [done|].
           intros j r' l' Hlt Hj. apply (Hlast (S j)); [lia|done].
      * right. split; [intros j r' l' Hj; by apply (Hnone (S j))|].
        destruct (label_entry r) as [[k0 l0]|] eqn:Hr; [|done].
        rewrite lookup_insert_ne; [done|]. intros ->. by apply (Hnone 0 r l0).
Qed.

(** X8. The label map of a table: no entry without a label file; otherwise
    the entry of a key is the stripped label of the last row whose stripped
    line number, not empty, fills with zeros to that key.  Every key has
    three characters at least. *)
Theorem label_map_last_row_wins :
  load_label_map_for_table None = ∅ ∧
  ∀ (rows : list label_row) (k l : string),
    load_label_map_for_table (Some rows) !! k = Some l ↔
    ∃ i c_ln c_label,
      rows !! i = Some (c_ln, c_label) ∧
      field_or_empty c_ln ≠ "" ∧ k = zfill 3 (field_or_empty c_ln) ∧
      l = field_or_empty c_label ∧ 3 ≤ String.length k ∧
      ∀ j c_ln' c_label', i < j → rows !! j = Some (c_ln', c_label') →
        field_or_empty c_ln' = "" ∨ zfill 3 (field_or_empty c_ln') ≠ k.
Proof.
  split; [reflexivity|]. intros rows k l. simpl. rewrite load_rows_lookup.
  assert (∀ (r : label_row) k' l',
            label_entry r = Some (k', l') ↔
            field_or_empty r.1 ≠ "" ∧ k' = zfill 3 (field_or_empty r.1) ∧
            l' = field_or_empty r.2) as Hentry.
  { intros r k' l'. unfold label_entry.
    destruct (field_or_empty r.1) as [|c s] eqn:E; simpl.
    - split; [discriminate|]. by intros [? _].
    - split; [by intros [= <- <-]|]. by intros (_ & -> & ->). }
  split.
  - intros [(i & [c_ln c_label] & Hi & He & Hlast)|[_ H]]; [|by rewrite lookup_empty in H].
    apply Hentry in He as (Hne & -> & ->). simpl in *.
    exists i, c_ln, c_label. split; [done|]. split; [done|]. split; [done|].
    split; [done|]. split; [apply zfill_width|].
    intros j c_ln' c_label' Hlt Hj.
    destruct (decide (field_or_empty c_ln' = "")) as [|Hne']; [by left|]. right.
    intros Heq. apply (Hlast j (c_ln', c_label') (field_or_empty c_label') Hlt Hj).
    apply Hentry. simpl. done.
  - intros (i & c_ln & c_label & Hi & Hne & -> & -> & _ & Hlast).
    left. exists i, (c_ln, c_label). split; [done|]. split; [by apply Hentry|].
    intros j [c_ln' c_label'] l' Hlt Hj He. apply Hentry in He as (Hne' & Hk & _).
    simpl in *. destruct (Hlast j c_ln' c_label' Hlt Hj); congruence.
Qed.

Lemma label_map_last_row_wins_witness :
  load_label_map_for_table (Some [ (Some "1", Some "first"); (Some " 001", Some "last ") ])
    !! "001" = Some "last".
Proof.
  apply (proj2 label_map_last_row_wins).
  exists 1, (Some " 001"), (Some "last ").
  split; [reflexivity|]. split; [intros H; vm_compute in H; discriminate H|].
  split; [vm_compute; reflexivity|]. split; [vm_compute; reflexivity|].
  split; [vm_compute; lia|].
  intros j c_ln' c_label' Hlt Hj. destruct j as [|[|j]]; [lia|lia|discriminate Hj].
Defined.

Lemma load_rows_app (l1 l2 : list label_row) :
  ∀ m, load_rows (l1 ++ l2) m = load_rows l2 (load_rows l1 m).
Proof.
  induction l1 as [|r l1 IH]; intros m; [done|].
  rewrite <- app_comm_cons, !load_rows_cons. apply IH.
Qed.

(** X9. From the label file to the record: a record gets the label that
    the loaded map has at its line number filled with zeros to three
    characters, and the empty label if the map has none; so the last row of
    the file labels every record whose filled line number is the filled
    line number of that row, whatever the rows before it say. *)
Theorem label_file_reaches_record
    (file : option (list label_row)) (p : ref) (σ : store) (rec : record) (ln : string) :
  objs σ !! p = Some rec →
  rec !! "line_no" = Some (PyStr ln) →
  ∃ σ',
    attach_label (load_label_map_for_table file) p σ = Ok σ' ∧
    deref σ' p !! "label"
    = Some (PyStr (default "" (load_label_map_for_table file !! zfill 3 ln))) ∧
    (∀ rows c_ln c_label,
       file = Some (rows ++ [ (c_ln, c_label) ]) →
       field_or_empty c_ln ≠ "" →
       zfill 3 (field_or_empty c_ln) = zfill 3 ln →
       deref σ' p !! "label" = Some (PyStr (field_or_empty c_label))).
Proof.
  intros Hp Hln. eexists. split.
  { apply (attach_label_spec _ _ _ rec (zfill 3 ln)); [done|by apply label_key_str]. }
  assert (p < length (objs σ)) as Hlt by (by eapply lookup_lt_Some).
  unfold deref. simpl. rewrite list_lookup_insert_eq by done. simpl.
  rewrite lookup_insert_eq. split; [done|].
  intros rows c_ln c_label -> Hne Hk. do 2 f_equal.
  unfold load_label_map_for_table. rewrite load_rows_app, load_rows_cons.
  unfold label_entry. simpl fst. simpl snd.
  destruct (field_or_empty c_ln) as [|c s] eqn:E; [done|].
  cbn [is_empty load_rows]. rewrite Hk, lookup_insert_eq. reflexivity.
Qed.

Lemma label_file_reaches_record_witness :
  ∃ σ',
    attach_label (load_label_map_for_table (Some [ (Some " 7", Some " Under 5 years ") ])) 0
      {| objs := [ {[ "line_no" := PyStr "007" ]} ]; writes := [] |} = Ok σ' ∧
    deref σ' 0 !! "label" = Some (PyStr "Under 5 years").
Proof.
  destruct (label_file_reaches_record (Some [ (Some " 7", Some " Under 5 years ") ]) 0
              {| objs := [ {[ "line_no" := PyStr "007" ]} ]; writes := [] |}
              {[ "line_no" := PyStr "007" ]} "007") as (σ' & Ha & _ & Hlast).
  - reflexivity.
  - vm_compute. reflexivity.
  - exists σ'. split; [exact Ha|].
    rewrite (Hlast [] (Some " 7") (Some " Under 5 years ")).
    + vm_compute. reflexivity.
    + reflexivity.
    + intros H. vm_compute in H. discriminate H.
    + vm_compute. reflexivity.
Defined.

(** ** The file of a unit *)

Lemma map_deref_seq {B : Type} (f : record → B) (σ : store) :
  map (fun p => f (deref σ p)) (seq 0 (length (objs σ))) = map f (objs σ).
Proof.
  apply list_eq. intros i. rewrite !list_lookup_fmap.
  destruct (decide (i < length (objs σ))) as [Hlt|Hge].
  - rewrite lookup_seq_lt by done. simpl. unfold deref.
    destruct (lookup_lt_is_Some_2 (objs σ) i Hlt) as [r Hr]. by rewrite Hr.
  - rewrite lookup_seq_ge by lia. rewrite lookup_ge_None_2 by lia. done.
Qed.

(** X10. The file of a unit: its header is the field list of the table's
    schema, also when the unit has no row or no record; its rows are the
    rows of the unit's records, each record once; and every record has
    exactly the fields of the header, so that no cell stands for a missing
    field and every row is as long as the header. *)
Theorem unit_csv_shape (table : string) (label_map : gmap string string)
    (headers : list string) (rows : list (list cell)) (u : unit_result) :
  process_unit table label_map headers rows = Ok u →
  let fields := fieldnames (pick_schema table) in
  csv_header (written u) = fields ∧
  csv_rows (written u) ≡ₚ map (row_of fields) (objs (final_store u)) ∧
  Forall (fun rec => dom rec = list_to_set fields) (objs (final_store u)) ∧
  Forall (fun row => length row = length fields) (csv_rows (written u)).
Proof.
  intros Hu fields. apply process_unit_ok in Hu as (built & Hb & Hσ & Ho & Hw).
  rewrite Hw. unfold write_tidy_csv. cbn [csv_header csv_rows].
  split; [reflexivity|].
  assert (length (concat built) = length (objs (final_store u))) as Hlen.
  { rewrite Hσ. unfold labelled_store. cbn [objs]. by rewrite length_map. }
  split; [|split].
  - rewrite Ho, sorted_by_perm, Hlen.
    by rewrite <- (map_deref_seq (row_of fields)).
  - rewrite Hσ. unfold labelled_store. cbn [objs]. apply Forall_fmap.
    eapply Forall_impl; [by eapply built_from_assembled|].
    intros rec Hrec. simpl.
    by destruct (with_label_assembled table label_map rec Hrec) as (_ & _ & _ & _ & Hd & _).
  - apply Forall_fmap, Forall_forall. intros p _. simpl. by rewrite length_map.
Qed.

Lemma unit_csv_shape_witness :
  ∃ u, process_unit "S1701" ∅ [ "GEO_ID"; "NAME"; "S1701_C01_001E" ]
         [ [ Some "1400000US01001020100"; Some "Tract"; Some "1845" ] ] = Ok u ∧
       csv_header (written u) = fieldnames (pick_schema "S1701") ∧
       Forall (fun row => length row = 10) (csv_rows (written u)).
Proof.
  destruct (process_unit_returns "S1701" ∅ [ "GEO_ID"; "NAME"; "S1701_C01_001E" ]
              [ [ Some "1400000US01001020100"; Some "Tract"; Some "1845" ] ])
    as [u Hu].
  - repeat constructor.
  - exists u. split; [exact Hu|].
    destruct (unit_csv_shape _ _ _ _ u Hu) as (Hh & _ & _ & Hr).
    split; [exact Hh|]. eapply Forall_impl; [exact Hr|].
    intros row ->. vm_compute. reflexivity.
Defined.

Section Stable.
Context {A K : Type} `{EqDecision K} (key : A → K) (lt : K → K → bool).
Hypothesis lt_irrefl : ∀ a, lt a a = false.

Lemma insert_sorted_stable (k : K) (x : A) (l : list A) :
  filter (fun y => key y = k) (insert_sorted key lt x l)
  = filter (fun y => key y = k) (x :: l).
Proof.
  induction l as [|y l IH]; [done|]. simpl.
  destruct (lt (key y) (key x)) eqn:Hyx; [|done].
  rewrite (filter_cons _ y), IH, !filter_cons.
  destruct (decide (key y = k)) as [Hy|Hy]; [|done].
  destruct (decide (key x = k)) as [Hx|Hx]; [|done].
  rewrite Hy, Hx, lt_irrefl in Hyx. discriminate Hyx.
Qed.

Lemma sorted_by_stable (k : K) (l : list A) :
  filter (fun y => key y = k) (sorted_by key lt l) = filter (fun y => key y = k) l.
Proof.
  induction l as [|x l IH]; [done|]. simpl.
  rewrite insert_sorted_stable, !filter_cons, IH. done.
Qed.
End Stable.

Lemma pair_ltb_irrefl (a : string * string) : pair_ltb a a = false.
Proof.
  unfold pair_ltb. rewrite !str_ltb_irrefl. by rewrite andb_false_r.
Qed.

(** X11. The sort of a unit is stable: the records of one sort key stand
    in the output in the order of their creation, which is the order of the
    rows and, within a row, of the line numbers. *)
Theorem unit_sort_is_stable (table : string) (label_map : gmap string string)
    (headers : list string) (rows : list (list cell)) (u : unit_result)
    (k : string * string) :
  process_unit table label_map headers rows = Ok u →
  filter (fun p => key_of (final_store u) p = k) (ordered u)
  = filter (fun p => key_of (final_store u) p = k)
      (seq 0 (length (objs (final_store u)))).
Proof.
  intros Hu. apply process_unit_ok in Hu as (built & Hb & Hσ & Ho & Hw).
  rewrite Ho, (sorted_by_stable _ _ pair_ltb_irrefl). do 2 f_equal.
  rewrite Hσ. unfold labelled_store. cbn [objs]. by rewrite length_map.
Qed.

Lemma unit_sort_is_stable_witness :
  ∃ u, process_unit "S1701" ∅ [ "GEO_ID"; "NAME"; "S1701_C01_001E" ]
         [ [ Some "g"; Some "first"; Some "1" ]; [ Some "g"; Some "second"; Some "2" ] ]
       = Ok u ∧
       filter (fun p => key_of (final_store u) p = ("g", "001")) (ordered u)
       = filter (fun p => key_of (final_store u) p = ("g", "001"))
           (seq 0 (length (objs (final_store u)))).
Proof.
  destruct (process_unit_returns "S1701" ∅ [ "GEO_ID"; "NAME"; "S1701_C01_001E" ]
              [ [ Some "g"; Some "first"; Some "1" ]; [ Some "g"; Some "second"; Some "2" ] ])
    as [u Hu].
  - repeat constructor.
  - exists u. split; [exact Hu|].
    exact (unit_sort_is_stable _ _ _ _ u ("g", "001") Hu).
Defined.

(** ** Requests *)

Lemma pause_keeps_requests (backoff : spec_float) (attempt : Z) (w w2 : world) :
  (d ← delay backoff attempt; sleep d w) = Ok w2 → requests w2 = requests w.
Proof.
  intros H. apply bind_ok in H as (d & _ & Hs).
  destruct d as [s|[]| |[] m e]; simpl in Hs; try discriminate Hs.
  all: by injection Hs as <-.
Qed.

Section Requests.
Context (net : nat → get_outcome) (year product table tract : string).
Context (backoff : spec_float).

Lemma fetch_attempts_requests (left : nat) :
  ∀ (attempt : Z) (last_err : option fetch_failure) (w w' : world)
    (r : res (list json)),
  fetch_attempts net year product table tract backoff left attempt last_err w = (r, w') →
  requests w ≤ requests w' ≤ requests w + left ∧
  ∀ data, r = Ok data →
    requests w < requests w' ∧
    check_response (net (requests w' - 1)) = inr data.
Proof.
  induction left as [|left IH]; intros attempt last_err w w' r H.
  - cbn [fetch_attempts] in H. injection H as <- <-.
    split; [lia|]. intros data Hd. discriminate Hd.
  - cbn [fetch_attempts session_get] in H.
    destruct (check_response (net (requests w))) as [e|data] eqn:Hc.
    + destruct (d ← delay backoff attempt; sleep d _) as [w2|x] eqn:Hp.
      * apply pause_keeps_requests in Hp. cbn [requests] in Hp.
        apply IH in H as [Hb Hd]. rewrite Hp in Hb, Hd. split; [lia|].
        intros data Hr. destruct (Hd data Hr) as [? ?]. split; [lia|done].
      * injection H as <- <-. cbn [requests]. split; [lia|].
        intros data Hd. discriminate Hd.
    + injection H as <- <-. cbn [requests]. split; [lia|].
      intros data' [= <-]. split; [lia|].
      by replace (S (requests w) - 1) with (requests w) by lia.
Qed.
End Requests.

(** X12. A call of the fetcher sends as many requests as it was allowed
    attempts, at most, and none when that number is zero or negative, in
    which case it raises [RuntimeError] with no last error; what it returns
    is what the last request it sent was answered with, a list whose first
    element is a list, of a response with a status outside 400..599. *)
Theorem fetcher_request_bound (net : nat → get_outcome)
    (year product table tract : string) (retries : Z) (backoff : spec_float)
    (w w' : world) (r : res (list json)) :
  fetch_group_subject net year product table tract retries backoff w = (r, w') →
  requests w ≤ requests w' ≤ requests w + Z.to_nat retries ∧
  ((retries ≤ 0)%Z → r = Raise (RuntimeError table tract None) ∧ w' = w) ∧
  ∀ data, r = Ok data →
    requests w < requests w' ∧
    ∃ status h rest,
      net (requests w' - 1) = Response status (Some (JList (JList h :: rest))) ∧
      ¬ (400 ≤ status < 600)%Z ∧ data = JList h :: rest.
Proof.
  unfold fetch_group_subject. intros H. split; [|split].
  - by apply fetch_attempts_requests in H as [? _].
  - intros Hle. replace (Z.to_nat retries) with 0 in H by lia.
    cbn [fetch_attempts] in H. by injection H as <- <-.
  - intros data Hd. apply fetch_attempts_requests in H as [_ H].
    destruct (H data Hd) as [Hlt Hc]. split; [done|].
    by apply check_response_passes.
Qed.

Lemma fetcher_request_bound_witness :
  let net := fun n : nat =>
    match n with
    | 0 => Response 503 None
    | _ => Response 200 (Some (JList [ JList [ JStr "GEO_ID" ] ]))
    end in
  ∃ w', fetch_group_subject net "2023" "acs5" "S1701" "01001020100"
          default_retries default_backoff start
        = (Ok [ JList [ JStr "GEO_ID" ] ], w') ∧
        0 < requests w' ≤ 3.
Proof.
  intros net.
  pose proof (fetch_attempts_succeeds net "2023" "acs5" "S1701" "01001020100"
                default_backoff [HTTPError 503] [f_0_8] 1 0 None start
                [ JList [ JStr "GEO_ID" ] ]) as Hrun.
  cbn [length Nat.add] in Hrun.
  eexists. split.
  - unfold fetch_group_subject. change (Z.to_nat default_retries) with 3.
    apply Hrun.
    + reflexivity.
    + intros [|i] e He; [|destruct i; discriminate He].
      injection He as <-. reflexivity.
    + intros [|i] d Hd; [|destruct i; discriminate Hd].
      injection Hd as <-. split; [exact (proj1 default_pauses)|exact I].
    + reflexivity.
  - match goal with
    | |- _ < requests ?w ≤ _ =>
        assert (fetch_group_subject net "2023" "acs5" "S1701" "01001020100"
                  default_retries default_backoff start
                = (Ok [ JList [ JStr "GEO_ID" ] ], w)) as Hfetch
    end.
    { unfold fetch_group_subject. change (Z.to_nat default_retries) with 3.
      apply Hrun.
      + reflexivity.
      + intros [|i] e He; [|destruct i; discriminate He].
        injection He as <-. reflexivity.
      + intros [|i] d Hd; [|destruct i; discriminate Hd].
        injection Hd as <-. split; [exact (proj1 default_pauses)|exact I].
      + reflexivity. }
    destruct (fetcher_request_bound _ _ _ _ _ _ _ _ _ _ Hfetch) as (Hb & _ & Hd).
    destruct (Hd _ eq_refl) as [Hlt _].
    change (Z.to_nat default_retries) with 3 in Hb.
    change (requests start) with 0 in Hb, Hlt. split; [exact Hlt|exact (proj2 Hb)].
Defined.

(** ** A run without failures *)

Section Run.
Context (net : nat → get_outcome) (label_file : string → option (list label_row)).
Context (disk : nat → write_outcome) (stdout : nat → print_outcome).
Context (a : args).
Hypothesis disk_accepts : ∀ t, disk t = Written.
Hypothesis stdout_accepts : ∀ t, stdout t = Printed.

Abbreviation request_of :=
  (fun u : string * string => (url (year a) (product a), param_get u.1, param_ucgid u.2)).



End Run.



(** ** Counts *)

Lemma digit_is_plain (c : ascii) :
  is_digit c = true →
  isspace c = false ∧ float_space c = false ∧ lower c = c ∧
  Ascii.eqb c "-" = false ∧ Ascii.eqb c "+" = false ∧
  c ≠ "i"%char ∧ c ≠ "n"%char.
Proof.
  destruct c as [b0 b1 b2 b3 b4 b5 b6 b7].
  destruct b0, b1, b2, b3, b4, b5, b6, b7; intros H; vm_compute in H;
    try discriminate H; repeat split; try (vm_compute; reflexivity); discriminate.
Qed.

Lemma rstrip_digits (sp : ascii → bool) (s : string) :
  (∀ c, is_digit c = true → sp c = false) →
  all_digits s = true → rstrip_with sp s = s.
Proof.
  intros Hsp. induction s as [|c s IH]; [done|]. cbn [all_digits rstrip_with].
  intros [Hc Hs]%andb_true_iff. by rewrite (IH Hs), (Hsp c Hc).
Qed.

Lemma digitpart_tail_digits (s : string) :
  all_digits s = true → digitpart_tail s = (s, EmptyString).
Proof.
  induction s as [|c s IH]; [done|]. cbn [all_digits digitpart_tail].
  intros [Hc Hs]%andb_true_iff. by rewrite Hc, (IH Hs).
Qed.

Lemma py_float_digits (c : ascii) (s : string) :
  all_digits (String c s) = true →
  strip (String c s) = String c s ∧
  py_float (String c s) = Ok (float_of_decimal false (digits_value 0 (String c s)) 0).
Proof.
  intros Hd. pose proof Hd as Hd'. cbn [all_digits] in Hd'.
  apply andb_true_iff in Hd' as [Hc Hs].
  destruct (digit_is_plain c Hc) as (Hsp & Hfs & Hlow & Hminus & Hplus & Hi & Hn).
  split.
  - unfold strip. cbn [lstrip_with]. rewrite Hsp. apply rstrip_digits; [|done].
    intros c' Hc'. by destruct (digit_is_plain c' Hc') as [? _].
  - unfold py_float. cbn [lstrip_with]. rewrite Hfs.
    rewrite rstrip_digits; [|intros c' Hc'; by destruct (digit_is_plain c' Hc') as (_ & ? & _)|done].
    unfold floatvalue. cbn [opt_sign]. rewrite Hminus, Hplus. cbn [lower_str]. rewrite Hlow.
    unfold str_eqb. rewrite !bool_decide_false by congruence. cbn [orb].
    unfold floatnumber, number, digitpart. rewrite Hc, (digitpart_tail_digits s Hs).
    cbn [exponent]. rewrite app_empty_r_str. reflexivity.
Qed.

Lemma digits_unlisted (s : string) :
  all_digits s = true → s ≠ EmptyString →
  (s ∉ SUPPRESS_CODES) ∧ (s ∉ ANNOTATION_TOKENS).
Proof.
  intros Hd Hne. split; intros Hin.
  - unfold SUPPRESS_CODES in Hin.
    repeat (apply elem_of_cons in Hin as [->|Hin]; [vm_compute in Hd; discriminate Hd|]).
    inversion Hin.
  - unfold ANNOTATION_TOKENS in Hin.
    repeat (apply elem_of_cons in Hin as [->|Hin];
            [first [vm_compute in Hd; discriminate Hd | by apply Hne]|]).
    inversion Hin.
Qed.

Local Open Scope Z_scope.

Lemma binary_round_aux_exact_value (sx : bool) (mx ex : Z) (q : positive) :
  let F := fexp prec emax (Zdigits2 mx + ex) in
  ex ≤ F → F ≤ 971 → mx = Z.pos q * 2 ^ (F - ex) →
  binary_round_aux prec emax sx mx ex loc_Exact = S754_finite sx q F.
Proof.
  intros F HexF HF Hmx.
  assert (0 < 2 ^ (F - ex)) as Hpow by (apply Z.pow_pos_nonneg; lia).
  assert (Zdigits2 mx = Zdigits2 (Z.pos q) + (F - ex)) as Hd.
  { rewrite Hmx. apply Zdigits2_mul_pow2; lia. }
  assert (shr_fexp prec emax mx ex loc_Exact
          = ({| shr_m := Z.pos q; shr_r := false; shr_s := false |}, F)) as E1.
  { unfold shr_fexp. fold F. unfold shr. simpl shr_record_of_loc.
    destruct (F - ex) as [|n|n] eqn:Hn; [| |lia].
    - rewrite Z.pow_0_r, Z.mul_1_r in Hmx. subst mx. f_equal. lia.
    - rewrite Hmx, shr_iter_exact by lia. f_equal. lia. }
  assert (shr_fexp prec emax (Z.pos q) F loc_Exact
          = ({| shr_m := Z.pos q; shr_r := false; shr_s := false |}, F)) as E2.
  { unfold shr_fexp.
    replace (Zdigits2 (Z.pos q) + F) with (Zdigits2 mx + ex) by lia. fold F.
    rewrite Z.sub_diag. reflexivity. }
  unfold binary_round_aux. rewrite E1. simpl loc_of_shr_record. simpl shr_m.
  simpl round_nearest_even. rewrite E2. simpl shr_m.
  assert ((F <=? emax - prec) = true) as -> by (apply Z.leb_le; unfold emax, prec; lia).
  reflexivity.
Qed.

(** An integer below [2 ^ 53] is a float, and the integer part of that
    float. *)
Lemma float_of_Z_small (p : positive) :
  Z.pos p < 2 ^ 53 →
  ∃ m e, float_of_Z (Z.pos p) = S754_finite false m e ∧
         py_int (S754_finite false m e) = Ok (Z.pos p).
Proof.
  intros Hp. unfold float_of_Z, binary_normalize, binary_round.
  change (Z.pos (digits2_pos p)) with (Zdigits2 (Z.pos p)).
  set (D := Zdigits2 (Z.pos p)) in *.
  assert (0 < D) as HD0 by (unfold D; simpl; lia).
  assert (D ≤ 53) as HD by (apply Zdigits2_le; lia).
  rewrite Z.add_0_r. unfold shl_align. rewrite fexp_eq.
  replace (Z.max (D - 53) (-1074) - 0) with (D - 53) by lia.
  destruct (D - 53) as [|d|d] eqn:Hd; [|lia|].
  - exists p, 0. split; [|reflexivity].
    rewrite (binary_round_aux_exact_value false (Z.pos p) 0 p).
    + f_equal. rewrite Z.add_0_r. fold D. rewrite fexp_eq. lia.
    + rewrite Z.add_0_r. fold D. rewrite fexp_eq. lia.
    + rewrite Z.add_0_r. fold D. rewrite fexp_eq. lia.
    + rewrite Z.add_0_r. fold D. rewrite fexp_eq.
      replace (Z.max (D - 53) (-1074) - 0) with 0 by lia. lia.
  - assert (Zdigits2 (Z.pos (Pos.iter xO p d)) = D + Z.pos d) as HdX.
    { rewrite Pos_iter_xO, Zdigits2_mul_pow2 by lia. reflexivity. }
    exists (Pos.iter xO p d), (Z.neg d). split.
    + replace (Z.max (Z.neg d) (-1074)) with (Z.neg d) by lia.
      rewrite (binary_round_aux_exact_value false _ (Z.neg d) (Pos.iter xO p d)).
      * f_equal. rewrite HdX, fexp_eq. lia.
      * rewrite HdX, fexp_eq. lia.
      * rewrite HdX, fexp_eq. lia.
      * rewrite HdX, fexp_eq.
        replace (Z.max (D + Z.pos d + Z.neg d - 53) (-1074) - Z.neg d) with 0 by lia.
        lia.
    + cbn [py_int cond_Zopp]. rewrite Z.shiftr_div_pow2 by lia.
      rewrite Pos_iter_xO, Z.div_mul; [done|].
      assert (0 < 2 ^ Z.pos d) by (apply Z.pow_pos_nonneg; lia). lia.
Qed.

Lemma SFsub_diag (s : bool) (m : positive) (e : Z) :
  SFsub prec emax (S754_finite s m e) (S754_finite s m e) = S754_zero false.
Proof. unfold SFsub. cbv zeta. rewrite Z.sub_diag. reflexivity. Qed.

Local Close Scope Z_scope.

(** X14. Counts survive: a cell that is a string of decimal digits whose
    value is below [2 ^ 53] comes out as the integer of that value, exactly,
    with leading zeros or without.  Beyond that bound
    the float in between rounds: "9007199254740993" gives the integer
    9007199254740992. *)
Theorem clean_num_keeps_counts :
  (∀ s : string,
     s ≠ EmptyString → all_digits s = true → (digits_value 0 s < 2 ^ 53)%N →
     clean_num (Some s) = Ok (PyInt (Z.of_N (digits_value 0 s)))) ∧
  clean_num (Some "9007199254740993") = Ok (PyInt 9007199254740992).
Proof.
  split; [|vm_compute; reflexivity].
  intros s Hne Hd Hlt. destruct s as [|c s]; [done|].
  destruct (py_float_digits c s Hd) as [Hstrip Hpy].
  destruct (digits_unlisted _ Hd Hne) as [H1 H2].
  rewrite clean_num_unlisted by (by rewrite Hstrip). rewrite Hstrip.
  unfold clean_num_try. rewrite Hpy. cbn [mbind res_bind].
  destruct (digits_value 0 (String c s)) as [|p] eqn:Hval.
  - vm_compute. reflexivity.
  - assert (float_of_decimal false (N.pos p) 0 = float_of_Z (Z.pos p)) as ->.
    { unfold float_of_decimal, float_of_Z. change (0 <=? 0)%Z with true. cbv iota.
      unfold cond_Zopp. by rewrite Z.pow_0_r, Z.mul_1_r. }
    destruct (float_of_Z_small p) as (m & e & Hv & Hint); [lia|].
    rewrite Hv, Hint. cbn [mbind res_bind]. unfold py_float_of_int.
    change (Z.of_N (N.pos p)) with (Z.pos p). rewrite Hv. cbn [mbind res_bind].
    rewrite SFsub_diag.
    assert (SFltb (SFabs (S754_zero false)) eps = true) as -> by (vm_compute; reflexivity).
    reflexivity.
Qed.

Lemma clean_num_keeps_counts_witness : clean_num (Some "007") = Ok (PyInt 7).
Proof.
  apply (proj1 clean_num_keeps_counts "007").
  - discriminate.
  - reflexivity.
  - vm_compute. reflexivity.
Defined.

(** ** Failures *)

Lemma bind_raise {A B : Type} (m : res A) (f : A → res B) (e : exn) :
  (x ← m; f x) = Raise e ↔ m = Raise e ∨ ∃ a, m = Ok a ∧ f a = Raise e.
Proof.
  destruct m as [a|e']; simpl.
  - split; [intros H; right; exists a; split; [reflexivity|exact H]|].
    intros [H|(a' & Ha & H)]; [discriminate H|]. injection Ha as <-. exact H.
  - split; [intros [= ->]; by left|]. intros [[= ->]|(? & H & _)]; [done|discriminate H].
Qed.

Lemma getitem_raises {A : Type} (l : list A) (i : nat) (e : exn) :
  getitem l i = Raise e → e = IndexError.
Proof. unfold getitem. destruct (l !! i); [discriminate|]. by intros [= <-]. Qed.

Lemma row_ids_raises (headers : list string) (row : list cell) (e : exn) :
  row_ids headers row = Raise e → e = IndexError.
Proof.
  unfold row_ids. intros H.
  apply bind_raise in H as [H|(geo_id & _ & H)].
  - destruct (safe_idx headers "GEO_ID"); [by eapply getitem_raises|discriminate H].
  - apply bind_raise in H as [H|(name & _ & H)]; [|discriminate H].
    destruct (safe_idx headers "NAME"); [by eapply getitem_raises|discriminate H].
Qed.

Lemma getv_of_raises (fieldmap : gmap coord nat) (row : list cell)
    (group kind ln : string) (e : exn) :
  getv_of fieldmap row group kind ln = Raise e → e = IndexError.
Proof.
  unfold getv_of. destruct (fieldmap !! (group, ln, kind)); [|discriminate].
  intros H. apply bind_raise in H as [H|(x & _ & H)]; [by eapply getitem_raises|].
  destruct (clean_num_returns x) as [v Hv]. congruence.
Qed.

Lemma dict_literal_raises (items : list (string * res pyval)) :
  ∀ (d : record) (e : exn),
  dict_literal items d = Raise e → ∃ k, (k, Raise e) ∈ items.
Proof.
  induction items as [|[k0 e0] items IH]; intros d e H; [discriminate H|].
  simpl in H. apply bind_raise in H as [->|(v & -> & H)].
  - exists k0. apply list_elem_of_here.
  - destruct (IH _ _ H) as [k Hk]. exists k. by apply list_elem_of_further.
Qed.

Lemma builder_raises (table : string) (geo_id name : cell) (ln : string)
    (getv : getter) (e : exn) :
  builder (pick_schema table) geo_id name ln getv = Raise e →
  ∃ group kind, getv group kind ln = Raise e.
Proof.
  rewrite builder_columns. intros H. apply dict_literal_raises in H as [k Hk].
  unfold items_of in Hk. apply elem_of_app in Hk as [Hk|Hk].
  - repeat (apply elem_of_cons in Hk as [Hk|Hk]; [discriminate Hk|]). inversion Hk.
  - apply list_elem_of_fmap in Hk as (c & [= _ Hc] & _). eauto.
Qed.

Lemma build_loop_raises (build : string → res record) (line_nos : list string) :
  ∀ (acc : list record) (e : exn),
  build_loop build line_nos acc = Raise e → ∃ ln, build ln = Raise e.
Proof.
  induction line_nos as [|ln rest IH]; intros acc e H; [discriminate H|].
  simpl in H. apply bind_raise in H as [H|(rec & _ & H)]; [eauto|]. by eapply IH.
Qed.

Lemma build_records_for_row_raises (table : string) (headers : list string)
    (row : list cell) (e : exn) :
  build_records_for_row table headers row = Raise e → e = IndexError.
Proof.
  unfold build_records_for_row. intros H.
  apply bind_raise in H as [H|(ids & _ & H)]; [by eapply row_ids_raises|].
  apply bind_raise in H as [H|(recs & _ & H)]; [|discriminate H].
  apply build_loop_raises in H as [ln H].
  apply builder_raises in H as (group & kind & H). by eapply getv_of_raises.
Qed.

Lemma rows_loop_raises (table : string) (label_map : gmap string string)
    (headers : list string) (rows : list (list cell)) :
  ∀ (all_records : list ref) (out_fieldnames : option (list string)) (σ : store)
    (e : exn),
  rows_loop table label_map headers rows all_records out_fieldnames σ = Raise e →
  e = IndexError.
Proof.
  induction rows as [|row rows IH]; intros all_records out σ e H; [discriminate H|].
  simpl in H. apply bind_raise in H as [H|([recs fns] & Hrow & H)];
    [by eapply build_records_for_row_raises|].
  simpl in H. rewrite alloc_all_spec in H.
  rewrite attach_labels_fresh in H by (by eapply built_label_key).
  simpl in H. by eapply IH.
Qed.

Lemma process_unit_raises (table : string) (label_map : gmap string string)
    (headers : list string) (rows : list (list cell)) (e : exn) :
  process_unit table label_map headers rows = Raise e → e = IndexError.
Proof.
  intros H. pose proof H as H0. unfold process_unit in H.
  apply bind_raise in H as [H|(acc & Hloop & _)]; [by eapply rows_loop_raises|].
  exfalso. apply rows_loop_returns in Hloop as [built Hb].
  rewrite (process_unit_built table label_map headers rows built Hb) in H0.
  discriminate H0.
Qed.

Lemma some_row_short (headers : list string) (rows : list (list cell)) :
  ¬ Forall (fun row => length headers ≤ length row) rows →
  Exists (fun row => length row < length headers) rows.
Proof.
  intros Hn. apply not_Forall_Exists in Hn; [|intros row; apply _].
  eapply Exists_impl; [exact Hn|]. intros row Hrow. simpl in Hrow. lia.
Qed.

(** X15. Making the records and the rows of a unit's file out of a
    response of the declared type (the assembler on each row, the label
    merger, the sort, the layout of the rows under the header; not the
    opening or the writing of the file) fails in one way only: with
    [IndexError], and only when one of the rows is shorter than the header
    list.  Neither the normaliser nor the label merger nor the sort fails
    on what the assembler makes. *)
Theorem unit_fails_only_on_short_rows (table : string)
    (label_map : gmap string string) (headers : list string)
    (rows : list (list cell)) (e : exn) :
  process_unit table label_map headers rows = Raise e →
  e = IndexError ∧ Exists (fun row => length row < length headers) rows.
Proof.
  intros H. split; [by eapply process_unit_raises|].
  apply some_row_short. intros Hall.
  destruct (process_unit_returns table label_map headers rows Hall) as [u Hu].
  rewrite Hu in H. discriminate H.
Qed.

Lemma unit_fails_only_on_short_rows_witness :
  Exists (fun row : list cell => length row < 3) [ [ Some "g" ] ].
Proof.
  apply (unit_fails_only_on_short_rows "S1701" ∅ [ "GEO_ID"; "NAME"; "S1701_C01_001E" ]
           [ [ Some "g" ] ] IndexError).
  vm_compute. reflexivity.
Defined.

(** ** What a run writes *)

Lemma pause_logs (backoff : spec_float) (attempt : Z) (w w2 : world) :
  (d ← delay backoff attempt; sleep d w) = Ok w2 → ∃ d, w2 = log (Sleep d) w.
Proof.
  intros H. apply bind_ok in H as (d & _ & Hs). exists d.
  destruct d as [s|[]| |[] m e]; simpl in Hs; try discriminate Hs.
  all: by injection Hs as <-.
Qed.

Lemma written_paths_snoc (t : list event) (e : event) :
  written_paths (t ++ [e])
  = written_paths t ++ match e with WriteCsv path _ => [path] | _ => [] end.
Proof. unfold written_paths. rewrite omap_app. by destruct e. Qed.

Lemma broken_paths_snoc (t : list event) (e : event) :
  broken_paths (t ++ [e])
  = broken_paths t ++ match e with BrokenCsv path => [path] | _ => [] end.
Proof. unfold broken_paths. rewrite omap_app. by destruct e. Qed.

Section Writes.
Context (net : nat → get_outcome) (label_file : string → option (list label_row)).
Context (disk : nat → write_outcome) (stdout : nat → print_outcome).
Context (a : args).

Lemma fetch_attempts_writes_nothing (table tract : string) (backoff : spec_float)
    (left : nat) :
  ∀ (attempt : Z) (last_err : option fetch_failure) (w w' : world)
    (r : res (list json)),
  fetch_attempts net (year a) (product a) table tract backoff left attempt last_err w
  = (r, w') →
  written_paths (trace w') = written_paths (trace w) ∧
  broken_paths (trace w') = broken_paths (trace w).
Proof.
  induction left as [|left IH]; intros attempt last_err w w' r H.
  - cbn [fetch_attempts] in H. by injection H as <- <-.
  - cbn [fetch_attempts session_get] in H.
    destruct (check_response (net (requests w))) as [e|data] eqn:Hc.
    + destruct (d ← delay backoff attempt; sleep d _) as [w2|x] eqn:Hp.
      * apply pause_logs in Hp as [d ->]. apply IH in H as [-> ->].
        unfold log. cbn [trace].
        rewrite !written_paths_snoc, !broken_paths_snoc, !app_nil_r. done.
      * injection H as <- <-. cbn [trace].
        rewrite written_paths_snoc, broken_paths_snoc, !app_nil_r. done.
    + injection H as <- <-. cbn [trace].
      rewrite written_paths_snoc, broken_paths_snoc, !app_nil_r. done.
Qed.

(** What a unit adds to the files: on success its file; on failure
    nothing, or its file (when it is the line printed after it that
    fails), or its file half written. *)
Lemma do_unit_writes (table : string) (label_map : gmap string string)
    (tract : string) (w w' : world) (r : res unit) :
  do_unit net disk stdout a table label_map tract w = Some (r, w') →
  let path := out_path (table, tract) in
  match r with
  | Ok _ =>
      written_paths (trace w') = written_paths (trace w) ++ [path] ∧
      broken_paths (trace w') = broken_paths (trace w)
  | Raise _ =>
      (written_paths (trace w') = written_paths (trace w) ∧
       broken_paths (trace w') = broken_paths (trace w)) ∨
      (written_paths (trace w') = written_paths (trace w) ++ [path] ∧
       broken_paths (trace w') = broken_paths (trace w)) ∨
      (written_paths (trace w') = written_paths (trace w) ∧
       broken_paths (trace w') = broken_paths (trace w) ++ [path])
  end.
Proof.
  intros H. cbv zeta. unfold do_unit, fetch_group_subject in H.
  destruct (fetch_attempts _ _ _ _ _ _ _ _ _ w) as [fetched w1] eqn:Hf.
  apply fetch_attempts_writes_nothing in Hf as [Hfw Hfb].
  destruct fetched as [data|e]; [|injection H as <- <-; by left].
  destruct (as_table data) as [[hs rows]|]; [|discriminate H].
  destruct (process_unit table label_map hs rows) as [u|e];
    [|injection H as <- <-; by left].
  destruct (disk (clock w1)).
  - destruct (stdout _); injection H as <- <-; unfold log; cbn [trace].
    + rewrite !written_paths_snoc, !broken_paths_snoc, !app_nil_r, Hfw, Hfb. done.
    + right. left.
      rewrite !written_paths_snoc, !broken_paths_snoc, !app_nil_r, Hfw, Hfb. done.
    + right. left.
      rewrite !written_paths_snoc, !broken_paths_snoc, !app_nil_r, Hfw, Hfb. done.
  - injection H as <- <-. by left.
  - injection H as <- <-. right. right. unfold log. cbn [trace].
    rewrite !written_paths_snoc, !broken_paths_snoc, !app_nil_r, Hfw, Hfb. done.
Qed.

Lemma tracts_loop_writes (table : string) (label_map : gmap string string)
    (ts : list string) :
  ∀ (w w' : world) (r : res unit),
  tracts_loop net disk stdout a table label_map ts w = Some (r, w') →
  let paths := map (fun tract => out_path (table, tract)) ts in
  ∃ k, k ≤ length ts ∧
       written_paths (trace w') = written_paths (trace w) ++ take k paths ∧
       match r with
       | Ok _ => k = length ts ∧ broken_paths (trace w') = broken_paths (trace w)
       | Raise _ =>
           broken_paths (trace w') = broken_paths (trace w) ∨
           ∃ path, paths !! k = Some path ∧
                   broken_paths (trace w') = broken_paths (trace w) ++ [path]
       end.
Proof.
  induction ts as [|tract ts IH]; intros w w' r H paths.
  - cbn [tracts_loop] in H. injection H as <- <-. exists 0.
    rewrite app_nil_r. done.
  - cbn [tracts_loop] in H.
    destruct (do_unit net disk stdout a table label_map tract w) as [[r1 w1]|] eqn:Hu;
      [|discriminate H].
    apply do_unit_writes in Hu. cbv zeta in Hu. destruct r1 as [[]|e].
    + destruct Hu as [Hw1 Hb1].
      apply IH in H as (k & Hk & Hw & Hr). exists (S k). split; [simpl; lia|]. split.
      * rewrite Hw, Hw1, <- app_assoc. reflexivity.
      * destruct r.
        -- destruct Hr as [-> Hb]. split; [done|]. by rewrite Hb.
        -- rewrite Hb1 in Hr. exact Hr.
    + injection H as <- <-. destruct Hu as [[Hw1 Hb1]|[[Hw1 Hb1]|[Hw1 Hb1]]].
      * exists 0. rewrite Hw1, app_nil_r. split; [lia|]. split; [done|by left].
      * exists 1. rewrite Hw1. split; [simpl; lia|]. split; [done|by left].
      * exists 0. rewrite Hw1, app_nil_r. split; [lia|]. split; [done|].
        right. eexists. split; [reflexivity|exact Hb1].
Qed.

Lemma tables_loop_writes (tbls : list string) :
  ∀ (w w' : world) (r : res unit),
  let us := table ← tbls; tract ← tracts a; [ (table, tract) ] in
  tables_loop net label_file disk stdout a tbls w = Some (r, w') →
  ∃ k, k ≤ length us ∧
       written_paths (trace w') = written_paths (trace w) ++ take k (map out_path us) ∧
       match r with
       | Ok _ => k = length us ∧ broken_paths (trace w') = broken_paths (trace w)
       | Raise _ =>
           broken_paths (trace w') = broken_paths (trace w) ∨
           ∃ path, map out_path us !! k = Some path ∧
                   broken_paths (trace w') = broken_paths (trace w) ++ [path]
       end.
Proof.
  induction tbls as [|table tbls IH]; intros w w' r us H.
  - cbn [tables_loop] in H. injection H as <- <-. exists 0. rewrite app_nil_r. done.
  - assert (us = map (fun tract => (table, tract)) (tracts a)
                 ++ (table ← tbls; tract ← tracts a; [ (table, tract) ])) as Hus.
    { subst us. cbn [mbind list_bind]. f_equal. }
    clearbody us. subst us. cbn [tables_loop] in H.
    destruct (tracts_loop net disk stdout a table _ (tracts a) w) as [[r1 w1]|] eqn:Ht;
      [|discriminate H].
    apply tracts_loop_writes in Ht as (k1 & Hk1 & Hw1 & Hr1). cbv zeta in Hw1, Hr1.
    rewrite map_app, map_map, length_app, length_map.
    set (l1 := map (fun tract => out_path (table, tract)) (tracts a)) in *.
    assert (length l1 = length (tracts a)) as Hl1 by (unfold l1; by rewrite length_map).
    destruct r1 as [[]|e].
    + destruct Hr1 as [-> Hb1].
      apply IH in H as (k & Hk & Hw & Hr). cbv zeta in Hw, Hr.
      exists (length (tracts a) + k). split; [lia|]. split.
      * rewrite Hw, Hw1, <- app_assoc. f_equal.
        rewrite firstn_all2 by lia.
        rewrite take_app_add'; [done|by rewrite Hl1].
      * destruct r.
        -- destruct Hr as [-> Hb]. split; [done|]. by rewrite Hb.
        -- rewrite Hb1 in Hr. destruct Hr as [Hb|(path & Hpath & Hb)]; [by left|].
           right. exists path. split; [|done].
           rewrite lookup_app_r by lia.
           replace (length (tracts a) + k - length l1) with k by lia. done.
    + injection H as <- <-. exists k1. split; [lia|]. split.
      * rewrite Hw1. f_equal. rewrite take_app_le; [done|lia].
      * destruct Hr1 as [Hb|(path & Hpath & Hb)]; [by left|].
        right. exists path. split; [|done]. by apply lookup_app_l_Some.
Qed.
End Writes.

(** X16. Whatever the network, the file system and the standard output
    do, a run on responses of the declared type writes the files of the
    units in their order, tables first, up to the unit that fails: every
    one of them when it ends without an error.  When it ends in an error,
    the files written to the end are those of the first [k] units, and the
    one file that may be left half written is that of the next unit; no
    file of a later unit is touched. *)
Theorem run_writes_a_prefix (net : nat → get_outcome)
    (label_file : string → option (list label_row))
    (disk : nat → write_outcome) (stdout : nat → print_outcome) (a : args)
    (r : res unit) (w : world) :
  main net label_file disk stdout a = Some (r, w) →
  ∃ k, k ≤ length (units a) ∧
       written_paths (trace w) = take k (map out_path (units a)) ∧
       match r with
       | Ok _ => k = length (units a) ∧ broken_paths (trace w) = []
       | Raise _ =>
           broken_paths (trace w) = [] ∨
           ∃ path, map out_path (units a) !! k = Some path ∧
                   broken_paths (trace w) = [path]
       end.
Proof.
  unfold main. intros H.
  apply tables_loop_writes in H as (k & Hk & Hw & Hr). exists k.
  split; [exact Hk|]. split; [exact Hw|exact Hr].
Qed.

Lemma run_writes_a_prefix_witness :
  let net := fun _ : nat =>
    Response 200 (Some (JList [ JList [ JStr "GEO_ID"; JStr "NAME"; JStr "S1701_C01_001E" ];
                                JList [ JStr "g"; JStr "Tract"; JStr "1845" ] ])) in
  let a := {| year := "2023"; product := "acs5";
              tables := [ "S1701" ]; tracts := [ "01001020100"; "01001020200" ] |} in
  ∃ w k,
    main net (fun _ => None) (fun _ => OpenFails) (fun _ => Printed) a
    = Some (Raise OSError, w) ∧
    written_paths (trace w) = take k (map out_path (units a)) ∧
    requests w = 1.
Proof.
  intros net a.
  assert (∃ w, main net (fun _ => None) (fun _ => OpenFails) (fun _ => Printed) a
               = Some (Raise OSError, w) ∧ requests w = 1) as (w & Hrun & Hreq).
  { eexists. split; [vm_compute; reflexivity|reflexivity]. }
  destruct (run_writes_a_prefix _ _ _ _ _ _ _ Hrun) as (k & _ & Hk & _).
  exists w, k. split; [exact Hrun|]. split; [exact Hk|exact Hreq].
Defined.

(** ** How a unit fails *)

Section UnitFails.
Context (net : nat → get_outcome) (label_file : string → option (list label_row)).
Context (disk : nat → write_outcome) (stdout : nat → print_outcome).
Context (a : args).

Lemma fetch_default_succeeds (year product table tract : string) (w : world)
    (fails : list fetch_failure) (data : list json) :
  length fails < 3 →
  (∀ i e, fails !! i = Some e → check_response (net (requests w + i)) = inl e) →
  check_response (net (requests w + length fails)) = inr data →
  ∃ w', fetch_group_subject net year product table tract
          default_retries default_backoff w = (Ok data, w').
Proof.
  intros Hlen Hf Hok. eexists.
  unfold fetch_group_subject, default_retries.
  replace (Z.to_nat 3) with (length fails + S (2 - length fails)) by lia.
  apply (fetch_attempts_succeeds net year product table tract default_backoff fails
           (take (length fails) [f_0_8; f_1_6; f_2_4000000000000004])); [| | |done].
  - rewrite length_take. simpl. lia.
  - exact Hf.
  - intros i d Hi. apply lookup_take_Some in Hi as [Hi _]. by apply default_pauses_at.
Qed.

(** With the defaults the fetcher raises nothing but its [RuntimeError],
    after three requests. *)
Lemma fetch_default_raises (year product table tract : string) (w w' : world) (e : exn) :
  fetch_group_subject net year product table tract default_retries default_backoff w
  = (Raise e, w') →
  (∃ last, e = RuntimeError table tract (Some last)) ∧ requests w' = requests w + 3.
Proof.
  intros H.
  destruct (check_response (net (requests w))) as [e0|d0] eqn:H0.
  2: { destruct (fetch_default_succeeds year product table tract w [] d0) as [w0 Hs].
       - simpl. lia.
       - intros i e' He'. discriminate He'.
       - simpl. by rewrite Nat.add_0_r.
       - rewrite Hs in H. discriminate H. }
  destruct (check_response (net (requests w + 1))) as [e1|d1] eqn:H1.
  2: { destruct (fetch_default_succeeds year product table tract w [e0] d1) as [w0 Hs].
       - simpl. lia.
       - intros [|i] e' He'; [|discriminate He'].
         injection He' as <-. by rewrite Nat.add_0_r.
       - exact H1.
       - rewrite Hs in H. discriminate H. }
  destruct (check_response (net (requests w + 2))) as [e2|d2] eqn:H2.
  2: { destruct (fetch_default_succeeds year product table tract w [e0; e1] d2) as [w0 Hs].
       - simpl. lia.
       - intros [|[|i]] e' He'; [| |discriminate He'].
         + injection He' as <-. by rewrite Nat.add_0_r.
         + injection He' as <-. exact H1.
       - exact H2.
       - rewrite Hs in H. discriminate H. }
  unfold fetch_group_subject, default_retries in H.
  change (Z.to_nat 3) with (length [e0; e1; e2]) in H.
  rewrite (fetch_attempts_exhausted net year product table tract default_backoff
             [e0; e1; e2] [f_0_8; f_1_6; f_2_4000000000000004] 0 None w eq_refl) in H.
  - injection H as <- <-. cbn [requests length last]. split; [eauto|done].
  - intros [|[|[|i]]] e' He'; try discriminate He'; injection He' as <-;
      by rewrite ?Nat.add_0_r.
  - intros i d Hi. by apply default_pauses_at.
Qed.
End UnitFails.

(** X17. How a unit of the run fails, on a response of the declared type.
    With the [RuntimeError] of the fetcher and its last failure, after
    three requests; with [IndexError], the response being one with a row
    shorter than its header list; in both cases no file is touched.  With
    [OSError]: no file, or the file half written, or the file written (the
    file system or the standard output failed).  With
    [UnicodeEncodeError], the file being written by then (the line that
    reports the unit could not be printed).  There is no other failure. *)
Theorem unit_failure_modes (net : nat → get_outcome)
    (disk : nat → write_outcome) (stdout : nat → print_outcome) (a : args)
    (table : string) (label_map : gmap string string) (tract : string)
    (w w' : world) (e : exn) :
  do_unit net disk stdout a table label_map tract w = Some (Raise e, w') →
  let path := out_path (table, tract) in
  let untouched :=
    written_paths (trace w') = written_paths (trace w) ∧
    broken_paths (trace w') = broken_paths (trace w) in
  let written_now :=
    written_paths (trace w') = written_paths (trace w) ++ [path] ∧
    broken_paths (trace w') = broken_paths (trace w) in
  let broken_now :=
    written_paths (trace w') = written_paths (trace w) ∧
    broken_paths (trace w') = broken_paths (trace w) ++ [path] in
  ((∃ last, e = RuntimeError table tract (Some last)) ∧
   requests w' = requests w + 3 ∧ untouched) ∨
  (e = IndexError ∧ requests w < requests w' ∧ untouched ∧
   ∃ data headers rows,
     check_response (net (requests w' - 1)) = inr data ∧
     as_table data = Some (headers, rows) ∧
     Exists (fun row => length row < length headers) rows) ∨
  (e = OSError ∧ requests w < requests w' ∧ (untouched ∨ broken_now ∨ written_now)) ∨
  (e = UnicodeEncodeError ∧ requests w < requests w' ∧ written_now).
Proof.
  intros H. cbv zeta. unfold do_unit in H.
  destruct (fetch_group_subject _ _ _ _ _ _ _ w) as [fetched w1] eqn:Hf.
  pose proof Hf as Hpaths. unfold fetch_group_subject in Hpaths.
  apply (fetch_attempts_writes_nothing net a) in Hpaths as [Hfw Hfb].
  destruct fetched as [data|e1].
  - assert (requests w < requests w1 ∧
            check_response (net (requests w1 - 1)) = inr data) as [Hreq Hdata].
    { pose proof Hf as Hf'. unfold fetch_group_subject in Hf'.
      apply fetch_attempts_requests in Hf' as [_ Hd]. by apply Hd. }
    destruct (as_table data) as [[hs rows]|] eqn:Htab; [|discriminate H].
    destruct (process_unit table label_map hs rows) as [u|e2] eqn:Hu.
    + destruct (disk (clock w1)).
      * destruct (stdout _); [discriminate H| |]; injection H as <- <-;
          unfold log; cbn [trace requests];
          rewrite !written_paths_snoc, !broken_paths_snoc, !app_nil_r, Hfw, Hfb.
        -- right. right. right. done.
        -- right. right. left. split; [done|]. split; [done|]. right. right. done.
      * injection H as <- <-. right. right. left. split; [done|]. split; [done|].
        left. done.
      * injection H as <- <-. right. right. left. split; [done|]. split; [done|].
        right. left. unfold log. cbn [trace].
        rewrite !written_paths_snoc, !broken_paths_snoc, !app_nil_r, Hfw, Hfb. done.
    + injection H as <- <-. right. left.
      split; [by eapply process_unit_raises|]. split; [done|]. split; [done|].
      exists data, hs, rows. split; [done|]. split; [done|].
      apply some_row_short. intros Hall.
      destruct (process_unit_returns table label_map hs rows Hall) as [u Hu'].
      rewrite Hu' in Hu. discriminate Hu.
  - injection H as <- <-. left.
    destruct (fetch_default_raises net (year a) (product a) table tract w w1 e1 Hf)
      as [Hlast Hreq].
    done.
Qed.

Lemma unit_failure_modes_witness :
  let net := fun _ : nat =>
    Response 200 (Some (JList [ JList [ JStr "GEO_ID"; JStr "NAME"; JStr "S1701_C01_001E" ];
                                JList [ JStr "g"; JStr "Tract"; JStr "1845" ] ])) in
  let a := {| year := "2023"; product := "acs5";
              tables := [ "S1701" ]; tracts := [ "01001020100" ] |} in
  ∃ w',
    do_unit net (fun _ => Written) (fun _ => CannotEncode) a "S1701" ∅ "01001020100" start
    = Some (Raise UnicodeEncodeError, w') ∧
    written_paths (trace w') = [ "output/01001020100_S1701.csv" ].
Proof.
  intros net a.
  assert (∃ w', do_unit net (fun _ => Written) (fun _ => CannotEncode) a "S1701" ∅
                  "01001020100" start = Some (Raise UnicodeEncodeError, w'))
    as [w' Hrun].
  { eexists. vm_compute. reflexivity. }
  exists w'. split; [exact Hrun|].
  destruct (unit_failure_modes _ _ _ _ _ _ _ _ _ _ Hrun)
    as [[[last Hl] _]|[[He _]|[[He _]|(_ & _ & Hw & _)]]];
    [discriminate Hl|discriminate He|discriminate He|exact Hw].
Defined.
